(** * TerrainNode: the terrain side of the tire/terrain co-simulation

    A shallow embedding of [TerrainNode.cpp] (test_HMMWV_cosimulation) and
    the properties of its handshake, synchronisation, stepping and
    checkpointing code.

    Conventions of the embedding:
    - [double] and [float] values are exact rationals ([Q]); the claims
      proved here are statements of exact arithmetic.
    - [unsigned int] values are integers in [0, 2^32) and every arithmetic
      operation on them is reduced modulo 2^32 ([u32]); an [unsigned int]
      stored into an [int] goes through [to_int].
    - [std::shared_ptr<ChBody>] is a handle: the position of the body in the
      body list of the system, which is the shared store.
    - the physics engine (Chrono::Parallel), the particle generator and MPI
      are outside the repository; they appear through the interface the
      code uses (class [Engine], the message arguments of [Initialize] and
      [Synchronize]). *)

From Stdlib Require Import ZArith QArith Qround Lqa Lia List Bool Sorted.
From stdpp Require Import base option list gmap sorting.

Local Open Scope Z_scope.

(** ** Machine integers *)

Definition u32_modulus : Z := 2 ^ 32.

(** Reduction of an integer to an [unsigned int]. *)
Definition u32 (n : Z) : Z := n mod u32_modulus.

(** Conversion of an [unsigned int] to [int] (two's complement). *)
Definition to_int (n : Z) : Z :=
  if Z_lt_dec (u32 n) (2 ^ 31) then u32 n else u32 n - u32_modulus.

(** Conversion of an [int] to [unsigned int]. *)
Definition to_unsigned (n : Z) : Z := u32 n.

(** ** Scalars, vectors and quaternions *)

(** [a < b] on [double]. *)
Definition Qltb (a b : Q) : bool := negb (Qle_bool b a).

(** [std::min(a, b)]: [b] when [b < a], otherwise [a]. *)
Definition std_min (a b : Q) : Q := if Qltb b a then b else a.

Record ChVector := mkV { vx : Q; vy : Q; vz : Q }.

(** Chrono::Parallel's [real3] carries the same three scalars. *)
Abbreviation real3 := ChVector.

Record ChQuaternion := mkQ { e0 : Q; e1 : Q; e2 : Q; e3 : Q }.

Definition VNULL : ChVector := mkV 0 0 0.
Definition QUNIT : ChQuaternion := mkQ 1 0 0 0.
Definition QNULL : ChQuaternion := mkQ 0 0 0 0.

Definition Vadd (a b : ChVector) : ChVector :=
  mkV (vx a + vx b) (vy a + vy b) (vz a + vz b).
Definition Vsub (a b : ChVector) : ChVector :=
  mkV (vx a - vx b) (vy a - vy b) (vz a - vz b).
Definition Vdiv (a : ChVector) (s : Q) : ChVector :=
  mkV (vx a / s) (vy a / s) (vz a / s).

(** Equality of vectors as rational numbers. *)
Definition Veq (a b : ChVector) : Prop :=
  (vx a == vx b)%Q /\ (vy a == vy b)%Q /\ (vz a == vz b)%Q.

Definition Vsum (l : list ChVector) : ChVector := fold_right Vadd VNULL l.

Definition Qsum (l : list Q) : Q := fold_right Qplus 0%Q l.

(** The largest element count whose [3 * count] indices all fit an
    [unsigned int]. *)
Definition max_elements : Z := 1431655765.

Definition force_components (f : real3) : list Q := [vx f; vy f; vz f].

(** ** Outcomes of fallible code

    [Ok a]: the call returns with state [a].
    [Abort a]: the process is terminated ([MPI_Abort], or an [assert] that
    fails in a build without [NDEBUG]); [a] is the state at that point.
    [Stuck]: the C++ code has no defined result here (an access outside a
    container or buffer), or the embedding does not model it (a read past
    the last line of the checkpoint file). *)

Inductive result (A : Type) : Type :=
| Ok (a : A)
| Abort (a : A)
| Stuck.
Arguments Ok {A} a.
Arguments Abort {A} a.
Arguments Stuck {A}.

Definition rbind {A : Type} (m : result A) (f : A -> result A) : result A :=
  match m with
  | Ok a => f a
  | Abort a => Abort a
  | Stuck => Stuck
  end.

Notation "m >>= f" := (rbind m f) (at level 50, left associativity).

(** A value read from a container, [v[i]]: stuck outside its bounds. *)
Definition rget {A B : Type} (o : option A) (k : A -> result B) : result B :=
  match o with
  | Some a => k a
  | None => Stuck
  end.

Notation "'let?' x := o 'in' k" := (rget o (fun x => k))
  (at level 10, x name, o at level 100, k at level 200).

(** The list after [v[i] = x]; nothing outside the bounds of [v]. *)
Definition list_set {A : Type} (l : list A) (i : nat) (x : A) : option (list A) :=
  if decide (i < length l)%nat then Some (<[i := x]> l) else None.

(** [for (i = start; i < start + n; i++) body(i)], threading the state. *)
Fixpoint for_loop {S : Type} (n : nat) (start : nat)
    (body : nat -> S -> result S) (s : S) : result S :=
  match n with
  | O => Ok s
  | S n' => body start s >>= for_loop n' (Datatypes.S start) body
  end.

(** ** Bodies, contact materials and the physics system *)

Inductive ChMaterialSurface : Type :=
| ChMaterialSurfaceSMC (friction restitution young poisson kn gn kt gt : Q)
| ChMaterialSurfaceNSC (friction restitution : Q).

Inductive ContactMethod : Type := SMC | NSC.

(** [material] is the shared pointer to the contact material ([None] when
    null).  The kinematic state of a body is what the setters of [ChBody] last
    stored; [wvel_loc] is the argument of the last [SetWvel_loc] (the
    engine's conversion between it and [rot_dt] is not part of the
    repository). *)
Record ChBody := mkBody {
  identifier : Z;
  mass : Q;
  inertiaXX : ChVector;
  body_fixed : bool;
  collide : bool;
  material : option ChMaterialSurface;
  family : option Z;
  pos : ChVector;
  rot : ChQuaternion;
  pos_dt : ChVector;
  rot_dt : ChQuaternion;
  wvel_loc : ChVector
}.

(** [m_system->NewBody()]: a body with default properties. *)
Definition NewBody : ChBody :=
  mkBody 0 1 (mkV 1 1 1) false true None None VNULL QUNIT VNULL QNULL VNULL.

Definition SetIdentifier (id : Z) (b : ChBody) : ChBody :=
  mkBody id (mass b) (inertiaXX b) (body_fixed b) (collide b) (material b)
    (family b) (pos b) (rot b) (pos_dt b) (rot_dt b) (wvel_loc b).
Definition SetMass (m : Q) (b : ChBody) : ChBody :=
  mkBody (identifier b) m (inertiaXX b) (body_fixed b) (collide b) (material b)
    (family b) (pos b) (rot b) (pos_dt b) (rot_dt b) (wvel_loc b).
Definition SetInertiaXX (i : ChVector) (b : ChBody) : ChBody :=
  mkBody (identifier b) (mass b) i (body_fixed b) (collide b) (material b)
    (family b) (pos b) (rot b) (pos_dt b) (rot_dt b) (wvel_loc b).
Definition SetBodyFixed (f : bool) (b : ChBody) : ChBody :=
  mkBody (identifier b) (mass b) (inertiaXX b) f (collide b) (material b)
    (family b) (pos b) (rot b) (pos_dt b) (rot_dt b) (wvel_loc b).
Definition SetCollide (c : bool) (b : ChBody) : ChBody :=
  mkBody (identifier b) (mass b) (inertiaXX b) (body_fixed b) c (material b)
    (family b) (pos b) (rot b) (pos_dt b) (rot_dt b) (wvel_loc b).
Definition SetMaterialSurface (m : option ChMaterialSurface) (b : ChBody) : ChBody :=
  mkBody (identifier b) (mass b) (inertiaXX b) (body_fixed b) (collide b) m
    (family b) (pos b) (rot b) (pos_dt b) (rot_dt b) (wvel_loc b).
(** [SetFamily(f)] followed by [SetFamilyMaskNoCollisionWithFamily(f)]. *)
Definition SetFamily (f : Z) (b : ChBody) : ChBody :=
  mkBody (identifier b) (mass b) (inertiaXX b) (body_fixed b) (collide b) (material b)
    (Some f) (pos b) (rot b) (pos_dt b) (rot_dt b) (wvel_loc b).
Definition SetPos (p : ChVector) (b : ChBody) : ChBody :=
  mkBody (identifier b) (mass b) (inertiaXX b) (body_fixed b) (collide b) (material b)
    (family b) p (rot b) (pos_dt b) (rot_dt b) (wvel_loc b).
Definition SetRot (q : ChQuaternion) (b : ChBody) : ChBody :=
  mkBody (identifier b) (mass b) (inertiaXX b) (body_fixed b) (collide b) (material b)
    (family b) (pos b) q (pos_dt b) (rot_dt b) (wvel_loc b).
Definition SetPos_dt (v : ChVector) (b : ChBody) : ChBody :=
  mkBody (identifier b) (mass b) (inertiaXX b) (body_fixed b) (collide b) (material b)
    (family b) (pos b) (rot b) v (rot_dt b) (wvel_loc b).
Definition SetRot_dt (q : ChQuaternion) (b : ChBody) : ChBody :=
  mkBody (identifier b) (mass b) (inertiaXX b) (body_fixed b) (collide b) (material b)
    (family b) (pos b) (rot b) (pos_dt b) q (wvel_loc b).
Definition SetWvel_loc (w : ChVector) (b : ChBody) : ChBody :=
  mkBody (identifier b) (mass b) (inertiaXX b) (body_fixed b) (collide b) (material b)
    (family b) (pos b) (rot b) (pos_dt b) (rot_dt b) w.

(** The system: the body list (the store the handles point into), the
    links, the clock, and the contact-shape arrays of the data manager.
    [ObA_rigid] has one position per contact shape in creation order;
    [box_like_rigid], [sphere_rigid] and [triangle_rigid] hold the
    dimensions of the boxes, the spheres and (three entries each) the
    triangles, each in creation order. *)
Record ChSystemParallel := mkSys {
  bodylist : list ChBody;
  linklist : list (nat * nat);
  ChTime : Q;
  ObA_rigid : list real3;
  box_like_rigid : list real3;
  sphere_rigid : list Q;
  triangle_rigid : list real3;
  bins_per_axis : Z * Z * Z;
  use_aabb_active : bool;
  aabb_min : real3;
  aabb_max : real3
}.

Definition set_bodylist (l : list ChBody) (s : ChSystemParallel) :=
  mkSys l (linklist s) (ChTime s) (ObA_rigid s) (box_like_rigid s)
    (sphere_rigid s) (triangle_rigid s) (bins_per_axis s) (use_aabb_active s)
    (aabb_min s) (aabb_max s).
Definition set_triangle_rigid (l : list real3) (s : ChSystemParallel) :=
  mkSys (bodylist s) (linklist s) (ChTime s) (ObA_rigid s) (box_like_rigid s)
    (sphere_rigid s) l (bins_per_axis s) (use_aabb_active s)
    (aabb_min s) (aabb_max s).
Definition set_bins_per_axis (b : Z * Z * Z) (s : ChSystemParallel) :=
  mkSys (bodylist s) (linklist s) (ChTime s) (ObA_rigid s) (box_like_rigid s)
    (sphere_rigid s) (triangle_rigid s) b (use_aabb_active s)
    (aabb_min s) (aabb_max s).
Definition set_aabb (lo hi : real3) (s : ChSystemParallel) :=
  mkSys (bodylist s) (linklist s) (ChTime s) (ObA_rigid s) (box_like_rigid s)
    (sphere_rigid s) (triangle_rigid s) (bins_per_axis s) true lo hi.
Definition SetChTime (t : Q) (s : ChSystemParallel) :=
  mkSys (bodylist s) (linklist s) t (ObA_rigid s) (box_like_rigid s)
    (sphere_rigid s) (triangle_rigid s) (bins_per_axis s) (use_aabb_active s)
    (aabb_min s) (aabb_max s).
Definition AddLink (l : nat * nat) (s : ChSystemParallel) :=
  mkSys (bodylist s) (linklist s ++ [l]) (ChTime s) (ObA_rigid s) (box_like_rigid s)
    (sphere_rigid s) (triangle_rigid s) (bins_per_axis s) (use_aabb_active s)
    (aabb_min s) (aabb_max s).

(** [data_manager->num_rigid_bodies] and [num_rigid_shapes] ([uint]). *)
Definition num_rigid_bodies (s : ChSystemParallel) : Z :=
  u32 (Z.of_nat (length (bodylist s))).
Definition num_rigid_shapes (s : ChSystemParallel) : Z :=
  u32 (Z.of_nat (length (ObA_rigid s))).

(** [AddBody]: the body goes to the end of the body list. *)
Definition AddBody (b : ChBody) (s : ChSystemParallel) : ChSystemParallel :=
  set_bodylist (bodylist s ++ [b]) s.

(** The handle [AddBody] gives to the body it adds. *)
Definition next_handle (s : ChSystemParallel) : nat := length (bodylist s).

(** Contact shapes reach the arrays of the data manager when the collision
    model of a body of the system is built. *)
Definition AddBoxGeometry (hdims p : ChVector) (s : ChSystemParallel) :=
  mkSys (bodylist s) (linklist s) (ChTime s) (ObA_rigid s ++ [p])
    (box_like_rigid s ++ [hdims]) (sphere_rigid s) (triangle_rigid s)
    (bins_per_axis s) (use_aabb_active s) (aabb_min s) (aabb_max s).
Definition AddSphereGeometry (radius : Q) (p : ChVector) (s : ChSystemParallel) :=
  mkSys (bodylist s) (linklist s) (ChTime s) (ObA_rigid s ++ [p])
    (box_like_rigid s) (sphere_rigid s ++ [radius]) (triangle_rigid s)
    (bins_per_axis s) (use_aabb_active s) (aabb_min s) (aabb_max s).
Definition AddTriangle (a b c : ChVector) (s : ChSystemParallel) :=
  mkSys (bodylist s) (linklist s) (ChTime s) (ObA_rigid s ++ [VNULL])
    (box_like_rigid s) (sphere_rigid s) (triangle_rigid s ++ [a; b; c])
    (bins_per_axis s) (use_aabb_active s) (aabb_min s) (aabb_max s).

(** A setter called through a handle: [body->Set...(...)]. *)
Definition with_body (h : nat) (f : ChBody -> ChBody) (s : ChSystemParallel)
    : option ChSystemParallel :=
  match bodylist s !! h with
  | Some b => Some (set_bodylist (<[h := f b]> (bodylist s)) s)
  | None => None
  end.

(** The part of the engine, of the particle generator and of the CSV
    writer that the terrain node calls but that is not in the repository.
    [GetBodyContactForce s h] is the accumulated contact force on the body
    with handle [h]; [createObjectsBox mat rho size dist center hdims] is
    the list of bodies one call of the generator creates (identifiers are
    assigned by the caller's counter); [csv_double x] is the [double] that
    [operator>>] reads back from the text [utils::CSV_writer] prints for
    [x]. *)
Class Engine := {
  IsZero : real3 -> bool;
  GetBodyContactForce : ChSystemParallel -> nat -> real3;
  CalculateContactForces : ChSystemParallel -> ChSystemParallel;
  DoStepDynamics : Q -> ChSystemParallel -> ChSystemParallel;
  createObjectsBox :
    ChMaterialSurface -> Q -> Q -> Q -> ChVector -> ChVector -> list ChBody;
  csv_double : Q -> Q
}.

(** ** The terrain node *)

Inductive TerrainType : Type := RIGID | GRANULAR.

Record VertexState := mkVS { vs_pos : ChVector; vs_vel : ChVector }.

Record Triangle := mkTri { v1 : Z; v2 : Z; v3 : Z }.

(** A proxy body and the index of its mesh vertex or triangle. *)
Record ProxyBody := mkProxy { m_body : nat; m_index : Z }.

Record TireData := mkTire {
  m_proxies : list ProxyBody;
  m_vertex_states : list VertexState;
  m_triangles : list Triangle;
  m_num_vert : Z;
  m_num_tri : Z;
  m_start_vert : Z;
  m_start_tri : Z;
  m_material_tire : option ChMaterialSurface
}.

Definition TireData_default : TireData :=
  mkTire [] [] [] 0 0 0 0 None.

Definition set_proxies (l : list ProxyBody) (t : TireData) : TireData :=
  mkTire l (m_vertex_states t) (m_triangles t) (m_num_vert t) (m_num_tri t)
    (m_start_vert t) (m_start_tri t) (m_material_tire t).
Definition set_vertex_states (l : list VertexState) (t : TireData) : TireData :=
  mkTire (m_proxies t) l (m_triangles t) (m_num_vert t) (m_num_tri t)
    (m_start_vert t) (m_start_tri t) (m_material_tire t).
Definition set_triangles (l : list Triangle) (t : TireData) : TireData :=
  mkTire (m_proxies t) (m_vertex_states t) l (m_num_vert t) (m_num_tri t)
    (m_start_vert t) (m_start_tri t) (m_material_tire t).
Definition set_material_tire (m : ChMaterialSurface) (t : TireData) : TireData :=
  mkTire (m_proxies t) (m_vertex_states t) (m_triangles t) (m_num_vert t)
    (m_num_tri t) (m_start_vert t) (m_start_tri t) (Some m).

(** Messages handed to [MPI_Send]: destination rank, tag and buffer. *)
Inductive MPI_buffer : Type :=
| MPI_DOUBLE (data : list Q)
| MPI_INT (data : list Z).

Record MPI_message := mkMsg { msg_dest : Z; msg_tag : Z; msg_data : MPI_buffer }.

(** The members of the node that only its constructor and its [Set...]
    functions write, the members inherited from [BaseNode], the rank macros
    of [BaseNode.h] and the [NDEBUG] switch of the build. *)
Record Config := mkConfig {
  m_type : TerrainType;
  m_method : ContactMethod;
  m_num_tires : Z;
  m_use_checkpoint : bool;
  m_step_size : Q;
  m_hlenX : Q;
  m_hdimX : Q;
  m_hdimY : Q;
  m_hdimZ : Q;
  m_hthick : Q;
  m_radius_g : Q;
  m_rho_g : Q;
  m_num_layers : Z;
  m_time_settling : Q;
  m_fixed_proxies : bool;
  m_mass_pN : Q;
  m_radius_pN : Q;
  m_mass_pF : Q;
  m_material_terrain : ChMaterialSurface;
  VEHICLE_NODE_RANK : Z;
  TIRE_NODE_RANK : Z -> Z;
  NDEBUG : bool
}.

(** The members the functions below write, and the log of [MPI_Send]
    calls. *)
Record TerrainNode := mkNode {
  m_constructed : bool;
  m_num_particles : Z;
  m_particles_start_index : Z;
  m_proxy_start_index : Z;
  m_Id_g : Z;
  m_init_height : Q;
  m_platform : nat;
  m_system : ChSystemParallel;
  m_tire_data : list TireData;
  mpi_sent : list MPI_message
}.

Definition set_system (s : ChSystemParallel) (n : TerrainNode) : TerrainNode :=
  mkNode (m_constructed n) (m_num_particles n) (m_particles_start_index n)
    (m_proxy_start_index n) (m_Id_g n) (m_init_height n) (m_platform n) s
    (m_tire_data n) (mpi_sent n).
Definition set_tire_data (l : list TireData) (n : TerrainNode) : TerrainNode :=
  mkNode (m_constructed n) (m_num_particles n) (m_particles_start_index n)
    (m_proxy_start_index n) (m_Id_g n) (m_init_height n) (m_platform n)
    (m_system n) l (mpi_sent n).
Definition set_init_height (h : Q) (n : TerrainNode) : TerrainNode :=
  mkNode (m_constructed n) (m_num_particles n) (m_particles_start_index n)
    (m_proxy_start_index n) (m_Id_g n) h (m_platform n) (m_system n)
    (m_tire_data n) (mpi_sent n).
Definition MPI_Send (m : MPI_message) (n : TerrainNode) : TerrainNode :=
  mkNode (m_constructed n) (m_num_particles n) (m_particles_start_index n)
    (m_proxy_start_index n) (m_Id_g n) (m_init_height n) (m_platform n)
    (m_system n) (m_tire_data n) (mpi_sent n ++ [m]).

(** The node as its constructor leaves it, for a system [sys] that holds
    the solver settings and no body.  [m_Id_g] and [m_platform] are not
    initialised by the constructor; [Construct] writes them before any
    function reads them. *)
Definition TerrainNode_new (cfg : Config) (sys : ChSystemParallel) : TerrainNode :=
  mkNode false 0 0 0 0 0 O sys
    (replicate (Z.to_nat (m_num_tires cfg)) TireData_default) [].

(** [m_tire_data[which].field = ...] and calls through [m_system]. *)
Definition with_tire (which : nat) (f : TireData -> TireData) (n : TerrainNode)
    : result TerrainNode :=
  let? t := m_tire_data n !! which in
  Ok (set_tire_data (<[which := f t]> (m_tire_data n)) n).

Definition with_system (f : ChSystemParallel -> ChSystemParallel) (n : TerrainNode)
    : TerrainNode :=
  set_system (f (m_system n)) n.

Definition with_proxy_body (h : nat) (f : ChBody -> ChBody) (n : TerrainNode)
    : result TerrainNode :=
  let? s := with_body h f (m_system n) in Ok (set_system s n).

(** [assert(c)]: nothing with [NDEBUG], otherwise the process is terminated
    when [c] is false. *)
Definition assert (cfg : Config) (c : bool) (n : TerrainNode) : result TerrainNode :=
  if NDEBUG cfg || c then Ok n else Abort n.

Definition Vscale (s : Q) (a : ChVector) : ChVector :=
  mkV (s * vx a) (s * vy a) (s * vz a).

(** A setter called through a handle that [AddBody] has just returned. *)
Definition set_body (h : nat) (f : ChBody -> ChBody) (s : ChSystemParallel)
    : ChSystemParallel :=
  set_bodylist (alter f h (bodylist s)) s.

(** The checkpoint file: the time, the number of particles, and one line
    per body with its identifier, position, orientation, linear velocity
    and quaternion rate. *)
Record CheckpointLine := mkLine {
  ck_id : Z;
  ck_pos : ChVector;
  ck_rot : ChQuaternion;
  ck_pos_dt : ChVector;
  ck_rot_dt : ChQuaternion
}.

Record CheckpointFile := mkFile {
  ck_time : Q;
  ck_num_particles : Z;
  ck_lines : list CheckpointLine
}.

(** Sums of the first [k] values of [f]. *)
Fixpoint prefix_sum (f : nat -> Z) (k : nat) : Z :=
  match k with
  | O => 0
  | S k' => prefix_sum f k' + f k'
  end.

Fixpoint prefix_count (f : nat -> nat) (k : nat) : nat :=
  match k with
  | O => O
  | S k' => (prefix_count f k' + f k')%nat
  end.

(** A third of a force. *)
Definition third (f : real3) : ChVector := mkV (vx f / 3) (vy f / 3) (vz f / 3).

(** The shares of vertex [v] in a force [f] spread over the corners of
    [tri]: one [f] for each corner that is [v]. *)
Definition corner_shares (tri : Triangle) (f : ChVector) (v : Z) : list ChVector :=
  (if decide (v1 tri = v) then [f] else []) ++
  (if decide (v2 tri = v) then [f] else []) ++
  (if decide (v3 tri = v) then [f] else []).

(** The value a map entry holds after the forces [l] reached it in turn:
    the first one is stored, the next ones are added to it. *)
Definition accumulate (l : list ChVector) : option ChVector :=
  match l with
  | [] => None
  | f :: rest => Some (fold_left Vadd rest f)
  end.

(** The body after the four setters called with the values of a line. *)
Definition restore_body (line : CheckpointLine) (body : ChBody) : ChBody :=
  SetRot_dt (ck_rot_dt line)
    (SetPos_dt (ck_pos_dt line) (SetRot (ck_rot line) (SetPos (ck_pos line) body))).

(** The structural bodies come first and the granular bodies, which are
    the bodies with an identifier of at least [m_Id_g], follow them from
    position [m_particles_start_index] on. *)
Definition granular_layout (n : TerrainNode) : Prop :=
  0 <= m_particles_start_index n < 2 ^ 31 /\
  forall i b, bodylist (m_system n) !! i = Some b ->
    (identifier b < m_Id_g n <-> (i < Z.to_nat (m_particles_start_index n))%nat).

(** The node [nr] has the bodies of [nw], by identifier and position in the
    body list, and the same particle count and start index. *)
Definition same_particles (nw nr : TerrainNode) : Prop :=
  m_particles_start_index nr = m_particles_start_index nw /\
  m_num_particles nr = m_num_particles nw /\
  map identifier (bodylist (m_system nr)) = map identifier (bodylist (m_system nw)).

(** *** CalcBarycentricCoords *)





(** The members of a body that the kinematic setters leave alone. *)
Definition same_properties (b b' : ChBody) : Prop :=
  identifier b' = identifier b /\ mass b' = mass b /\
  inertiaXX b' = inertiaXX b /\ body_fixed b' = body_fixed b /\
  collide b' = collide b /\ material b' = material b /\ family b' = family b.

(** The frame output file: the time, the number of particles and their
    radius, and one line per particle with its identifier, position and
    linear velocity. *)
Record ParticleLine := mkPLine {
  pl_id : Z;
  pl_pos : ChVector;
  pl_pos_dt : ChVector
}.

Record ParticleFile := mkPFile {
  pf_time : Q;
  pf_num_particles : Z;
  pf_radius : Q;
  pf_lines : list ParticleLine
}.



(** The sum of the forces held by the map. *)
Definition total_force (my_map : gmap Z ChVector) : ChVector :=
  Vsum (map snd (map_to_list my_map)).

(** The state of vertex [iv] in a message of [num_vert] vertices: the
    positions come first, three scalars per vertex, and the velocities
    follow them. *)
Definition decoded_vertex (vert_data : list Q) (num_vert : nat) (iv : nat)
    (s : VertexState) : Prop :=
  vert_data !! (3 * iv)%nat = Some (vx (vs_pos s)) /\
  vert_data !! (3 * iv + 1)%nat = Some (vy (vs_pos s)) /\
  vert_data !! (3 * iv + 2)%nat = Some (vz (vs_pos s)) /\
  vert_data !! (3 * num_vert + 3 * iv)%nat = Some (vx (vs_vel s)) /\
  vert_data !! (3 * num_vert + 3 * iv + 1)%nat = Some (vy (vs_vel s)) /\
  vert_data !! (3 * num_vert + 3 * iv + 2)%nat = Some (vz (vs_vel s)).

(** Triangle [it] of a connectivity message. *)
Definition decoded_triangle (tri_data : list Z) (it : nat) (tri : Triangle) : Prop :=
  tri_data !! (3 * it)%nat = Some (v1 tri) /\
  tri_data !! (3 * it + 1)%nat = Some (v2 tri) /\
  tri_data !! (3 * it + 2)%nat = Some (v3 tri).

(** The body of a node proxy after [UpdateNodeProxies] has set it from the
    vertex state [s]. *)
Definition updated_node_body (s : VertexState) (body : ChBody) : ChBody :=
  SetRot_dt (mkQ 0 0 0 0)
    (SetRot (mkQ 1 0 0 0) (SetPos_dt (vs_vel s) (SetPos (vs_pos s) body))).

(** Vertex [iv] of the tire has its proxy set from its state: the body at
    the position of the vertex, with its velocity, the identity orientation
    and a zero quaternion rate. *)
Definition node_proxy_updated (n : TerrainNode) (t : TireData) (iv : nat) : Prop :=
  exists state proxy body,
    m_vertex_states t !! iv = Some state /\
    m_proxies t !! iv = Some proxy /\
    bodylist (m_system n) !! m_body proxy = Some body /\
    pos body = vs_pos state /\
    pos_dt body = vs_vel state /\
    rot body = QUNIT /\
    rot_dt body = QNULL.

Section TerrainNode.

Context {E : Engine}.
Variable cfg : Config.

(** *** Construct *)

(** The bodies of one generator call enter the system with consecutive
    identifiers, each with a spherical contact shape. *)
Definition add_particles (bodies : list ChBody) (acc : ChSystemParallel * Z)
    : ChSystemParallel * Z :=
  fold_left
    (fun (a : ChSystemParallel * Z) (b : ChBody) =>
       (AddSphereGeometry (m_radius_g cfg) VNULL
          (AddBody (SetIdentifier (snd a) b) (fst a)),
        snd a + 1))
    bodies acc.

(** One iteration of the layer loop: [createObjectsBox] at [center], then
    [center.z() += 2 * r]. *)
Definition generate_layer (r : Q) (hdims : ChVector)
    (acc : ChSystemParallel * Z * ChVector) : ChSystemParallel * Z * ChVector :=
  let center := snd acc in
  let bodies :=
    createObjectsBox (m_material_terrain cfg) (m_rho_g cfg) (m_radius_g cfg)
      (2 * r)%Q center hdims in
  (add_particles bodies (fst acc),
   mkV (vx center) (vy center) (vz center + 2 * r)%Q).

(** Estimates for number of bins for broad-phase. *)
Definition broadphase_bins (s : ChSystemParallel) : ChSystemParallel :=
  match m_type cfg with
  | GRANULAR =>
      let factor := 2 in
      let binsX := Z.quot (Qceiling (m_hdimX cfg / m_radius_g cfg)) factor in
      let binsY := Z.quot (Qceiling (m_hdimY cfg / m_radius_g cfg)) factor in
      let binsZ := 1 in
      set_bins_per_axis (binsX, binsY, binsZ) s
  | RIGID => s
  end.

(** Create the start platform body; its contact box is the first contact
    shape the node creates. *)
Definition create_platform (s : ChSystemParallel) : ChSystemParallel :=
  let platform := next_handle s in
  let s := AddBody NewBody s in
  let s := set_body platform (SetIdentifier (-2)) s in
  let s := set_body platform (SetMass 1000) s in
  let s := set_body platform (SetBodyFixed true) s in
  let s := set_body platform (SetCollide true) s in
  let s := set_body platform (SetMaterialSurface (Some (m_material_terrain cfg))) s in
  let hlenX := (m_hlenX cfg + m_hthick cfg)%Q in
  AddBoxGeometry
    (mkV hlenX (m_hdimY cfg) (m_hdimZ cfg + m_hthick cfg))
    (mkV (- hlenX - m_hdimX cfg) 0 (m_hdimZ cfg - m_hthick cfg)) s.

(** Create container body: a bottom box and three lateral boxes. *)
Definition create_container (s : ChSystemParallel) : ChSystemParallel :=
  let container := next_handle s in
  let s := AddBody NewBody s in
  let s := set_body container (SetIdentifier (-1)) s in
  let s := set_body container (SetMass 1000) s in
  let s := set_body container (SetBodyFixed true) s in
  let s := set_body container (SetCollide true) s in
  let s := set_body container (SetMaterialSurface (Some (m_material_terrain cfg))) s in
  let s :=
    AddBoxGeometry (mkV (m_hdimX cfg) (m_hdimY cfg) (m_hthick cfg))
      (mkV 0 0 (- m_hthick cfg)) s in
  let s :=
    AddBoxGeometry (mkV (m_hthick cfg) (m_hdimY cfg) (m_hdimZ cfg + m_hthick cfg))
      (mkV (m_hdimX cfg + m_hthick cfg) 0 (m_hdimZ cfg - m_hthick cfg)) s in
  let s :=
    AddBoxGeometry (mkV (m_hdimX cfg) (m_hthick cfg) (m_hdimZ cfg + m_hthick cfg))
      (mkV 0 (m_hdimY cfg + m_hthick cfg) (m_hdimZ cfg - m_hthick cfg)) s in
  AddBoxGeometry (mkV (m_hdimX cfg) (m_hthick cfg) (m_hdimZ cfg + m_hthick cfg))
    (mkV 0 (- m_hdimY cfg - m_hthick cfg) (m_hdimZ cfg - m_hthick cfg)) s.

(** Deactivation of the bodies that exit a box around the container. *)
Definition set_active_box (s : ChSystemParallel) : ChSystemParallel :=
  let hlenX := (m_hlenX cfg + m_hthick cfg)%Q in
  set_aabb
    (mkV (- m_hdimX cfg - m_hthick cfg - 2 * hlenX)%Q
         (- m_hdimY cfg - m_hthick cfg) (- m_hthick cfg))
    (mkV (m_hdimX cfg + m_hthick cfg) (m_hdimY cfg + m_hthick cfg)
         (2 * m_hdimZ cfg + 2)%Q) s.

(** With fixed proxies, the platform and (for rigid terrain) the container
    become free bodies welded to a ground body. *)
Definition weld_to_ground (platform container : nat) (s : ChSystemParallel)
    : ChSystemParallel :=
  if m_fixed_proxies cfg then
    let ground := next_handle s in
    let s :=
      AddBody (SetCollide false (SetBodyFixed true (SetIdentifier (-2) NewBody))) s in
    let s := set_body platform (SetBodyFixed false) s in
    let s := AddLink (ground, platform) s in
    match m_type cfg with
    | RIGID =>
        let s := set_body container (SetBodyFixed false) s in
        AddLink (ground, container) s
    | GRANULAR => s
    end
  else s.

(** Create particles in layers; the result is the system and the next
    body identifier of the generator. *)
Definition generate_particles (Id_g : Z) (s : ChSystemParallel)
    : ChSystemParallel * Z :=
  let r := ((101 # 100) * m_radius_g cfg)%Q in
  let hdims := mkV (m_hdimX cfg - r) (m_hdimY cfg - r) 0 in
  let center := mkV 0 0 (2 * r)%Q in
  fst (Nat.iter (Z.to_nat (m_num_layers cfg)) (generate_layer r hdims)
         ((s, Id_g), center)).

Definition Construct (n : TerrainNode) : TerrainNode :=
  if m_constructed n then n else
  let s := broadphase_bins (m_system n) in
  let platform := next_handle s in
  let s := create_platform s in
  let container := next_handle s in
  let s := create_container s in
  let s := set_active_box s in
  let s := weld_to_ground platform container s in
  (* Generate granular material. *)
  let Id_g := 100000 in
  let particles_start_index := num_rigid_bodies s in
  let generated :=
    match m_type cfg with
    | GRANULAR =>
        let g := generate_particles Id_g s in
        (fst g, u32 (snd g - Id_g))
    | RIGID => (s, m_num_particles n)
    end in
  let s := fst generated in
  let num_particles := snd generated in
  let proxy_start_index := num_rigid_shapes s in
  mkNode true num_particles particles_start_index proxy_start_index Id_g
    (m_init_height n) platform s (m_tire_data n) (mpi_sent n).

(** The platform, container and ground bodies once [Construct] has made
    its calls on them, and the bodies it adds before the particles. *)
Definition platform_body : ChBody :=
  SetMaterialSurface (Some (m_material_terrain cfg))
    (SetCollide true (SetBodyFixed true (SetMass 1000 (SetIdentifier (-2) NewBody)))).

Definition container_body : ChBody :=
  SetMaterialSurface (Some (m_material_terrain cfg))
    (SetCollide true (SetBodyFixed true (SetMass 1000 (SetIdentifier (-1) NewBody)))).

Definition ground_body : ChBody :=
  SetCollide false (SetBodyFixed true (SetIdentifier (-2) NewBody)).

Definition structural_bodies : list ChBody :=
  if m_fixed_proxies cfg then
    [SetBodyFixed false platform_body;
     match m_type cfg with
     | RIGID => SetBodyFixed false container_body
     | GRANULAR => container_body
     end;
     ground_body]
  else [platform_body; container_body].

(** What the generator does to the system, started with identifier [id]:
    bodies [ps] with consecutive identifiers are appended, and [r] holds
    the new system and the next identifier. *)
Definition particles_generated (id : Z) (s : ChSystemParallel)
    (r : ChSystemParallel * Z) : Prop :=
  exists ps,
    bodylist (fst r) = bodylist s ++ ps /\
    snd r = id + Z.of_nat (length ps) /\
    (forall k p, ps !! k = Some p -> identifier p = id + Z.of_nat k) /\
    box_like_rigid (fst r) = box_like_rigid s /\
    triangle_rigid (fst r) = triangle_rigid s /\
    exists l, ObA_rigid (fst r) = ObA_rigid s ++ l.

(** *** Settle *)

(** One iteration of the loop that reads the granular material state: the
    line for body [ib] is line [ib - start] of the body lines. *)
Definition read_body (file : CheckpointFile) (start ib : nat) (n : TerrainNode)
    : result TerrainNode :=
  let? line := ck_lines file !! (ib - start)%nat in
  let? body := bodylist (m_system n) !! ib in
  assert cfg (identifier body =? ck_id line) n >>= fun n =>
  with_proxy_body ib (SetPos (ck_pos line)) n >>= fun n =>
  with_proxy_body ib (SetRot (ck_rot line)) n >>= fun n =>
  with_proxy_body ib (SetPos_dt (ck_pos_dt line)) n >>= fun n =>
  with_proxy_body ib (SetRot_dt (ck_rot_dt line)) n.

(** The height of the granular material: the largest [z] among the bodies
    with a positive identifier, starting from 0. *)
Definition find_height (bodies : list ChBody) : Q :=
  fold_left
    (fun (h : Q) (body : ChBody) =>
       if (0 <? identifier body) && Qltb h (vz (pos body)) then vz (pos body) else h)
    bodies 0%Q.

Definition Settle (file : CheckpointFile) (n : TerrainNode) : result TerrainNode :=
  assert cfg (match m_type cfg with GRANULAR => true | RIGID => false end) n
  >>= fun n =>
  let n := Construct n in
  (if m_use_checkpoint cfg then
     (* Initialize granular terrain from checkpoint file. *)
     if negb (ck_num_particles file =? m_num_particles n) then Abort n
     else
       let start := to_int (m_particles_start_index n) in
       let size := length (bodylist (m_system n)) in
       if start <? 0 then Ok n
       else for_loop (size - Z.to_nat start) (Z.to_nat start)
              (read_body file (Z.to_nat start)) n
   else
     (* Simulate settling of granular terrain. *)
     let sim_steps := Qceiling (m_time_settling cfg / m_step_size cfg) in
     Ok (with_system
           (Nat.iter (Z.to_nat sim_steps) (DoStepDynamics (m_step_size cfg))) n))
  >>= fun n =>
  Ok (set_init_height (find_height (bodylist (m_system n)) + m_radius_g cfg) n).

(** *** Proxy bodies *)

(** One iteration of the loop of [CreateNodeProxies]. *)
Definition create_node_proxy (which iv : nat) (n : TerrainNode) : result TerrainNode :=
  let inertia_pN :=
    Vscale ((4 # 10) * m_mass_pN cfg * m_radius_pN cfg * m_radius_pN cfg)%Q
      (mkV 1 1 1) in
  let? t := m_tire_data n !! which in
  let mat := m_material_tire t in
  let body := next_handle (m_system n) in
  let n := with_system (AddBody NewBody) n in
  with_proxy_body body
    (SetIdentifier (to_int (u32 (m_start_vert t + Z.of_nat iv)))) n >>= fun n =>
  with_proxy_body body (SetMass (m_mass_pN cfg)) n >>= fun n =>
  with_proxy_body body (SetInertiaXX inertia_pN) n >>= fun n =>
  with_proxy_body body (SetBodyFixed (m_fixed_proxies cfg)) n >>= fun n =>
  with_proxy_body body (SetCollide true) n >>= fun n =>
  with_proxy_body body (SetMaterialSurface mat) n >>= fun n =>
  let n := with_system (AddSphereGeometry (m_radius_pN cfg) VNULL) n in
  with_proxy_body body (SetFamily 1) n >>= fun n =>
  with_tire which
    (fun t => set_proxies (m_proxies t ++ [mkProxy body (to_int (Z.of_nat iv))]) t) n.

Definition CreateNodeProxies (which : nat) (n : TerrainNode) : result TerrainNode :=
  let? t := m_tire_data n !! which in
  for_loop (Z.to_nat (m_num_vert t)) 0 (create_node_proxy which) n.

(** One iteration of the loop of [CreateFaceProxies]. *)
Definition create_face_proxy (which it : nat) (n : TerrainNode) : result TerrainNode :=
  let inertia_pF :=
    Vscale ((1 # 1000) * m_mass_pF cfg)%Q (mkV (1 # 10) (1 # 10) (1 # 10)) in
  let? t := m_tire_data n !! which in
  let mat := m_material_tire t in
  let body := NewBody in
  let body := SetIdentifier (to_int (u32 (m_start_tri t + Z.of_nat it))) body in
  let body := SetMass (m_mass_pF cfg) body in
  let body := SetInertiaXX inertia_pF body in
  let body := SetBodyFixed (m_fixed_proxies cfg) body in
  let body := SetCollide true body in
  let body := SetMaterialSurface mat body in
  let len : Q := 1 # 10 in
  let body := SetFamily 1 body in
  let handle := next_handle (m_system n) in
  with_tire which
    (fun t => set_proxies (m_proxies t ++ [mkProxy handle (to_int (Z.of_nat it))]) t) n
  >>= fun n =>
  Ok (with_system
        (fun s => AddTriangle (mkV len 0 0) (mkV 0 len 0) (mkV 0 0 len) (AddBody body s))
        n).

Definition CreateFaceProxies (which : nat) (n : TerrainNode) : result TerrainNode :=
  let? t := m_tire_data n !! which in
  for_loop (Z.to_nat (m_num_tri t)) 0 (create_face_proxy which) n.

(** The body of the proxy of vertex [iv] of a tire with data [t], once
    [create_node_proxy] has made all its calls on it. *)
Definition node_proxy_body (t : TireData) (iv : nat) : ChBody :=
  SetFamily 1
    (SetMaterialSurface (m_material_tire t)
       (SetCollide true
          (SetBodyFixed (m_fixed_proxies cfg)
             (SetInertiaXX
                (Vscale ((4 # 10) * m_mass_pN cfg * m_radius_pN cfg * m_radius_pN cfg)%Q
                   (mkV 1 1 1))
                (SetMass (m_mass_pN cfg)
                   (SetIdentifier (to_int (u32 (m_start_vert t + Z.of_nat iv)))
                      NewBody)))))).

(** The body of the proxy of triangle [it] of a tire with data [t]. *)
Definition face_proxy_body (t : TireData) (it : nat) : ChBody :=
  SetFamily 1
    (SetMaterialSurface (m_material_tire t)
       (SetCollide true
          (SetBodyFixed (m_fixed_proxies cfg)
             (SetInertiaXX
                (Vscale ((1 # 1000) * m_mass_pF cfg)%Q (mkV (1 # 10) (1 # 10) (1 # 10)))
                (SetMass (m_mass_pF cfg)
                   (SetIdentifier (to_int (u32 (m_start_tri t + Z.of_nat it)))
                      NewBody)))))).

(** The proxies [count] iterations append to [m_proxies], when the first
    body they create gets handle [h0]. *)
Definition new_proxies (h0 count : nat) : list ProxyBody :=
  map (fun j => mkProxy (h0 + j) (to_int (Z.of_nat j))) (seq 0 count).

(** What creating the proxies of tire [which] does to the node: [count]
    proxies appended to the tire, their bodies [mk 0 .. mk (count-1)]
    appended to the body list, [3 * tris] entries appended to the
    triangle array. *)
Definition proxies_created (which : nat) (t : TireData) (mk : nat -> ChBody)
    (count tris : nat) (n n' : TerrainNode) : Prop :=
  m_tire_data n' =
    <[which := set_proxies
                 (m_proxies t ++ new_proxies (next_handle (m_system n)) count) t]>
      (m_tire_data n) /\
  bodylist (m_system n') = bodylist (m_system n) ++ map mk (seq 0 count) /\
  length (triangle_rigid (m_system n'))
    = (length (triangle_rigid (m_system n)) + 3 * tris)%nat /\
  (forall i, (i < length (triangle_rigid (m_system n)))%nat ->
     triangle_rigid (m_system n') !! i = triangle_rigid (m_system n) !! i) /\
  mpi_sent n' = mpi_sent n.

(** *** Initialize *)

(** The contact material of a tire, from the eight floats it sends. *)
Definition tire_material (mat_props : list Q) : ChMaterialSurface :=
  let p := fun k => nth k mat_props 0%Q in
  match m_method cfg with
  | SMC => ChMaterialSurfaceSMC (p 0%nat) (p 1%nat) (p 2%nat) (p 3%nat)
             (p 4%nat) (p 5%nat) (p 6%nat) (p 7%nat)
  | NSC => ChMaterialSurfaceNSC (p 0%nat) (p 1%nat)
  end.

(** One iteration of the loop over the tires.  The state of the loop is
    the node and the two running offsets [start_vert_index] and
    [start_tri_index]; [surf_props] and [mat_props] are what the two
    [MPI_Recv] calls deliver for tire [which]. *)
Definition handshake (surf_props : nat -> Z * Z) (mat_props : nat -> list Q)
    (which : nat) (st : TerrainNode * (Z * Z)) : result (TerrainNode * (Z * Z)) :=
  let n := fst st in
  let start_vert_index := fst (snd st) in
  let start_tri_index := snd (snd st) in
  let num_vert := fst (surf_props which) in
  let num_tri := snd (surf_props which) in
  let? t := m_tire_data n !! which in
  let t :=
    mkTire (m_proxies t)
      (resize (Z.to_nat num_vert) (mkVS VNULL VNULL) (m_vertex_states t))
      (resize (Z.to_nat num_tri) (mkTri 0 0 0) (m_triangles t))
      num_vert num_tri start_vert_index start_tri_index
      (Some (tire_material (mat_props which))) in
  let n := set_tire_data (<[which := t]> (m_tire_data n)) n in
  let start_vert_index := u32 (start_vert_index + num_vert) in
  let start_tri_index := u32 (start_tri_index + num_tri) in
  match
    match m_type cfg with
    | RIGID => CreateNodeProxies which n
    | GRANULAR => CreateFaceProxies which n
    end
  with
  | Ok n => Ok (n, (start_vert_index, start_tri_index))
  | Abort n => Abort (n, (start_vert_index, start_tri_index))
  | Stuck => Stuck
  end.

(** The platform box (the first contact shape) gets its top surface at
    [m_init_height]. *)
Definition adjust_platform (n : TerrainNode) : result TerrainNode :=
  let s := m_system n in
  let? box_pos := ObA_rigid s !! O in
  let? box_hdims := box_like_rigid s !! O in
  let zmin := (vz box_pos - vz box_hdims)%Q in
  let zmax := m_init_height n in
  let height := (zmax - zmin)%Q in
  let box_pos := mkV (vx box_pos) (vy box_pos) (zmin + height / 2) in
  let box_hdims := mkV (vx box_hdims) (vy box_hdims) (height / 2) in
  Ok (set_system
        (mkSys (bodylist s) (linklist s) (ChTime s) (<[O := box_pos]> (ObA_rigid s))
           (<[O := box_hdims]> (box_like_rigid s)) (sphere_rigid s)
           (triangle_rigid s) (bins_per_axis s) (use_aabb_active s)
           (aabb_min s) (aabb_max s)) n).

Definition Initialize (surf_props : nat -> Z * Z) (mat_props : nat -> list Q)
    (n : TerrainNode) : result TerrainNode :=
  let n := Construct n in
  let n := with_system (SetChTime 0) n in
  let init_dim := [m_init_height n; (m_hdimX cfg + 2 * m_hlenX cfg)%Q] in
  let n := MPI_Send (mkMsg (VEHICLE_NODE_RANK cfg) 0 (MPI_DOUBLE init_dim)) n in
  adjust_platform n >>= fun n =>
  match
    for_loop (Z.to_nat (m_num_tires cfg)) 0 (handshake surf_props mat_props)
      (n, (0, 0))
  with
  | Ok st => Ok (fst st)
  | Abort st => Abort (fst st)
  | Stuck => Stuck
  end.

(** The number of proxies and of triangle shapes the handshake of tire
    [which] creates, and the body of its proxy [j]. *)
Definition proxy_count (surf_props : nat -> Z * Z) (which : nat) : nat :=
  Z.to_nat
    match m_type cfg with
    | RIGID => fst (surf_props which)
    | GRANULAR => snd (surf_props which)
    end.

Definition proxy_body (t : TireData) (j : nat) : ChBody :=
  match m_type cfg with
  | RIGID => node_proxy_body t j
  | GRANULAR => face_proxy_body t j
  end.

Definition triangles_count (surf_props : nat -> Z * Z) (which : nat) : nat :=
  match m_type cfg with
  | RIGID => O
  | GRANULAR => Z.to_nat (snd (surf_props which))
  end.

(** The data of tire [which] after its handshake, when it was [t0] before
    and the first proxy body gets handle [h0]. *)
Definition tire_after_handshake (surf_props : nat -> Z * Z)
    (mat_props : nat -> list Q) (h0 which : nat) (t0 : TireData) : TireData :=
  mkTire
    (m_proxies t0 ++ new_proxies h0 (proxy_count surf_props which))
    (resize (Z.to_nat (fst (surf_props which))) (mkVS VNULL VNULL) (m_vertex_states t0))
    (resize (Z.to_nat (snd (surf_props which))) (mkTri 0 0 0) (m_triangles t0))
    (fst (surf_props which)) (snd (surf_props which))
    (u32 (prefix_sum (fun i => fst (surf_props i)) which))
    (u32 (prefix_sum (fun i => snd (surf_props i)) which))
    (Some (tire_material (mat_props which))).

(** The node [n] after the handshakes of tires [0 .. k-1], started from
    [n0]. *)
Definition handshaken (surf_props : nat -> Z * Z) (mat_props : nat -> list Q)
    (n0 : TerrainNode) (k : nat) (n : TerrainNode) : Prop :=
  let B0 := length (bodylist (m_system n0)) in
  let P := prefix_count (proxy_count surf_props) in
  length (m_tire_data n) = length (m_tire_data n0) /\
  (forall i t0, m_tire_data n0 !! i = Some t0 ->
     m_tire_data n !! i =
       Some (if decide (i < k)%nat
             then tire_after_handshake surf_props mat_props (B0 + P i) i t0
             else t0)) /\
  length (bodylist (m_system n)) = (B0 + P k)%nat /\
  (forall h, (h < B0)%nat ->
     bodylist (m_system n) !! h = bodylist (m_system n0) !! h) /\
  (forall i j t, (i < k)%nat -> (j < proxy_count surf_props i)%nat ->
     m_tire_data n !! i = Some t ->
     bodylist (m_system n) !! (B0 + P i + j)%nat = Some (proxy_body t j)) /\
  length (triangle_rigid (m_system n))
    = (length (triangle_rigid (m_system n0))
       + 3 * prefix_count (triangles_count surf_props) k)%nat /\
  mpi_sent n = mpi_sent n0.

(** The number of mesh elements of a tire that get a proxy, and the start
    of their global indices: vertices for rigid terrain, triangles for
    granular terrain. *)
Definition elements_count (t : TireData) : Z :=
  match m_type cfg with
  | RIGID => m_num_vert t
  | GRANULAR => m_num_tri t
  end.

Definition elements_start (t : TireData) : Z :=
  match m_type cfg with
  | RIGID => m_start_vert t
  | GRANULAR => m_start_tri t
  end.

(** The offset table of the first [N] tires of [n], for the counts
    [surf_props]: every tire has its counts, the first tire starts at [0],
    and each next tire starts where [next] puts it after the previous
    one. *)
Definition offset_table (next : Z -> Z -> Z) (surf_props : nat -> Z * Z) (N : nat)
    (n : TerrainNode) : Prop :=
  forall i, (i < N)%nat ->
    exists t,
      m_tire_data n !! i = Some t /\
      m_num_vert t = fst (surf_props i) /\
      m_num_tri t = snd (surf_props i) /\
      (i = O -> m_start_vert t = 0 /\ m_start_tri t = 0) /\
      forall t', (Datatypes.S i < N)%nat ->
        m_tire_data n !! Datatypes.S i = Some t' ->
        m_start_vert t' = next (m_start_vert t) (m_num_vert t) /\
        m_start_tri t' = next (m_start_tri t) (m_num_tri t).

(** The counts are those of [unsigned int] values whose sums over all the
    tires fit an [unsigned int]. *)
Definition counts_fit (surf_props : nat -> Z * Z) (N : nat) : Prop :=
  (forall i, 0 <= fst (surf_props i) /\ 0 <= snd (surf_props i)) /\
  prefix_sum (fun i => fst (surf_props i)) N < u32_modulus /\
  prefix_sum (fun i => snd (surf_props i)) N < u32_modulus.

(** Each of the first [N] tires of [n] has one proxy per mesh element; the
    proxy of local element [j] carries the local index [j] and points to a
    body of the system whose identifier is related by [ident] to the global
    index of the element. *)
Definition one_proxy_per_element (ident : Z -> Z -> Prop) (N : nat)
    (n : TerrainNode) : Prop :=
  forall i, (i < N)%nat ->
    exists t,
      m_tire_data n !! i = Some t /\
      length (m_proxies t) = Z.to_nat (elements_count t) /\
      forall j, (j < Z.to_nat (elements_count t))%nat ->
        exists p b,
          m_proxies t !! j = Some p /\
          bodylist (m_system n) !! m_body p = Some b /\
          m_index p = to_int (Z.of_nat j) /\
          ident (identifier b) (elements_start t + Z.of_nat j).

(** No body is the proxy of two elements. *)
Definition proxy_bodies_distinct (N : nat) (n : TerrainNode) : Prop :=
  forall i i' j j' t t' p p',
    (i < N)%nat -> (i' < N)%nat ->
    m_tire_data n !! i = Some t -> m_tire_data n !! i' = Some t' ->
    m_proxies t !! j = Some p -> m_proxies t' !! j' = Some p' ->
    m_body p = m_body p' -> i = i' /\ j = j'.

(** *** Synchronize *)

(** One iteration of the loop that stores the vertex states of a tire:
    [vert_data] holds the positions and then the velocities. *)
Definition store_vertex (which : nat) (num_vert : Z) (vert_data : list Q)
    (iv : nat) (n : TerrainNode) : result TerrainNode :=
  let at_ := fun i : Z => vert_data !! Z.to_nat (u32 i) in
  let offset := u32 (3 * Z.of_nat iv) in
  let? px := at_ (offset + 0) in
  let? py := at_ (offset + 1) in
  let? pz := at_ (offset + 2) in
  let offset := u32 (offset + u32 (3 * num_vert)) in
  let? wx := at_ (offset + 0) in
  let? wy := at_ (offset + 1) in
  let? wz := at_ (offset + 2) in
  let? t := m_tire_data n !! which in
  let? states := list_set (m_vertex_states t) iv (mkVS (mkV px py pz) (mkV wx wy wz)) in
  with_tire which (set_vertex_states states) n.

(** One iteration of the loop that stores the connectivity of a tire. *)
Definition store_triangle (which : nat) (tri_data : list Z) (it : nat)
    (n : TerrainNode) : result TerrainNode :=
  let at_ := fun i : Z => tri_data !! Z.to_nat (u32 i) in
  let? a := at_ (3 * Z.of_nat it + 0) in
  let? b := at_ (3 * Z.of_nat it + 1) in
  let? c := at_ (3 * Z.of_nat it + 2) in
  let? t := m_tire_data n !! which in
  let? tris := list_set (m_triangles t) it (mkTri a b c) in
  with_tire which (set_triangles tris) n.

(** One iteration of the loop of [UpdateNodeProxies]. *)
Definition update_node_proxy (which iv : nat) (n : TerrainNode) : result TerrainNode :=
  let? t := m_tire_data n !! which in
  let? proxy := m_proxies t !! iv in
  let? state := m_vertex_states t !! iv in
  with_proxy_body (m_body proxy) (SetPos (vs_pos state)) n >>= fun n =>
  with_proxy_body (m_body proxy) (SetPos_dt (vs_vel state)) n >>= fun n =>
  with_proxy_body (m_body proxy) (SetRot (mkQ 1 0 0 0)) n >>= fun n =>
  with_proxy_body (m_body proxy) (SetRot_dt (mkQ 0 0 0 0)) n.

Definition UpdateNodeProxies (which : nat) (n : TerrainNode) : result TerrainNode :=
  let? t := m_tire_data n !! which in
  for_loop (Z.to_nat (m_num_vert t)) 0 (update_node_proxy which) n.

(** [v[i]] for an [int] index [i] of a [std::vector]. *)
Definition at_int {A : Type} (l : list A) (i : Z) : option A :=
  if i <? 0 then None else l !! Z.to_nat i.

(** [shape_data[i] = x] on the triangle array of the data manager. *)
Definition set_shape (i : Z) (x : real3) (n : TerrainNode) : result TerrainNode :=
  let? l := list_set (triangle_rigid (m_system n)) (Z.to_nat i) x in
  Ok (with_system (set_triangle_rigid l) n).

(** One iteration of the loop of [UpdateFaceProxies]. *)
Definition update_face_proxy (which it : nat) (n : TerrainNode) : result TerrainNode :=
  let? t := m_tire_data n !! which in
  let? tri := m_triangles t !! it in
  (* Vertex locations (expressed in global frame) *)
  let? sA := at_int (m_vertex_states t) (v1 tri) in
  let? sB := at_int (m_vertex_states t) (v2 tri) in
  let? sC := at_int (m_vertex_states t) (v3 tri) in
  let pA := vs_pos sA in
  let pB := vs_pos sB in
  let pC := vs_pos sC in
  (* Position and orientation of proxy body *)
  let p := Vdiv (Vadd (Vadd pA pB) pC) 3 in
  let? proxy := m_proxies t !! it in
  with_proxy_body (m_body proxy) (SetPos p) n >>= fun n =>
  with_proxy_body (m_body proxy) (SetRot (mkQ 1 0 0 0)) n >>= fun n =>
  (* Velocity (absolute) and angular velocity (local) *)
  let vA := vs_vel sA in
  let vB := vs_vel sB in
  let vC := vs_vel sC in
  let vel := Vdiv (Vadd (Vadd vA vB) vC) 3 in
  with_proxy_body (m_body proxy) (SetPos_dt vel) n >>= fun n =>
  with_proxy_body (m_body proxy) (SetWvel_loc (mkV 0 0 0)) n >>= fun n =>
  (* Update triangle contact shape (expressed in local frame) *)
  let offset := u32 (u32 (3 * m_start_tri t) + u32 (3 * Z.of_nat it)) in
  set_shape (u32 (offset + 0)) (Vsub pA p) n >>= fun n =>
  set_shape (u32 (offset + 1)) (Vsub pB p) n >>= fun n =>
  set_shape (u32 (offset + 2)) (Vsub pC p) n.

Definition UpdateFaceProxies (which : nat) (n : TerrainNode) : result TerrainNode :=
  let? t := m_tire_data n !! which in
  for_loop (Z.to_nat (m_num_tri t)) 0 (update_face_proxy which) n.

(** One iteration of the loop of [ForcesNodeProxies]; the state of the
    loop is the pair of output vectors. *)
Definition force_node_proxy (which : nat) (n : TerrainNode) (iv : nat)
    (out : list Q * list Z) : result (list Q * list Z) :=
  let vert_forces := fst out in
  let vert_indices := snd out in
  let? t := m_tire_data n !! which in
  let? proxy := m_proxies t !! iv in
  let force := GetBodyContactForce (m_system n) (m_body proxy) in
  if negb (IsZero force) then
    Ok (vert_forces ++ [vx force; vy force; vz force],
        vert_indices ++ [m_index proxy])
  else Ok (vert_forces, vert_indices).

Definition ForcesNodeProxies (which : nat) (n : TerrainNode)
    (out : list Q * list Z) : result (list Q * list Z) :=
  let? t := m_tire_data n !! which in
  for_loop (Z.to_nat (m_num_vert t)) 0 (force_node_proxy which n) out.

(** [my_map[v] += force] when [v] is in the map, [my_map[v] = force]
    otherwise. *)
Definition add_force (v : Z) (force : ChVector) (my_map : gmap Z ChVector)
    : gmap Z ChVector :=
  match my_map !! v with
  | Some f => <[v := Vadd f force]> my_map
  | None => <[v := force]> my_map
  end.

(** One iteration of the first loop of [ForcesFaceProxies]. *)
Definition force_face_proxy (which : nat) (n : TerrainNode) (it : nat)
    (my_map : gmap Z ChVector) : result (gmap Z ChVector) :=
  let? t := m_tire_data n !! which in
  let? tri := m_triangles t !! it in
  let? proxy := m_proxies t !! it in
  let rforce := GetBodyContactForce (m_system n) (m_body proxy) in
  if IsZero rforce then Ok my_map
  else
    let force := mkV (vx rforce / 3) (vy rforce / 3) (vz rforce / 3) in
    Ok (add_force (v3 tri) force (add_force (v2 tri) force (add_force (v1 tri) force my_map))).

(** The map after the first loop of [ForcesFaceProxies]. *)
Definition face_force_map (which : nat) (n : TerrainNode) : result (gmap Z ChVector) :=
  let? t := m_tire_data n !! which in
  for_loop (Z.to_nat (m_num_tri t)) 0 (force_face_proxy which n) ∅.

(** The second loop of [ForcesFaceProxies] walks the map; the order of
    [map_to_list] stands for the iteration order of the
    [std::unordered_map], which the C++ standard leaves open. *)
Definition load_output (my_map : gmap Z ChVector) (out : list Q * list Z)
    : list Q * list Z :=
  fold_left
    (fun (o : list Q * list Z) (kv : Z * ChVector) =>
       (fst o ++ [vx (snd kv); vy (snd kv); vz (snd kv)], snd o ++ [fst kv]))
    (map_to_list my_map) out.

Definition ForcesFaceProxies (which : nat) (n : TerrainNode)
    (out : list Q * list Z) : result (list Q * list Z) :=
  match face_force_map which n with
  | Ok my_map => Ok (load_output my_map out)
  | Abort my_map => Abort (load_output my_map out)
  | Stuck => Stuck
  end.

(** One iteration of the first loop of [Synchronize].  The arguments
    [vert_data which] and [tri_data which] are the messages of tire
    [which]; the buffers allocated with [new double[2 * 3 * num_vert]] and
    [new int[3 * num_tri]] hold as much of them as fits. *)
Definition receive_tire (vert_data : nat -> list Q) (tri_data : nat -> list Z)
    (which : nat) (n : TerrainNode) : result TerrainNode :=
  let? t := m_tire_data n !! which in
  let num_vert := m_num_vert t in
  let num_tri := m_num_tri t in
  let vert_data := take (Z.to_nat (u32 (2 * 3 * num_vert))) (vert_data which) in
  let tri_data := take (Z.to_nat (u32 (3 * num_tri))) (tri_data which) in
  for_loop (Z.to_nat num_vert) 0 (store_vertex which num_vert vert_data) n
  >>= fun n =>
  for_loop (Z.to_nat num_tri) 0 (store_triangle which tri_data) n
  >>= fun n =>
  match m_type cfg with
  | RIGID => UpdateNodeProxies which n
  | GRANULAR => UpdateFaceProxies which n
  end.

(** The vectors [vert_forces] and [vert_indices] of one iteration of the
    second loop of [Synchronize], before they are sent. *)
Definition collect_forces (step_number : Z) (which : nat) (n : TerrainNode)
    : result (list Q * list Z) :=
  if 0 <? step_number then
    match m_type cfg with
    | RIGID => ForcesNodeProxies which n ([], [])
    | GRANULAR => ForcesFaceProxies which n ([], [])
    end
  else Ok ([], []).

(** One iteration of the second loop of [Synchronize]: [num_vert] indices
    and [3 * num_vert] forces are sent, with the step number as tag. *)
Definition send_forces (step_number : Z) (which : nat) (n : TerrainNode)
    : result TerrainNode :=
  match collect_forces step_number which n with
  | Ok out =>
      let vert_forces := fst out in
      let vert_indices := snd out in
      let num_vert := to_int (Z.of_nat (length vert_indices)) in
      let rank := TIRE_NODE_RANK cfg (Z.of_nat which) in
      let n :=
        MPI_Send
          (mkMsg rank step_number (MPI_INT (take (Z.to_nat num_vert) vert_indices)))
          n in
      Ok (MPI_Send
            (mkMsg rank step_number
               (MPI_DOUBLE (take (Z.to_nat (3 * num_vert)) vert_forces)))
            n)
  | Abort _ => Abort n
  | Stuck => Stuck
  end.

Definition Synchronize (step_number : Z) (time : Q)
    (vert_data : nat -> list Q) (tri_data : nat -> list Z) (n : TerrainNode)
    : result TerrainNode :=
  for_loop (Z.to_nat (m_num_tires cfg)) 0 (receive_tire vert_data tri_data) n
  >>= fun n =>
  let n := with_system CalculateContactForces n in
  for_loop (Z.to_nat (m_num_tires cfg)) 0 (send_forces step_number) n.

(** What a call that only touches vertex states, triangles, bodies and
    shapes leaves alone. *)
Definition tires_kept (n n' : TerrainNode) : Prop :=
  mpi_sent n' = mpi_sent n /\
  length (m_tire_data n') = length (m_tire_data n) /\
  forall i t, m_tire_data n !! i = Some t ->
    exists t', m_tire_data n' !! i = Some t' /\
      m_proxies t' = m_proxies t /\
      m_num_vert t' = m_num_vert t /\ m_num_tri t' = m_num_tri t /\
      m_start_vert t' = m_start_vert t /\ m_start_tri t' = m_start_tri t.

(** The two messages [Synchronize] sends to tire [which]. *)
Definition force_messages (step_number : Z) (which : nat) (vert_indices : list Z)
    (vert_forces : list Q) : list MPI_message :=
  [mkMsg (TIRE_NODE_RANK cfg (Z.of_nat which)) step_number (MPI_INT vert_indices);
   mkMsg (TIRE_NODE_RANK cfg (Z.of_nat which)) step_number (MPI_DOUBLE vert_forces)].

(** The contact force on the proxy at position [j] of the tire, the
    positions below [count] whose proxy has a nonzero force, and the
    vectors of indices and forces built from them. *)
Definition proxy_force (n : TerrainNode) (t : TireData) (j : nat) : real3 :=
  match m_proxies t !! j with
  | Some p => GetBodyContactForce (m_system n) (m_body p)
  | None => VNULL
  end.

Definition contacting (n : TerrainNode) (t : TireData) (count : nat) : list nat :=
  List.filter (fun j => negb (IsZero (proxy_force n t j))) (seq 0 count).

Definition reported_indices (n : TerrainNode) (which : nat) : list Z :=
  match m_tire_data n !! which with
  | Some t => map Z.of_nat (contacting n t (Z.to_nat (m_num_vert t)))
  | None => []
  end.

Definition reported_forces (n : TerrainNode) (which : nat) : list Q :=
  match m_tire_data n !! which with
  | Some t =>
      flat_map (fun j => force_components (proxy_force n t j))
        (contacting n t (Z.to_nat (m_num_vert t)))
  | None => []
  end.

(** The proxies of the tire carry their position in [m_proxies] as index,
    as [CreateNodeProxies] and [CreateFaceProxies] leave them. *)
Definition proxies_indexed (t : TireData) (count : nat) : Prop :=
  forall j, (j < count)%nat ->
    exists p, m_proxies t !! j = Some p /\ m_index p = to_int (Z.of_nat j).

(** The shares of vertex [v] in the forces of the triangles below [count]:
    a triangle whose proxy has a zero force gives none, any other triangle
    gives a third of its force for each of its corners that is [v]. *)
Definition contributions (n : TerrainNode) (t : TireData) (count : nat) (v : Z)
    : list ChVector :=
  flat_map
    (fun it =>
       match m_triangles t !! it with
       | Some tri =>
           if IsZero (proxy_force n t it) then []
           else corner_shares tri (third (proxy_force n t it)) v
       | None => []
       end)
    (seq 0 count).

(** The position in the triangle array of corner [k] of the contact shape
    of triangle [it] of a tire, as [UpdateFaceProxies] computes it. *)
Definition shape_slot (t : TireData) (it : nat) (k : Z) : nat :=
  Z.to_nat (u32 (u32 (u32 (3 * m_start_tri t) + u32 (3 * Z.of_nat it)) + k)).

(** The body of a face proxy after [UpdateFaceProxies] has set it from the
    vertex states [sA], [sB], [sC]. *)
Definition updated_face_body (sA sB sC : VertexState) (body : ChBody) : ChBody :=
  SetWvel_loc (mkV 0 0 0)
    (SetPos_dt (Vdiv (Vadd (Vadd (vs_vel sA) (vs_vel sB)) (vs_vel sC)) 3)
       (SetRot (mkQ 1 0 0 0)
          (SetPos (Vdiv (Vadd (Vadd (vs_pos sA) (vs_pos sB)) (vs_pos sC)) 3) body))).

(** Triangle [it] of the tire has its proxy set from its three vertices:
    the body at the centroid, with identity orientation, the mean of the
    three velocities and zero angular velocity, and the three corners of
    the contact shape at the vertex positions relative to the centroid. *)
Definition face_proxy_updated (n : TerrainNode) (t : TireData) (it : nat) : Prop :=
  exists tri sA sB sC proxy body,
    m_triangles t !! it = Some tri /\
    at_int (m_vertex_states t) (v1 tri) = Some sA /\
    at_int (m_vertex_states t) (v2 tri) = Some sB /\
    at_int (m_vertex_states t) (v3 tri) = Some sC /\
    m_proxies t !! it = Some proxy /\
    bodylist (m_system n) !! m_body proxy = Some body /\
    let centroid := Vdiv (Vadd (Vadd (vs_pos sA) (vs_pos sB)) (vs_pos sC)) 3 in
    pos body = centroid /\
    rot body = QUNIT /\
    pos_dt body = Vdiv (Vadd (Vadd (vs_vel sA) (vs_vel sB)) (vs_vel sC)) 3 /\
    wvel_loc body = VNULL /\
    triangle_rigid (m_system n) !! shape_slot t it 0 = Some (Vsub (vs_pos sA) centroid) /\
    triangle_rigid (m_system n) !! shape_slot t it 1 = Some (Vsub (vs_pos sB) centroid) /\
    triangle_rigid (m_system n) !! shape_slot t it 2 = Some (Vsub (vs_pos sC) centroid).

(** No two proxies of the tire share a body. *)
Definition proxy_handles_distinct (t : TireData) : Prop :=
  forall j j' p p',
    m_proxies t !! j = Some p -> m_proxies t !! j' = Some p' ->
    m_body p = m_body p' -> j = j'.

(** *** Advance *)

(** The loop of [Advance], from time [t] of the macro step.  The result is
    the system after the loop and the arguments of the calls of
    [DoStepDynamics] in order; [None] when [fuel] iterations do not reach
    the end of the loop. *)
Fixpoint Advance_loop (fuel : nat) (step_size t : Q) (s : ChSystemParallel)
    : option (ChSystemParallel * list Q) :=
  if Qltb t step_size then
    match fuel with
    | O => None
    | S fuel' =>
        let h := std_min (m_step_size cfg) (step_size - t) in
        match Advance_loop fuel' step_size (t + h) (DoStepDynamics h s) with
        | Some r => Some (fst r, h :: snd r)
        | None => None
        end
    end
  else Some (s, []).

Definition Advance (fuel : nat) (step_size : Q) (n : TerrainNode)
    : option TerrainNode :=
  match Advance_loop fuel step_size 0 (m_system n) with
  | Some r => Some (set_system (fst r) n)
  | None => None
  end.

(** The system after the calls [DoStepDynamics(h)] for [h] in [hs]. *)
Definition run_steps (hs : list Q) (s : ChSystemParallel) : ChSystemParallel :=
  fold_left (fun s h => DoStepDynamics h s) hs s.

(** A number of iterations that is enough for a macro step. *)
Definition Advance_fuel (step_size : Q) : nat :=
  Z.to_nat (Qceiling (step_size / m_step_size cfg)).

(** *** WriteCheckpoint *)

Definition csv_vector (v : ChVector) : ChVector :=
  mkV (csv_double (vx v)) (csv_double (vy v)) (csv_double (vz v)).

Definition csv_quaternion (q : ChQuaternion) : ChQuaternion :=
  mkQ (csv_double (e0 q)) (csv_double (e1 q)) (csv_double (e2 q))
    (csv_double (e3 q)).

(** The line written for a body. *)
Definition checkpoint_line (body : ChBody) : CheckpointLine :=
  mkLine (identifier body) (csv_vector (pos body)) (csv_quaternion (rot body))
    (csv_vector (pos_dt body)) (csv_quaternion (rot_dt body)).

(** The content of the file [WriteCheckpoint] writes. *)
Definition WriteCheckpoint (n : TerrainNode) : CheckpointFile :=
  mkFile (csv_double (ChTime (m_system n))) (m_num_particles n)
    (flat_map
       (fun body =>
          if identifier body <? m_Id_g n then [] else [checkpoint_line body])
       (bodylist (m_system n))).

(** The state of body [b'] is the state written for [bw], as the text of
    the file gives it back. *)
Definition restored_from (bw b' : ChBody) : Prop :=
  identifier b' = identifier bw /\
  pos b' = csv_vector (pos bw) /\
  rot b' = csv_quaternion (rot bw) /\
  pos_dt b' = csv_vector (pos_dt bw) /\
  rot_dt b' = csv_quaternion (rot_dt bw).

(** The body list after the loop of [Settle] has read the lines of
    [file] for the bodies from position [start] up to (excluding) [ib]. *)
Definition bodies_read (file : CheckpointFile) (start ib : nat)
    (bodies bl : list ChBody) : Prop :=
  length bl = length bodies /\
  forall i br, bodies !! i = Some br ->
    bl !! i =
      Some (if decide (start <= i < ib)%nat
            then match ck_lines file !! (i - start)%nat with
                 | Some line => restore_body line br
                 | None => br
                 end
            else br).

(** *** WriteParticleInformation *)

Definition WriteParticleInformation (n : TerrainNode) : ParticleFile :=
  mkPFile (csv_double (ChTime (m_system n))) (m_num_particles n)
    (csv_double (m_radius_g cfg))
    (flat_map
       (fun body =>
          if identifier body <? m_Id_g n then []
          else [mkPLine (identifier body) (csv_vector (pos body))
                  (csv_vector (pos_dt body))])
       (bodylist (m_system n))).

End TerrainNode.

(** ** An engine and a configuration to run the model on

    Contact forces push a body up by its depth below [z = 0]; a step of the
    dynamics only advances the clock; every generator call makes two bodies;
    doubles are printed and read back without loss. *)

Definition IsZero_exact (f : real3) : bool :=
  Qeq_bool (vx f) 0 && Qeq_bool (vy f) 0 && Qeq_bool (vz f) 0.

Definition depth_force (s : ChSystemParallel) (h : nat) : real3 :=
  match bodylist s !! h with
  | Some b => if Qltb (vz (pos b)) 0 then mkV 0 0 (- vz (pos b)) else VNULL
  | None => VNULL
  end.

Definition two_particles (mat : ChMaterialSurface) (rho size dist : Q)
    (center hdims : ChVector) : list ChBody :=
  [SetPos center (SetMaterialSurface (Some mat) (SetMass rho NewBody));
   SetPos (Vadd center (mkV dist 0 0))
     (SetMaterialSurface (Some mat) (SetMass rho NewBody))].

Definition sample_engine : Engine :=
  {| IsZero := IsZero_exact;
     GetBodyContactForce := depth_force;
     CalculateContactForces := fun s => s;
     DoStepDynamics := fun h s => SetChTime (ChTime s + h) s;
     createObjectsBox := two_particles;
     csv_double := fun x => x |}.

Definition sample_material : ChMaterialSurface :=
  ChMaterialSurfaceSMC (9 # 10) 0 (2 # 1) (3 # 10) 0 0 0 0.

Definition sample_config (type : TerrainType) (num_tires : Z) (use_checkpoint : bool)
    : Config :=
  mkConfig type SMC num_tires use_checkpoint (3 # 10) 0 1 (1 # 4) (1 # 2) (1 # 10)
    (1 # 100) 2000 2 (4 # 10) false 1 (1 # 100) 1 sample_material 0
    (fun i => i + 2) false.

(** A granular terrain of 240 layers, read from a checkpoint. *)
Definition checkpoint_config : Config :=
  mkConfig GRANULAR SMC 1 true (3 # 10) 0 1 (1 # 4) (1 # 2) (1 # 10)
    (1 # 100) 2000 240 (4 # 10) false 1 (1 # 100) 1 sample_material 0
    (fun i => i + 2) false.

Definition empty_system : ChSystemParallel :=
  mkSys [] [] 0 [] [] [] [] (10, 10, 10) false VNULL VNULL.

(** Two tires of 4 vertices and 2 triangles each, and their material. *)
Definition sample_surf_props (which : nat) : Z * Z := (4, 2).

Definition sample_mat_props (which : nat) : list Q :=
  [9 # 10; 1 # 10; 2 # 1; 3 # 10; 0; 0; 0; 0]%Q.

(** Three tires on rigid terrain whose triangle counts add up to more than
    2^32. *)
Definition wrapping_surf_props (which : nat) : Z * Z :=
  match which with
  | O => (1, 2 ^ 32 - 1)
  | S O => (1, 2)
  | _ => (1, 1)
  end.

(** One tire on rigid terrain with 2^31 + 1 vertices. *)
Definition huge_surf_props (which : nat) : Z * Z := (2 ^ 31 + 1, 1).

(** The vertex positions and velocities and the connectivity sent by
    each tire: two triangles that share an edge, with vertices 0 and 3
    below [z = 0]. *)
Definition sample_vert_data (which : nat) : list Q :=
  [0; 0; - (3 # 100);  1; 0; 0;  0; 1; 0;  1; 1; - (1 # 10);
   1; 0; 0;  1; 0; 0;  1; 0; 3;  1; 0; 0]%Q.

Definition sample_tri_data (which : nat) : list Z := [0; 1; 2; 1; 2; 3].

(** The node of two tires after [Initialize]. *)
Definition initialized_node (type : TerrainType) : TerrainNode :=
  match
    Initialize (E := sample_engine) (sample_config type 2 false)
      sample_surf_props sample_mat_props
      (TerrainNode_new (sample_config type 2 false) empty_system)
  with
  | Ok n => n
  | _ => TerrainNode_new (sample_config type 2 false) empty_system
  end.

(** The node after a [Synchronize] of step 1 with the sample data. *)
Definition synchronized_node (type : TerrainType) : TerrainNode :=
  match
    Synchronize (E := sample_engine) (sample_config type 2 false) 1 0
      sample_vert_data sample_tri_data (initialized_node type)
  with
  | Ok n => n
  | _ => initialized_node type
  end.

(** A granular node after [Construct], and the same node with particle
    100001 moved and pushed, as a settling phase could leave it. *)
Definition constructed_node : TerrainNode :=
  Construct (E := sample_engine) (sample_config GRANULAR 1 true)
    (TerrainNode_new (sample_config GRANULAR 1 true) empty_system).

Definition settled_node : TerrainNode :=
  with_system
    (set_body 3
       (fun b => SetRot_dt (mkQ 0 (1 # 2) 0 0)
                   (SetPos_dt (mkV 0 0 (- 1 # 4)) (SetPos (mkV 1 2 (1 # 100)) b))))
    constructed_node.

(** A configuration whose integration step is zero. *)
Definition zero_step_config : Config :=
  mkConfig RIGID SMC 1 false 0 0 1 (1 # 4) (1 # 2) (1 # 10)
    (1 # 100) 2000 2 (4 # 10) false 1 (1 # 100) 1 sample_material 0
    (fun i => i + 2) false.

(** * Properties *)

(** ** Machine integers *)

Lemma u32_range n : 0 <= u32 n < u32_modulus.
Proof. unfold u32, u32_modulus. apply Z.mod_pos_bound. lia. Qed.

Lemma u32_small n : 0 <= n < u32_modulus -> u32 n = n.
Proof. intros H. unfold u32. now apply Z.mod_small. Qed.

Lemma to_int_small n : 0 <= n < 2 ^ 31 -> to_int n = n.
Proof.
  intros H. unfold to_int. rewrite u32_small by (unfold u32_modulus; lia).
  destruct (Z_lt_dec n (2 ^ 31)); lia.
Qed.

Lemma to_unsigned_to_int n : to_unsigned (to_int n) = u32 n.
Proof.
  unfold to_unsigned, to_int. pose proof (u32_range n) as Hr.
  destruct (Z_lt_dec (u32 n) (2 ^ 31)).
  - apply u32_small; lia.
  - unfold u32 at 1. unfold u32_modulus in *.
    rewrite <- (Z.mod_small (u32 n) (2 ^ 32)) at 2 by lia.
    replace (u32 n - 2 ^ 32) with (u32 n + (-1) * 2 ^ 32) by lia.
    now rewrite Z.mod_add by lia.
Qed.

Lemma Qltb_lt a b : Qltb a b = true <-> (a < b)%Q.
Proof.
  unfold Qltb. rewrite negb_true_iff, <- not_true_iff_false, Qle_bool_iff.
  split; [apply Qnot_le_lt | apply Qlt_not_le].
Qed.

Lemma Qltb_ge a b : Qltb a b = false <-> (b <= a)%Q.
Proof. unfold Qltb. now rewrite negb_false_iff, Qle_bool_iff. Qed.

(** ** Sums *)

Lemma Qsum_app (l1 l2 : list Q) : (Qsum (l1 ++ l2) == Qsum l1 + Qsum l2)%Q.
Proof.
  induction l1 as [|a l1 IH]; simpl.
  - lra.
  - rewrite IH. lra.
Qed.

(** ** Advance *)

Section AdvanceProperties.

Context {E : Engine}.
Variable cfg : Config.

Lemma Advance_loop_covers (step_size : Q) :
  (0 < m_step_size cfg)%Q ->
  forall (k : nat) (t : Q) (s : ChSystemParallel),
    (t <= step_size)%Q ->
    (step_size - t <= inject_Z (Z.of_nat k) * m_step_size cfg)%Q ->
    exists hs,
      (forall fuel, (k <= fuel)%nat ->
         Advance_loop cfg fuel step_size t s = Some (run_steps hs s, hs)) /\
      Forall (fun h => (0 < h /\ h <= m_step_size cfg)%Q) hs /\
      (Qsum hs == step_size - t)%Q.
Proof.
  intros Hm k. induction k as [|k IH]; intros t s Ht Hk.
  - exists []. repeat split.
    + intros fuel _. assert (Qltb t step_size = false) as Hlt.
      { apply Qltb_ge. change (inject_Z (Z.of_nat 0)) with 0%Q in Hk. lra. }
      destruct fuel; simpl; now rewrite Hlt.
    + constructor.
    + change (inject_Z (Z.of_nat 0)) with 0%Q in Hk. simpl. lra.
  - destruct (Qltb t step_size) eqn:Hlt.
    + apply Qltb_lt in Hlt.
      set (h := std_min (m_step_size cfg) (step_size - t)).
      assert ((0 < h /\ h <= m_step_size cfg /\ h <= step_size - t)%Q
              /\ (h == m_step_size cfg \/ h == step_size - t)%Q) as [Hh Hcase].
      { unfold h, std_min. destruct (Qltb (step_size - t) (m_step_size cfg)) eqn:Hc.
        - apply Qltb_lt in Hc. split; [|right]; lra.
        - apply Qltb_ge in Hc. split; [|left]; lra. }
      assert ((step_size - (t + h) <= inject_Z (Z.of_nat k) * m_step_size cfg)%Q)
        as Hk'.
      { rewrite Nat2Z.inj_succ in Hk. unfold Z.succ in Hk.
        rewrite inject_Z_plus in Hk.
        assert (0 <= inject_Z (Z.of_nat k) * m_step_size cfg)%Q.
        { apply Qmult_le_0_compat; [|lra].
          rewrite <- (Zle_Qle 0). lia. }
        destruct Hcase as [Hc|Hc]; rewrite Hc; [|lra].
        change (inject_Z 1) with 1%Q in Hk. lra. }
      destruct (IH (t + h)%Q (DoStepDynamics h s)) as (hs & Hrun & Hall & Hsum);
        [lra | exact Hk' |].
      exists (h :: hs). repeat split.
      * intros fuel Hf. destruct fuel as [|fuel]; [lia|].
        simpl. apply Qltb_lt in Hlt. rewrite Hlt. fold h.
        rewrite Hrun by lia. reflexivity.
      * constructor; [lra | exact Hall].
      * simpl. rewrite Hsum. lra.
    + apply Qltb_ge in Hlt. exists []. repeat split.
      * intros fuel _. apply Qltb_ge in Hlt. destruct fuel; simpl; now rewrite Hlt.
      * constructor.
      * simpl. lra.
Qed.

Lemma Advance_fuel_enough (step_size : Q) :
  (0 < m_step_size cfg)%Q -> (0 < step_size)%Q ->
  (step_size <= inject_Z (Z.of_nat (Advance_fuel cfg step_size)) * m_step_size cfg)%Q.
Proof.
  intros Hm Hs. unfold Advance_fuel.
  pose proof (Qle_ceiling (step_size / m_step_size cfg)) as Hc.
  assert (0 < step_size / m_step_size cfg)%Q as Hpos.
  { apply Qlt_shift_div_l; lra. }
  assert (0 <= Qceiling (step_size / m_step_size cfg))%Z as Hz.
  { rewrite Zle_Qle. change (inject_Z 0) with 0%Q. lra. }
  rewrite Z2Nat.id by exact Hz.
  apply Qle_trans with ((step_size / m_step_size cfg) * m_step_size cfg)%Q.
  - apply Qle_lteq. right. field. lra.
  - apply Qmult_le_compat_r; lra.
Qed.

(** C7: for a positive macro step and a positive micro step, the loop of
    [Advance] ends (any fuel from [Advance_fuel] on gives the same result);
    every internal step is positive and no larger than the micro step, the
    steps add up to the macro step exactly, and the last one is what was
    left of the macro step after the others. *)
Theorem Advance_subdivides_macro_step (step_size : Q) (n : TerrainNode) :
  (0 < m_step_size cfg)%Q -> (0 < step_size)%Q ->
  exists hs : list Q,
    (forall fuel, (Advance_fuel cfg step_size <= fuel)%nat ->
       Advance_loop cfg fuel step_size 0 (m_system n)
         = Some (run_steps hs (m_system n), hs) /\
       Advance cfg fuel step_size n
         = Some (set_system (run_steps hs (m_system n)) n)) /\
    Forall (fun h => (0 < h /\ h <= m_step_size cfg)%Q) hs /\
    (Qsum hs == step_size)%Q /\
    exists front last,
      hs = front ++ [last] /\ (last == step_size - Qsum front)%Q.
Proof.
  intros Hm Hs.
  destruct (Advance_loop_covers step_size Hm (Advance_fuel cfg step_size) 0
              (m_system n)) as (hs & Hrun & Hall & Hsum).
  - lra.
  - pose proof (Advance_fuel_enough step_size Hm Hs). lra.
  - exists hs. split; [|split; [exact Hall|split; [lra|]]].
    + intros fuel Hf. unfold Advance. rewrite (Hrun fuel Hf). now split.
    + destruct (exists_last (l := hs)) as (front & last & ->).
      * intros ->. simpl in Hsum. lra.
      * exists front, last. split; [reflexivity|].
        rewrite Qsum_app in Hsum. simpl in Hsum. lra.
Qed.

End AdvanceProperties.

Lemma Advance_subdivides_macro_step_witness :
  exists hs : list Q,
    (forall fuel,
       (Advance_fuel (sample_config RIGID 1 false) 1 <= fuel)%nat ->
       Advance_loop (E := sample_engine) (sample_config RIGID 1 false) fuel 1 0
           empty_system
         = Some (run_steps (E := sample_engine) hs empty_system, hs) /\
       Advance (E := sample_engine) (sample_config RIGID 1 false) fuel 1
           (TerrainNode_new (sample_config RIGID 1 false) empty_system)
         = Some (set_system (run_steps (E := sample_engine) hs empty_system)
                   (TerrainNode_new (sample_config RIGID 1 false) empty_system))) /\
    Forall (fun h => (0 < h /\ h <= 3 # 10)%Q) hs /\
    (Qsum hs == 1)%Q /\
    exists front last, hs = front ++ [last] /\ (last == 1 - Qsum front)%Q.
Proof.
  apply (Advance_subdivides_macro_step (E := sample_engine)
           (sample_config RIGID 1 false) 1
           (TerrainNode_new (sample_config RIGID 1 false) empty_system));
    reflexivity.
Defined.

Example Advance_loop_example :
  Advance_loop (E := sample_engine) (sample_config RIGID 1 false) 4 1 0 empty_system
  = Some (SetChTime (0 + (3 # 10) + (3 # 10) + (3 # 10) + (1 - (0 + (3 # 10) + (3 # 10) + (3 # 10)))) empty_system,
          [3 # 10; 3 # 10; 3 # 10; (1 - (0 + (3 # 10) + (3 # 10) + (3 # 10)))%Q]).
Proof. vm_compute. reflexivity. Qed.

(** ** Loops and handles *)

Lemma for_loop_ok {S : Type} (P : nat -> S -> Prop) (body : nat -> S -> result S)
    (n start : nat) (s : S) :
  P start s ->
  (forall i s, (start <= i < start + n)%nat -> P i s ->
     exists s', body i s = Ok s' /\ P (Datatypes.S i) s') ->
  exists r, for_loop n start body s = Ok r /\ P (start + n)%nat r.
Proof.
  revert start s. induction n as [|n IH]; intros start s H0 Hstep; simpl.
  - exists s. rewrite Nat.add_0_r. now split.
  - destruct (Hstep start s) as (s' & Hb & Hs'); [lia | exact H0 |].
    rewrite Hb. simpl.
    destruct (IH (Datatypes.S start) s' Hs') as (r & Hr & HP).
    + intros i s1 Hi HPi. apply Hstep; [lia | exact HPi].
    + exists r. split; [exact Hr|]. now replace (start + Datatypes.S n)%nat
        with (Datatypes.S start + n)%nat by lia.
Qed.

Lemma for_loop_inv {S : Type} (P : nat -> S -> Prop) (body : nat -> S -> result S)
    (n start : nat) (s r : S) :
  P start s ->
  (forall i s s', (start <= i < start + n)%nat -> P i s -> body i s = Ok s' ->
     P (Datatypes.S i) s') ->
  for_loop n start body s = Ok r -> P (start + n)%nat r.
Proof.
  revert start s. induction n as [|n IH]; intros start s H0 Hstep; simpl.
  - intros [= <-]. now rewrite Nat.add_0_r.
  - destruct (body start s) as [s'| |] eqn:Hb; simpl; try discriminate.
    intros Hr. replace (start + Datatypes.S n)%nat
      with (Datatypes.S start + n)%nat by lia.
    apply (IH (Datatypes.S start) s'); [| | exact Hr].
    + apply (Hstep start s); [lia | exact H0 | exact Hb].
    + intros i s1 s2 Hi. apply Hstep. lia.
Qed.

Lemma for_loop_body_Ok {S : Type} (body : nat -> S -> result S) (n start : nat)
    (s r : S) (i : nat) :
  for_loop n start body s = Ok r -> (start <= i < start + n)%nat ->
  exists s1 s2, body i s1 = Ok s2.
Proof.
  revert start s. induction n as [|n IH]; intros start s H Hi; [lia|].
  simpl in H. destruct (body start s) as [s'| |] eqn:Hb; simpl in H; try discriminate.
  destruct (decide (i = start)) as [->|Hne]; [now exists s, s'|].
  apply (IH (Datatypes.S start) s' H). lia.
Qed.

Lemma with_body_AddBody (f : ChBody -> ChBody) (b : ChBody) (s : ChSystemParallel) :
  with_body (next_handle s) f (AddBody b s) = Some (AddBody (f b) s).
Proof.
  unfold with_body, next_handle, AddBody, set_bodylist. simpl.
  rewrite lookup_app_r by lia. rewrite Nat.sub_diag. simpl.
  rewrite insert_app_r_alt by lia. rewrite Nat.sub_diag. reflexivity.
Qed.

Lemma with_body_AddSphere (h : nat) (f : ChBody -> ChBody) (r : Q) (p : ChVector)
    (s s' : ChSystemParallel) :
  with_body h f s = Some s' ->
  with_body h f (AddSphereGeometry r p s) = Some (AddSphereGeometry r p s').
Proof.
  unfold with_body, AddSphereGeometry, set_bodylist. simpl.
  destruct (bodylist s !! h); [|discriminate]. now intros [= <-].
Qed.

Lemma with_tire_Ok (which : nat) (f : TireData -> TireData) (n n' : TerrainNode) :
  with_tire which f n = Ok n' ->
  exists t,
    m_tire_data n !! which = Some t /\
    n' = set_tire_data (<[which := f t]> (m_tire_data n)) n.
Proof.
  unfold with_tire. destruct (m_tire_data n !! which) as [t|]; simpl; [|discriminate].
  intros [= <-]. now exists t.
Qed.

Lemma with_proxy_body_Ok (h : nat) (f : ChBody -> ChBody) (n n' : TerrainNode) :
  with_proxy_body h f n = Ok n' ->
  exists b,
    bodylist (m_system n) !! h = Some b /\
    n' = set_system (set_bodylist (<[h := f b]> (bodylist (m_system n))) (m_system n)) n.
Proof.
  unfold with_proxy_body, with_body.
  destruct (bodylist (m_system n) !! h) as [b|]; simpl; [|discriminate].
  intros [= <-]. now exists b.
Qed.

Lemma set_shape_Ok (i : Z) (x : real3) (n n' : TerrainNode) :
  set_shape i x n = Ok n' ->
  (Z.to_nat i < length (triangle_rigid (m_system n)))%nat /\
  n' = with_system
         (set_triangle_rigid (<[Z.to_nat i := x]> (triangle_rigid (m_system n)))) n.
Proof.
  unfold set_shape, list_set.
  destruct (decide (Z.to_nat i < length (triangle_rigid (m_system n)))%nat);
    simpl; [|discriminate].
  intros [= <-]. now split.
Qed.

(** Destructs the reads and calls of a computation that returned [Ok]. *)
Ltac inv_Ok H :=
  repeat match type of H with
    | rget ?o _ = Ok _ =>
        let E := fresh "E" in
        destruct o eqn:E; cbn [rget] in H; [|discriminate H]
    | rbind ?m _ = Ok _ =>
        let E := fresh "E" in
        destruct m eqn:E; cbn [rbind] in H; [|discriminate H|discriminate H]
    end.

Section ProxyCreation.

Context {E : Engine}.
Variable cfg : Config.

Lemma create_node_proxy_Ok (which iv : nat) (n : TerrainNode) (t : TireData) :
  m_tire_data n !! which = Some t ->
  create_node_proxy cfg which iv n =
  Ok (set_tire_data
        (<[which := set_proxies
                      (m_proxies t
                         ++ [mkProxy (next_handle (m_system n)) (to_int (Z.of_nat iv))])
                      t]> (m_tire_data n))
        (set_system
           (AddSphereGeometry (m_radius_pN cfg) VNULL
              (AddBody (node_proxy_body cfg t iv) (m_system n)))
           n)).
Proof.
  intros Ht. unfold create_node_proxy. rewrite Ht. simpl.
  unfold with_proxy_body, with_system. simpl.
  repeat (rewrite with_body_AddBody; simpl).
  erewrite with_body_AddSphere by apply with_body_AddBody. simpl.
  unfold with_tire. simpl. rewrite Ht. simpl. reflexivity.
Qed.

Lemma create_face_proxy_Ok (which it : nat) (n : TerrainNode) (t : TireData) :
  m_tire_data n !! which = Some t ->
  create_face_proxy cfg which it n =
  Ok (set_system
        (AddTriangle (mkV (1 # 10) 0 0) (mkV 0 (1 # 10) 0) (mkV 0 0 (1 # 10))
           (AddBody (face_proxy_body cfg t it) (m_system n)))
        (set_tire_data
           (<[which := set_proxies
                         (m_proxies t
                            ++ [mkProxy (next_handle (m_system n)) (to_int (Z.of_nat it))])
                         t]> (m_tire_data n))
           n)).
Proof.
  intros Ht. unfold create_face_proxy. rewrite Ht. simpl.
  unfold with_tire. rewrite Ht. simpl. reflexivity.
Qed.

Lemma new_proxies_S (h0 k : nat) :
  new_proxies h0 (Datatypes.S k)
  = new_proxies h0 k ++ [mkProxy (h0 + k) (to_int (Z.of_nat k))].
Proof. unfold new_proxies. now rewrite seq_S, map_app. Qed.

Lemma map_seq_S {A : Type} (mk : nat -> A) (k : nat) :
  map mk (seq 0 (Datatypes.S k)) = map mk (seq 0 k) ++ [mk k].
Proof. now rewrite seq_S, map_app. Qed.

Lemma proxies_created_0 (which : nat) (t : TireData) (mk : nat -> ChBody)
    (n : TerrainNode) :
  m_tire_data n !! which = Some t ->
  proxies_created which t mk 0 0 n n.
Proof.
  intros Ht. unfold proxies_created, new_proxies. simpl.
  rewrite !app_nil_r, Nat.add_0_r. repeat split; try reflexivity.
  destruct t. unfold set_proxies. simpl. symmetry. now apply list_insert_id.
Qed.

Lemma CreateNodeProxies_spec (which : nat) (n : TerrainNode) (t : TireData) :
  m_tire_data n !! which = Some t ->
  exists n',
    CreateNodeProxies cfg which n = Ok n' /\
    proxies_created which t (node_proxy_body cfg t) (Z.to_nat (m_num_vert t)) 0 n n'.
Proof.
  intros Ht. unfold CreateNodeProxies. rewrite Ht. simpl.
  apply (for_loop_ok
           (fun k n' => proxies_created which t (node_proxy_body cfg t) k 0 n n')).
  - now apply proxies_created_0.
  - intros k n1 _ (Htd & Hbl & Htl & Htr & Hms).
    assert (m_tire_data n1 !! which = Some
              (set_proxies (m_proxies t ++ new_proxies (next_handle (m_system n)) k) t))
      as Ht1.
    { rewrite Htd. apply list_lookup_insert_eq. now apply lookup_lt_Some in Ht. }
    eexists. split; [exact (create_node_proxy_Ok which k n1 _ Ht1)|].
    unfold proxies_created. rewrite new_proxies_S, map_seq_S. simpl.
    repeat split.
    + rewrite Htd, list_insert_insert_eq. f_equal. unfold set_proxies. simpl.
      rewrite <- app_assoc. unfold next_handle.
      now rewrite Hbl, length_app, length_map, length_seq.
    + rewrite Hbl, <- app_assoc. reflexivity.
    + exact Htl.
    + exact Htr.
    + exact Hms.
Qed.

Lemma CreateFaceProxies_spec (which : nat) (n : TerrainNode) (t : TireData) :
  m_tire_data n !! which = Some t ->
  exists n',
    CreateFaceProxies cfg which n = Ok n' /\
    proxies_created which t (face_proxy_body cfg t) (Z.to_nat (m_num_tri t))
      (Z.to_nat (m_num_tri t)) n n'.
Proof.
  intros Ht. unfold CreateFaceProxies. rewrite Ht. simpl.
  apply (for_loop_ok
           (fun k n' => proxies_created which t (face_proxy_body cfg t) k k n n')).
  - now apply proxies_created_0.
  - intros k n1 _ (Htd & Hbl & Htl & Htr & Hms).
    assert (m_tire_data n1 !! which = Some
              (set_proxies (m_proxies t ++ new_proxies (next_handle (m_system n)) k) t))
      as Ht1.
    { rewrite Htd. apply list_lookup_insert_eq. now apply lookup_lt_Some in Ht. }
    eexists. split; [exact (create_face_proxy_Ok which k n1 _ Ht1)|].
    unfold proxies_created. rewrite new_proxies_S, map_seq_S. simpl.
    repeat split.
    + rewrite Htd, list_insert_insert_eq. f_equal. unfold set_proxies. simpl.
      rewrite <- app_assoc. unfold next_handle.
      now rewrite Hbl, length_app, length_map, length_seq.
    + rewrite Hbl, <- app_assoc. reflexivity.
    + rewrite length_app, Htl. simpl. lia.
    + intros i Hi. rewrite lookup_app_l by lia. now apply Htr.
    + exact Hms.
Qed.

End ProxyCreation.

(** ** Construct *)

Section ConstructProperties.

Context {E : Engine}.
Variable cfg : Config.

Lemma set_body_AddBody (f : ChBody -> ChBody) (b : ChBody) (s : ChSystemParallel) :
  set_body (next_handle s) f (AddBody b s) = AddBody (f b) s.
Proof.
  unfold set_body, next_handle, AddBody, set_bodylist. simpl.
  rewrite <- (Nat.add_0_r (length (bodylist s))), alter_app_r. reflexivity.
Qed.

Lemma create_platform_eq (s : ChSystemParallel) :
  create_platform cfg s =
  AddBoxGeometry
    (mkV (m_hlenX cfg + m_hthick cfg) (m_hdimY cfg) (m_hdimZ cfg + m_hthick cfg))
    (mkV (- (m_hlenX cfg + m_hthick cfg) - m_hdimX cfg) 0 (m_hdimZ cfg - m_hthick cfg))
    (AddBody (platform_body cfg) s).
Proof.
  unfold create_platform. cbv zeta. now rewrite !set_body_AddBody.
Qed.

Lemma create_container_bodylist (s : ChSystemParallel) :
  bodylist (create_container cfg s) = bodylist s ++ [(container_body cfg)]
  /\ triangle_rigid (create_container cfg s) = triangle_rigid s
  /\ (exists l, ObA_rigid (create_container cfg s) = ObA_rigid s ++ l)
  /\ (exists l, box_like_rigid (create_container cfg s) = box_like_rigid s ++ l).
Proof.
  unfold create_container. cbv zeta. rewrite !set_body_AddBody. simpl.
  repeat split; eexists; rewrite <- !app_assoc; reflexivity.
Qed.

Lemma weld_to_ground_bodylist (bl : list ChBody) (s : ChSystemParallel) :
  bodylist s = bl ++ [(platform_body cfg); (container_body cfg)] ->
  bodylist (weld_to_ground cfg (length bl) (Datatypes.S (length bl)) s)
    = bl ++ (structural_bodies cfg)
  /\ triangle_rigid (weld_to_ground cfg (length bl) (Datatypes.S (length bl)) s) = triangle_rigid s
  /\ ObA_rigid (weld_to_ground cfg (length bl) (Datatypes.S (length bl)) s) = ObA_rigid s
  /\ box_like_rigid (weld_to_ground cfg (length bl) (Datatypes.S (length bl)) s) = box_like_rigid s.
Proof.
  intros Hbl. unfold weld_to_ground, structural_bodies.
  destruct (m_fixed_proxies cfg); [|now rewrite Hbl].
  assert (forall f, alter f (length bl)
            ((bl ++ [(platform_body cfg); (container_body cfg)]) ++ [ground_body])
          = bl ++ [f (platform_body cfg); (container_body cfg); ground_body]) as Halt.
  { intros f. rewrite <- app_assoc.
    rewrite <- (Nat.add_0_r (length bl)) at 1. now rewrite alter_app_r. }
  assert (forall (g : ChBody -> ChBody) p, alter g (Datatypes.S (length bl))
            (bl ++ [p; (container_body cfg); ground_body])
          = bl ++ [p; g (container_body cfg); ground_body]) as Halt2.
  { intros g p. replace (Datatypes.S (length bl)) with (length bl + 1)%nat by lia.
    now rewrite alter_app_r. }
  destruct (m_type cfg); simpl; rewrite Hbl, Halt; [rewrite Halt2|];
    now repeat split.
Qed.

Lemma particles_generated_refl id s : particles_generated id s (s, id).
Proof.
  exists []. simpl. rewrite app_nil_r. repeat split; try lia.
  - intros k p Hk. discriminate.
  - exists []. now rewrite app_nil_r.
Qed.

Lemma particles_generated_trans id s r1 r2 :
  particles_generated id s r1 -> particles_generated (snd r1) (fst r1) r2 ->
  particles_generated id s r2.
Proof.
  intros (ps1 & Hb1 & Hi1 & Hid1 & Hx1 & Ht1 & l1 & Ho1)
         (ps2 & Hb2 & Hi2 & Hid2 & Hx2 & Ht2 & l2 & Ho2).
  exists (ps1 ++ ps2). repeat split.
  - now rewrite Hb2, Hb1, app_assoc.
  - rewrite Hi2, Hi1, length_app. lia.
  - intros k p Hk. destruct (decide (k < length ps1)%nat) as [Hlt|Hge].
    + rewrite lookup_app_l in Hk by exact Hlt. now apply Hid1.
    + rewrite lookup_app_r in Hk by lia. apply Hid2 in Hk. rewrite Hk, Hi1. lia.
  - now rewrite Hx2.
  - now rewrite Ht2.
  - exists (l1 ++ l2). now rewrite Ho2, Ho1, app_assoc.
Qed.

Lemma add_particles_generated bodies s id :
  particles_generated id s (add_particles cfg bodies (s, id)).
Proof.
  revert s id. induction bodies as [|b bodies IH]; intros s id.
  - apply particles_generated_refl.
  - apply (particles_generated_trans id s
             (AddSphereGeometry (m_radius_g cfg) VNULL
                (AddBody (SetIdentifier id b) s), id + 1)); [|apply IH].
    exists [SetIdentifier id b]. simpl. repeat split; try lia.
    + intros [|k] p Hk; [|discriminate]. injection Hk as <-. simpl. lia.
    + now exists [VNULL].
Qed.

Lemma generate_particles_generated id s :
  particles_generated id s (generate_particles cfg id s).
Proof.
  unfold generate_particles.
  set (r := ((101 # 100) * m_radius_g cfg)%Q).
  set (hdims := mkV _ _ _). generalize (mkV 0 0 (2 * r)%Q) as center.
  induction (Z.to_nat (m_num_layers cfg)) as [|k IH]; intros center.
  - apply particles_generated_refl.
  - simpl. specialize (IH center).
    destruct (Nat.iter k (generate_layer cfg r hdims) (s, id, center))
      as [[s1 id1] c1].
    unfold generate_layer. simpl in *.
    apply (particles_generated_trans id s (s1, id1)); [exact IH|].
    apply add_particles_generated.
Qed.

Lemma set_active_box_lists (s : ChSystemParallel) :
  bodylist (set_active_box cfg s) = bodylist s /\
  triangle_rigid (set_active_box cfg s) = triangle_rigid s /\
  ObA_rigid (set_active_box cfg s) = ObA_rigid s /\
  box_like_rigid (set_active_box cfg s) = box_like_rigid s.
Proof. now repeat split. Qed.

Lemma Construct_spec (n : TerrainNode) :
  m_constructed n = false ->
  m_constructed (Construct cfg n) = true /\
  m_Id_g (Construct cfg n) = 100000 /\
  m_tire_data (Construct cfg n) = m_tire_data n /\
  mpi_sent (Construct cfg n) = mpi_sent n /\
  m_init_height (Construct cfg n) = m_init_height n /\
  triangle_rigid (m_system (Construct cfg n)) = triangle_rigid (m_system n) /\
  (0 < length (ObA_rigid (m_system (Construct cfg n))))%nat /\
  (0 < length (box_like_rigid (m_system (Construct cfg n))))%nat /\
  exists ps,
    bodylist (m_system (Construct cfg n))
      = (bodylist (m_system n) ++ (structural_bodies cfg)) ++ ps /\
    m_particles_start_index (Construct cfg n)
      = u32 (Z.of_nat (length (bodylist (m_system n) ++ (structural_bodies cfg)))) /\
    (forall k p, ps !! k = Some p -> identifier p = 100000 + Z.of_nat k) /\
    (m_type cfg = GRANULAR ->
       m_num_particles (Construct cfg n) = u32 (Z.of_nat (length ps))) /\
    (m_type cfg = RIGID ->
       ps = [] /\ m_num_particles (Construct cfg n) = m_num_particles n).
Proof.
  intros Hc. unfold Construct. rewrite Hc. cbv zeta.
  set (s0 := broadphase_bins cfg (m_system n)).
  assert (bodylist s0 = bodylist (m_system n) /\
          triangle_rigid s0 = triangle_rigid (m_system n)) as [Hb0 Ht0].
  { unfold s0, broadphase_bins. destruct (m_type cfg); now split. }
  rewrite create_platform_eq.
  set (s1 := AddBoxGeometry _ _ (AddBody (platform_body cfg) s0)).
  destruct (create_container_bodylist s1) as (Hb2 & Ht2 & (l2 & Ho2) & (x2 & Hx2)).
  set (s2 := create_container cfg s1) in *.
  destruct (set_active_box_lists s2) as (Hb3' & Ht3 & Ho3 & Hx3).
  assert (bodylist s1 = bodylist (m_system n) ++ [(platform_body cfg)]) as Hb1
    by (unfold s1; simpl; now rewrite Hb0).
  assert (bodylist (set_active_box cfg s2)
          = bodylist (m_system n) ++ [(platform_body cfg); (container_body cfg)]) as Hb3.
  { now rewrite Hb3', Hb2, Hb1, <- app_assoc. }
  replace (next_handle s0) with (length (bodylist (m_system n)))
    by (unfold next_handle; now rewrite Hb0).
  replace (next_handle s1) with (Datatypes.S (length (bodylist (m_system n))))
    by (unfold next_handle; rewrite Hb1, length_app; simpl; lia).
  destruct (weld_to_ground_bodylist _ _ Hb3) as (Hb4 & Ht4 & Ho4 & Hx4).
  set (s4 := weld_to_ground cfg _ _ _) in *.
  assert (triangle_rigid s4 = triangle_rigid (m_system n)) as Ht4'.
  { rewrite Ht4, Ht3, Ht2. unfold s1. simpl. exact Ht0. }
  assert (0 < length (ObA_rigid s4) /\ 0 < length (box_like_rigid s4))%nat as [Ho4' Hx4'].
  { rewrite Ho4, Hx4, Ho3, Hx3, Ho2, Hx2.
    unfold s1. simpl. rewrite !length_app. simpl. lia. }
  destruct (m_type cfg) eqn:Hty; simpl.
  - repeat split; try assumption.
    exists []. rewrite app_nil_r. repeat split; try assumption; try discriminate.
    unfold num_rigid_bodies. now rewrite Hb4.
  - destruct (generate_particles_generated 100000 s4)
      as (ps & Hbp & Hip & Hidp & Hxp & Htp & lp & Hop).
    repeat split; try assumption.
    + now rewrite Htp.
    + rewrite Hop, length_app. lia.
    + now rewrite Hxp.
    + exists ps. repeat split; try discriminate.
      * now rewrite Hbp, Hb4.
      * unfold num_rigid_bodies. now rewrite Hb4.
      * exact Hidp.
      * intros _. rewrite Hip. f_equal. lia.
Qed.

Lemma Construct_constructed (n : TerrainNode) :
  m_constructed (Construct cfg n) = true.
Proof. unfold Construct. destruct (m_constructed n) eqn:Hc; [exact Hc | reflexivity]. Qed.

Lemma Construct_done (n : TerrainNode) :
  m_constructed n = true -> Construct cfg n = n.
Proof. intros Hc. unfold Construct. now rewrite Hc. Qed.

(** C6: once [Construct] has run, running it again changes nothing: the
    node it returns is the node it was given, so the number of bodies, the
    number of contact shapes, the number of particles and the two recorded
    start indices are those of the first run, however many times it is
    called again. *)
Theorem Construct_idempotent (n : TerrainNode) :
  Construct cfg (Construct cfg n) = Construct cfg n /\
  (forall k : nat, Nat.iter k (Construct cfg) (Construct cfg n) = Construct cfg n) /\
  length (bodylist (m_system (Construct cfg (Construct cfg n))))
    = length (bodylist (m_system (Construct cfg n))) /\
  num_rigid_shapes (m_system (Construct cfg (Construct cfg n)))
    = num_rigid_shapes (m_system (Construct cfg n)) /\
  m_num_particles (Construct cfg (Construct cfg n))
    = m_num_particles (Construct cfg n) /\
  m_particles_start_index (Construct cfg (Construct cfg n))
    = m_particles_start_index (Construct cfg n) /\
  m_proxy_start_index (Construct cfg (Construct cfg n))
    = m_proxy_start_index (Construct cfg n).
Proof.
  assert (Construct cfg (Construct cfg n) = Construct cfg n) as Hid
    by apply Construct_done, Construct_constructed.
  split; [exact Hid|]. split; [|now rewrite Hid].
  intros k. induction k as [|k IH]; [reflexivity|].
  simpl. now rewrite IH.
Qed.

(** C4: when the number of particles in the checkpoint file differs from
    the number of particles the node has generated, [Settle] ends in
    [MPI_Abort] and the node is as [Construct] left it: no line of the file
    has been applied to a body.  For a node that was already constructed
    the state at the abort is the state [Settle] was called in. *)
Theorem Settle_inconsistent_checkpoint_aborts (file : CheckpointFile)
    (n : TerrainNode) :
  m_type cfg = GRANULAR ->
  m_use_checkpoint cfg = true ->
  ck_num_particles file <> m_num_particles (Construct cfg n) ->
  Settle cfg file n = Abort (Construct cfg n) /\
  (m_constructed n = true -> Settle cfg file n = Abort n).
Proof.
  intros Hty Hck Hne.
  assert (Settle cfg file n = Abort (Construct cfg n)) as HS.
  { unfold Settle, assert. rewrite Hty, Hck, orb_true_r. simpl.
    destruct (Z.eqb_spec (ck_num_particles file) (m_num_particles (Construct cfg n)));
      [contradiction | reflexivity]. }
  split; [exact HS|]. intros Hc. now rewrite HS, Construct_done.
Qed.

End ConstructProperties.

Lemma Settle_inconsistent_checkpoint_aborts_witness :
  m_num_particles
    (Construct (E := sample_engine) checkpoint_config
       (TerrainNode_new checkpoint_config empty_system)) = 480 /\
  Settle (E := sample_engine) checkpoint_config (mkFile 0 500 [])
      (TerrainNode_new checkpoint_config empty_system)
    = Abort (Construct (E := sample_engine) checkpoint_config
               (TerrainNode_new checkpoint_config empty_system)).
Proof.
  split; [vm_compute; reflexivity|].
  apply (Settle_inconsistent_checkpoint_aborts (E := sample_engine)
           checkpoint_config (mkFile 0 500 [])
           (TerrainNode_new checkpoint_config empty_system));
    [reflexivity | reflexivity | vm_compute; discriminate].
Defined.

(** ** Initialize *)

Section InitializeProperties.

Context {E : Engine}.
Variable cfg : Config.

Lemma u32_add_l a b : u32 (u32 a + b) = u32 (a + b).
Proof. unfold u32. now rewrite Zplus_mod_idemp_l. Qed.

Lemma handshake_step (surf_props : nat -> Z * Z) (mat_props : nat -> list Q)
    (n0 : TerrainNode) (k : nat) (n : TerrainNode) :
  (k < length (m_tire_data n0))%nat ->
  handshaken cfg surf_props mat_props n0 k n ->
  exists n',
    handshake cfg surf_props mat_props k
      (n, (u32 (prefix_sum (fun i => fst (surf_props i)) k),
           u32 (prefix_sum (fun i => snd (surf_props i)) k)))
    = Ok (n', (u32 (prefix_sum (fun i => fst (surf_props i)) (Datatypes.S k)),
               u32 (prefix_sum (fun i => snd (surf_props i)) (Datatypes.S k)))) /\
    handshaken cfg surf_props mat_props n0 (Datatypes.S k) n'.
Proof.
  intros Hk (Hlen & Htd & Hbl & Hold & Hbody & Htri & Hmsg).
  destruct (lookup_lt_is_Some_2 _ _ Hk) as [t0 Ht0].
  pose proof (Htd k t0 Ht0) as Htk.
  destruct (decide (k < k)%nat) as [?|_]; [lia|].
  unfold handshake. cbn [fst snd]. rewrite Htk. cbn [rget].
  set (t := mkTire (m_proxies t0) _ _ _ _ _ _ _).
  set (n1 := set_tire_data (<[k := t]> (m_tire_data n)) n).
  assert (m_tire_data n1 !! k = Some t) as Ht1.
  { unfold n1. simpl. apply list_lookup_insert_eq. rewrite Hlen. exact Hk. }
  assert (exists n',
            match m_type cfg with
            | RIGID => CreateNodeProxies cfg k n1
            | GRANULAR => CreateFaceProxies cfg k n1
            end = Ok n' /\
            proxies_created k t (proxy_body cfg t) (proxy_count cfg surf_props k)
              (triangles_count cfg surf_props k) n1 n') as (n' & Hcr & Hpc).
  { unfold proxy_body, proxy_count, triangles_count. destruct (m_type cfg).
    - apply (CreateNodeProxies_spec cfg k n1 t Ht1).
    - apply (CreateFaceProxies_spec cfg k n1 t Ht1). }
  rewrite Hcr. exists n'. split.
  { simpl. now rewrite !u32_add_l. }
  destruct Hpc as (Htd' & Hbl' & Htl' & Htr' & Hms').
  unfold handshaken. cbn zeta.
  assert (length (bodylist (m_system n1)) = length (bodylist (m_system n))) as Hb1
    by reflexivity.
  repeat split.
  - rewrite Htd', length_insert. unfold n1. simpl. now rewrite length_insert.
  - intros i ti Hti. rewrite Htd'. destruct (decide (i = k)) as [->|Hne].
    + rewrite list_lookup_insert_eq
        by (unfold n1; simpl; rewrite length_insert, Hlen; exact Hk).
      destruct (decide (k < Datatypes.S k)%nat) as [_|?]; [|lia].
      rewrite Ht0 in Hti. injection Hti as <-.
      unfold tire_after_handshake, set_proxies, t, next_handle. simpl.
      now rewrite Hbl.
    + rewrite list_lookup_insert_ne by congruence. unfold n1. simpl.
      rewrite list_lookup_insert_ne by congruence. rewrite (Htd i ti Hti).
      destruct (decide (i < k)%nat), (decide (i < Datatypes.S k)%nat);
        try reflexivity; lia.
  - rewrite Hbl', length_app, length_map, length_seq, Hb1, Hbl. simpl. lia.
  - intros h Hh. rewrite Hbl'. rewrite lookup_app_l by (rewrite Hb1, Hbl; lia).
    now apply Hold.
  - intros i j ti Hi Hj Hti. rewrite Hbl'. destruct (decide (i = k)) as [->|Hne].
    + rewrite lookup_app_r by (rewrite Hb1, Hbl; lia).
      rewrite Hb1, Hbl.
      replace (_ + _ + j - _)%nat with j by lia.
      rewrite list_lookup_fmap.
      rewrite (proj2 (lookup_seq 0 (proxy_count cfg surf_props k) j j))
        by (split; [reflexivity | exact Hj]).
      simpl. f_equal. rewrite Htd' in Hti.
      rewrite list_lookup_insert_eq in Hti
        by (unfold n1; simpl; rewrite length_insert, Hlen; exact Hk).
      injection Hti as <-. unfold proxy_body, node_proxy_body, face_proxy_body.
      reflexivity.
    + assert (i < k)%nat as Hik by lia.
      assert (m_tire_data n !! i = Some ti) as Hti'.
      { rewrite Htd' in Hti. rewrite list_lookup_insert_ne in Hti by congruence.
        unfold n1 in Hti. simpl in Hti.
        now rewrite list_lookup_insert_ne in Hti by congruence. }
      pose proof (Hbody i j ti Hik Hj Hti') as Hb.
      rewrite lookup_app_l; [exact Hb|]. apply lookup_lt_Some in Hb. exact Hb.
  - rewrite Htl'. unfold n1. simpl. rewrite Htri.
    unfold n1. simpl. lia.
  - rewrite Hms'. exact Hmsg.
Qed.

Lemma handshaken_0 (surf_props : nat -> Z * Z) (mat_props : nat -> list Q)
    (n0 : TerrainNode) :
  handshaken cfg surf_props mat_props n0 0 n0.
Proof.
  unfold handshaken. cbn zeta. simpl. rewrite !Nat.add_0_r.
  repeat split; try reflexivity.
  - intros i t0 Ht0. rewrite Ht0. destruct (decide (i < 0)%nat); [lia | reflexivity].
  - intros i j t Hi. lia.
Qed.

Lemma adjust_platform_Ok (n : TerrainNode) :
  (0 < length (ObA_rigid (m_system n)))%nat ->
  (0 < length (box_like_rigid (m_system n)))%nat ->
  exists n0,
    adjust_platform n = Ok n0 /\
    m_tire_data n0 = m_tire_data n /\
    bodylist (m_system n0) = bodylist (m_system n) /\
    triangle_rigid (m_system n0) = triangle_rigid (m_system n) /\
    mpi_sent n0 = mpi_sent n.
Proof.
  intros Ho Hx. unfold adjust_platform.
  destruct (ObA_rigid (m_system n)) as [|p lo] eqn:Eo; [simpl in Ho; lia|].
  destruct (box_like_rigid (m_system n)) as [|d lx] eqn:Ex; [simpl in Hx; lia|].
  simpl. eexists. split; [reflexivity|]. now repeat split.
Qed.

(** [Initialize] returns, and the node it returns is the node [n0] at the
    start of the loop over the tires (constructed, with the platform
    adjusted and the initial dimensions sent) after the handshakes of all
    the tires. *)
Lemma Initialize_spec (surf_props : nat -> Z * Z) (mat_props : nat -> list Q)
    (n : TerrainNode) :
  m_constructed n = false \/
    ((0 < length (ObA_rigid (m_system n)))%nat /\
     (0 < length (box_like_rigid (m_system n)))%nat) ->
  (Z.to_nat (m_num_tires cfg) <= length (m_tire_data n))%nat ->
  exists n0 n',
    Initialize cfg surf_props mat_props n = Ok n' /\
    m_tire_data n0 = m_tire_data n /\
    bodylist (m_system n0) = bodylist (m_system (Construct cfg n)) /\
    triangle_rigid (m_system n0) = triangle_rigid (m_system n) /\
    mpi_sent n0 =
      mpi_sent n ++
      [mkMsg (VEHICLE_NODE_RANK cfg) 0
         (MPI_DOUBLE [m_init_height n; (m_hdimX cfg + 2 * m_hlenX cfg)%Q])] /\
    handshaken cfg surf_props mat_props n0 (Z.to_nat (m_num_tires cfg)) n'.
Proof.
  intros Hplat Hlen. unfold Initialize. cbv zeta.
  assert (m_tire_data (Construct cfg n) = m_tire_data n /\
          mpi_sent (Construct cfg n) = mpi_sent n /\
          m_init_height (Construct cfg n) = m_init_height n /\
          triangle_rigid (m_system (Construct cfg n)) = triangle_rigid (m_system n) /\
          (0 < length (ObA_rigid (m_system (Construct cfg n))))%nat /\
          (0 < length (box_like_rigid (m_system (Construct cfg n))))%nat)
    as (Htd & Hms & Hih & Htr & Ho & Hx).
  { destruct (m_constructed n) eqn:Hc.
    - rewrite Construct_done by exact Hc. destruct Hplat as [?|[? ?]]; [discriminate|].
      now repeat split.
    - destruct (Construct_spec cfg n Hc) as (_ & _ & ? & ? & ? & ? & ? & ? & _).
      now repeat split. }
  set (n1 := MPI_Send _ (with_system (SetChTime 0) (Construct cfg n))).
  destruct (adjust_platform_Ok n1) as (n0 & Hadj & Htd0 & Hbl0 & Htr0 & Hms0);
    [exact Ho | exact Hx |].
  rewrite Hadj. simpl.
  destruct (for_loop_ok
              (fun k st =>
                 handshaken cfg surf_props mat_props n0 k (fst st) /\
                 snd st = (u32 (prefix_sum (fun i => fst (surf_props i)) k),
                           u32 (prefix_sum (fun i => snd (surf_props i)) k)))
              (handshake cfg surf_props mat_props)
              (Z.to_nat (m_num_tires cfg)) 0 (n0, (0, 0)))
    as (r & Hr & Hinv & _).
  - split; [apply handshaken_0 | reflexivity].
  - intros k [nk st] Hk [Hh Hst]. simpl in Hh, Hst. subst st.
    destruct (handshake_step surf_props mat_props n0 k nk) as (n' & Hhs & Hh');
      [rewrite Htd0; unfold n1; simpl; rewrite Htd; lia | exact Hh |].
    eexists. split; [exact Hhs|]. now split.
  - rewrite Hr. exists n0, (fst r). split; [reflexivity|].
    split; [rewrite Htd0; unfold n1; simpl; exact Htd|].
    split; [exact Hbl0|].
    split; [rewrite Htr0; unfold n1; simpl; exact Htr|].
    split; [rewrite Hms0; unfold n1; simpl; now rewrite Hms, Hih|].
    exact Hinv.
Qed.

Lemma new_proxies_lookup (h0 count j : nat) :
  (j < count)%nat ->
  new_proxies h0 count !! j = Some (mkProxy (h0 + j) (to_int (Z.of_nat j))).
Proof.
  intros Hj. unfold new_proxies.
  change (map ?f ?l) with (f <$> l). rewrite list_lookup_fmap.
  now rewrite (proj2 (lookup_seq 0 count j j)) by (split; [reflexivity | exact Hj]).
Qed.

Lemma length_new_proxies (h0 count : nat) : length (new_proxies h0 count) = count.
Proof. unfold new_proxies. now rewrite length_map, length_seq. Qed.

Lemma prefix_count_mono (f : nat -> nat) (i k : nat) :
  (i <= k)%nat -> (prefix_count f i <= prefix_count f k)%nat.
Proof. induction 1; simpl; lia. Qed.

Lemma prefix_count_lt (f : nat -> nat) (i k j : nat) :
  (i < k)%nat -> (j < f i)%nat -> (prefix_count f i + j < prefix_count f k)%nat.
Proof.
  intros Hi Hj. pose proof (prefix_count_mono f (Datatypes.S i) k Hi) as H.
  simpl in H. lia.
Qed.

Lemma identifier_proxy_body (t : TireData) (j : nat) :
  identifier (proxy_body cfg t j) = to_int (u32 (elements_start cfg t + Z.of_nat j)).
Proof. unfold proxy_body, elements_start. now destruct (m_type cfg). Qed.

(** The proxies and proxy bodies of tire [i] after the handshakes, for
    tires that had no proxy before. *)
Lemma handshaken_proxies (surf_props : nat -> Z * Z) (mat_props : nat -> list Q)
    (n0 n' : TerrainNode) (k i : nat) :
  handshaken cfg surf_props mat_props n0 k n' ->
  (forall i t0, m_tire_data n0 !! i = Some t0 -> m_proxies t0 = []) ->
  (k <= length (m_tire_data n0))%nat ->
  (i < k)%nat ->
  exists t,
    m_tire_data n' !! i = Some t /\
    m_num_vert t = fst (surf_props i) /\
    m_num_tri t = snd (surf_props i) /\
    m_start_vert t = u32 (prefix_sum (fun i => fst (surf_props i)) i) /\
    m_start_tri t = u32 (prefix_sum (fun i => snd (surf_props i)) i) /\
    m_material_tire t = Some (tire_material cfg (mat_props i)) /\
    length (m_vertex_states t) = Z.to_nat (m_num_vert t) /\
    length (m_triangles t) = Z.to_nat (m_num_tri t) /\
    Z.to_nat (elements_count cfg t) = proxy_count cfg surf_props i /\
    m_proxies t =
      new_proxies
        (length (bodylist (m_system n0)) + prefix_count (proxy_count cfg surf_props) i)
        (proxy_count cfg surf_props i) /\
    forall j, (j < proxy_count cfg surf_props i)%nat ->
      bodylist (m_system n') !!
        (length (bodylist (m_system n0))
         + prefix_count (proxy_count cfg surf_props) i + j)%nat
      = Some (proxy_body cfg t j).
Proof.
  intros (Hlen & Htd & Hbl & Hold & Hbody & Htri & Hmsg) Hfresh Hk Hi.
  destruct (lookup_lt_is_Some_2 (m_tire_data n0) i) as [t0 Ht0]; [lia|].
  pose proof (Htd i t0 Ht0) as Ht.
  destruct (decide (i < k)%nat) as [_|?]; [|lia].
  eexists. split; [exact Ht|].
  unfold tire_after_handshake. cbn [m_num_vert m_num_tri m_start_vert m_start_tri
    m_material_tire m_vertex_states m_triangles m_proxies].
  rewrite (Hfresh i t0 Ht0), !length_resize. repeat split.
  intros j Hj. apply (Hbody i j _ Hi Hj). rewrite Ht.
  unfold tire_after_handshake. now rewrite (Hfresh i t0 Ht0).
Qed.

Lemma prefix_sum_mono (f : nat -> Z) (i k : nat) :
  (forall j, 0 <= f j) -> (i <= k)%nat -> 0 <= prefix_sum f i <= prefix_sum f k.
Proof.
  intros Hf Hik. assert (forall m, 0 <= prefix_sum f m) as H0.
  { induction m as [|m IH]; simpl; [lia | specialize (Hf m); lia]. }
  split; [apply H0|]. induction Hik as [|k Hik IH]; [lia|].
  simpl. specialize (Hf k). lia.
Qed.

Lemma handshaken_offsets (surf_props : nat -> Z * Z) (mat_props : nat -> list Q)
    (n0 n' : TerrainNode) (k i : nat) :
  handshaken cfg surf_props mat_props n0 k n' ->
  (k <= length (m_tire_data n0))%nat ->
  (i < k)%nat ->
  exists t,
    m_tire_data n' !! i = Some t /\
    m_num_vert t = fst (surf_props i) /\
    m_num_tri t = snd (surf_props i) /\
    m_start_vert t = u32 (prefix_sum (fun i => fst (surf_props i)) i) /\
    m_start_tri t = u32 (prefix_sum (fun i => snd (surf_props i)) i).
Proof.
  intros (Hlen & Htd & _) Hk Hi.
  destruct (lookup_lt_is_Some_2 (m_tire_data n0) i) as [t0 Ht0]; [lia|].
  pose proof (Htd i t0 Ht0) as Ht.
  destruct (decide (i < k)%nat) as [_|?]; [|lia].
  eexists. split; [exact Ht|]. now repeat split.
Qed.

Lemma handshaken_offset_table (next : Z -> Z -> Z) (surf_props : nat -> Z * Z)
    (mat_props : nat -> list Q) (n0 n' : TerrainNode) (k : nat) :
  handshaken cfg surf_props mat_props n0 k n' ->
  (k <= length (m_tire_data n0))%nat ->
  (forall i, (Datatypes.S i < k)%nat ->
     next (u32 (prefix_sum (fun i => fst (surf_props i)) i)) (fst (surf_props i))
       = u32 (prefix_sum (fun i => fst (surf_props i)) (Datatypes.S i)) /\
     next (u32 (prefix_sum (fun i => snd (surf_props i)) i)) (snd (surf_props i))
       = u32 (prefix_sum (fun i => snd (surf_props i)) (Datatypes.S i))) ->
  offset_table next surf_props k n'.
Proof.
  intros Hh Hlen Hnext i Hi.
  destruct (handshaken_offsets _ _ _ _ _ i Hh Hlen Hi) as (t & Ht & Hv & Hr & Hsv & Hst).
  exists t. split; [exact Ht|]. split; [exact Hv|]. split; [exact Hr|]. split.
  - intros ->. now rewrite Hsv, Hst.
  - intros t' HS Ht'.
    destruct (handshaken_offsets _ _ _ _ _ (Datatypes.S i) Hh Hlen HS)
      as (t2 & Ht2 & _ & _ & Hsv2 & Hst2).
    rewrite Ht2 in Ht'. injection Ht' as <-.
    rewrite Hsv2, Hst2, Hsv, Hst, Hv, Hr. destruct (Hnext i HS) as [-> ->].
    now split.
Qed.

(** C2, as the code has it: [Initialize] returns, every tire has the
    counts it sent, the first tire starts at vertex 0 and triangle 0, and
    every next tire starts at the start of the previous one plus its
    count, reduced modulo 2^32 ([unsigned int] addition).  When the counts
    summed over all the tires fit an [unsigned int], the start of the next
    tire is exactly the start of the previous one plus its count: the
    ranges of the tires follow each other without gap or overlap. *)
Theorem Initialize_start_offsets (surf_props : nat -> Z * Z)
    (mat_props : nat -> list Q) (n : TerrainNode) :
  m_constructed n = false \/
    ((0 < length (ObA_rigid (m_system n)))%nat /\
     (0 < length (box_like_rigid (m_system n)))%nat) ->
  (Z.to_nat (m_num_tires cfg) <= length (m_tire_data n))%nat ->
  exists n',
    Initialize cfg surf_props mat_props n = Ok n' /\
    offset_table (fun start count => u32 (start + count)) surf_props
      (Z.to_nat (m_num_tires cfg)) n' /\
    (counts_fit surf_props (Z.to_nat (m_num_tires cfg)) ->
     offset_table Z.add surf_props (Z.to_nat (m_num_tires cfg)) n').
Proof.
  intros Hplat Hlen.
  destruct (Initialize_spec surf_props mat_props n Hplat Hlen)
    as (n0 & n' & HI & Htd0 & _ & _ & _ & Hh).
  rewrite <- Htd0 in Hlen.
  exists n'. split; [exact HI|]. split.
  - apply (handshaken_offset_table _ _ _ _ _ _ Hh Hlen).
    intros i _. simpl. now rewrite !u32_add_l.
  - intros (Hpos & Hfv & Hft).
    apply (handshaken_offset_table _ _ _ _ _ _ Hh Hlen).
    intros i HS.
    pose proof (prefix_sum_mono (fun i => fst (surf_props i)) (Datatypes.S i)
                  (Z.to_nat (m_num_tires cfg)) (fun j => proj1 (Hpos j))) as H1.
    pose proof (prefix_sum_mono (fun i => fst (surf_props i)) i
                  (Datatypes.S i) (fun j => proj1 (Hpos j))) as H2.
    pose proof (prefix_sum_mono (fun i => snd (surf_props i)) (Datatypes.S i)
                  (Z.to_nat (m_num_tires cfg)) (fun j => proj2 (Hpos j))) as H3.
    pose proof (prefix_sum_mono (fun i => snd (surf_props i)) i
                  (Datatypes.S i) (fun j => proj2 (Hpos j))) as H4.
    rewrite !u32_small by lia. now split.
Qed.

Lemma Initialize_proxies_spec (ident : Z -> Z -> Prop)
    (surf_props : nat -> Z * Z) (mat_props : nat -> list Q) (n : TerrainNode) :
  (forall g, ident (to_int (u32 g)) g) ->
  m_constructed n = false \/
    ((0 < length (ObA_rigid (m_system n)))%nat /\
     (0 < length (box_like_rigid (m_system n)))%nat) ->
  (Z.to_nat (m_num_tires cfg) <= length (m_tire_data n))%nat ->
  (forall i t0, m_tire_data n !! i = Some t0 -> m_proxies t0 = []) ->
  exists n',
    Initialize cfg surf_props mat_props n = Ok n' /\
    one_proxy_per_element cfg ident (Z.to_nat (m_num_tires cfg)) n' /\
    proxy_bodies_distinct (Z.to_nat (m_num_tires cfg)) n'.
Proof.
  intros Hident Hplat Hlen Hfresh.
  destruct (Initialize_spec surf_props mat_props n Hplat Hlen)
    as (n0 & n' & HI & Htd0 & _ & _ & _ & Hh).
  rewrite <- Htd0 in Hlen, Hfresh.
  exists n'. split; [exact HI|]. split.
  - intros i Hi.
    destruct (handshaken_proxies _ _ _ _ _ i Hh Hfresh Hlen Hi)
      as (t & Ht & _ & _ & _ & _ & _ & _ & _ & Hc & Hp & Hb).
    exists t. split; [exact Ht|]. split.
    + now rewrite Hp, length_new_proxies, Hc.
    + intros j Hj. rewrite Hc in Hj. eexists. eexists.
      split; [rewrite Hp; now apply new_proxies_lookup|].
      split; [apply (Hb j Hj)|]. split; [reflexivity|].
      rewrite identifier_proxy_body. apply Hident.
  - intros i i' j j' t t' p p' Hi Hi' Ht Ht' Hj Hj' Heq.
    destruct (handshaken_proxies _ _ _ _ _ i Hh Hfresh Hlen Hi)
      as (t1 & Ht1 & _ & _ & _ & _ & _ & _ & _ & _ & Hp & _).
    destruct (handshaken_proxies _ _ _ _ _ i' Hh Hfresh Hlen Hi')
      as (t2 & Ht2 & _ & _ & _ & _ & _ & _ & _ & _ & Hp' & _).
    rewrite Ht in Ht1. injection Ht1 as <-.
    rewrite Ht' in Ht2. injection Ht2 as <-.
    rewrite Hp in Hj. rewrite Hp' in Hj'.
    assert (j < proxy_count cfg surf_props i)%nat as Hlj
      by (apply lookup_lt_Some in Hj; now rewrite length_new_proxies in Hj).
    assert (j' < proxy_count cfg surf_props i')%nat as Hlj'
      by (apply lookup_lt_Some in Hj'; now rewrite length_new_proxies in Hj').
    rewrite new_proxies_lookup in Hj by exact Hlj.
    rewrite new_proxies_lookup in Hj' by exact Hlj'.
    injection Hj as <-. injection Hj' as <-. simpl in Heq.
    destruct (Nat.lt_trichotomy i i') as [Hlt|[->|Hgt]].
    + pose proof (prefix_count_lt (proxy_count cfg surf_props) i i' j Hlt Hlj). lia.
    + split; [reflexivity | lia].
    + pose proof (prefix_count_lt (proxy_count cfg surf_props) i' i j' Hgt Hlj'). lia.
Qed.

(** Where the code assigns the identifiers its comments promise: after
    [Initialize] on a node whose tires have no proxy yet, every tire has
    exactly one proxy per vertex (rigid terrain) or per triangle (granular
    terrain), no two proxies share a body, and the identifier of the body
    of local element [j] is the global index [start + j] whenever that is
    below 2^31.  In general [SetIdentifier] gets the [unsigned int] index
    converted to [int]. *)
Theorem Initialize_one_proxy_per_element (surf_props : nat -> Z * Z)
    (mat_props : nat -> list Q) (n : TerrainNode) :
  m_constructed n = false \/
    ((0 < length (ObA_rigid (m_system n)))%nat /\
     (0 < length (box_like_rigid (m_system n)))%nat) ->
  (Z.to_nat (m_num_tires cfg) <= length (m_tire_data n))%nat ->
  (forall i t0, m_tire_data n !! i = Some t0 -> m_proxies t0 = []) ->
  exists n',
    Initialize cfg surf_props mat_props n = Ok n' /\
    one_proxy_per_element cfg
      (fun id g => id = to_int (u32 g) /\ (0 <= g < 2 ^ 31 -> id = g))
      (Z.to_nat (m_num_tires cfg)) n' /\
    proxy_bodies_distinct (Z.to_nat (m_num_tires cfg)) n'.
Proof.
  apply Initialize_proxies_spec. intros g. split; [reflexivity|].
  intros Hg. rewrite u32_small by (unfold u32_modulus; lia). now apply to_int_small.
Qed.

End InitializeProperties.

(** ** Synchronize *)

Section SynchronizeProperties.

Context {E : Engine}.
Variable cfg : Config.

Lemma tires_kept_same n n' :
  m_tire_data n' = m_tire_data n -> mpi_sent n' = mpi_sent n -> tires_kept n n'.
Proof.
  intros Ht Hs. split; [exact Hs|]. split; [now rewrite Ht|].
  intros i t Hi. exists t. rewrite Ht. now repeat split.
Qed.

Lemma tires_kept_refl n : tires_kept n n.
Proof. now apply tires_kept_same. Qed.

Lemma tires_kept_trans n1 n2 n3 :
  tires_kept n1 n2 -> tires_kept n2 n3 -> tires_kept n1 n3.
Proof.
  intros (Hs1 & Hl1 & Ht1) (Hs2 & Hl2 & Ht2). split; [congruence|]. split; [congruence|].
  intros i t Ht. destruct (Ht1 i t Ht) as (t' & Ht' & ? & ? & ? & ? & ?).
  destruct (Ht2 i t' Ht') as (t'' & Ht'' & ? & ? & ? & ? & ?).
  exists t''. repeat split; congruence.
Qed.

Lemma with_proxy_body_kept h f n n' :
  with_proxy_body h f n = Ok n' -> tires_kept n n'.
Proof.
  intros H. apply with_proxy_body_Ok in H as (b & _ & ->). now apply tires_kept_same.
Qed.

Lemma set_shape_kept i x n n' : set_shape i x n = Ok n' -> tires_kept n n'.
Proof. intros H. apply set_shape_Ok in H as (_ & ->). now apply tires_kept_same. Qed.

Lemma with_tire_kept which f n n' :
  with_tire which f n = Ok n' ->
  (forall t, m_proxies (f t) = m_proxies t /\
             m_num_vert (f t) = m_num_vert t /\ m_num_tri (f t) = m_num_tri t /\
             m_start_vert (f t) = m_start_vert t /\ m_start_tri (f t) = m_start_tri t) ->
  tires_kept n n'.
Proof.
  intros H Hf. apply with_tire_Ok in H as (t & Ht & ->).
  split; [reflexivity|]. split; [simpl; apply length_insert|].
  intros i ti Hti. simpl. destruct (decide (i = which)) as [->|Hne].
  - rewrite list_lookup_insert_eq by (now apply lookup_lt_Some in Ht).
    rewrite Ht in Hti. injection Hti as <-. exists (f t). split; [reflexivity|]. apply Hf.
  - rewrite list_lookup_insert_ne by congruence. exists ti. now repeat split.
Qed.

Lemma for_loop_kept (body : nat -> TerrainNode -> result TerrainNode) k start n n' :
  (forall i n1 n2, body i n1 = Ok n2 -> tires_kept n1 n2) ->
  for_loop k start body n = Ok n' -> tires_kept n n'.
Proof.
  intros Hb H.
  apply (for_loop_inv (fun _ n1 => tires_kept n n1) body k start n n');
    [apply tires_kept_refl | | exact H].
  intros i n1 n2 _ H1 H2. eapply tires_kept_trans; [exact H1|]. now apply (Hb i).
Qed.

Lemma store_vertex_kept which nv buf iv n n' :
  store_vertex which nv buf iv n = Ok n' -> tires_kept n n'.
Proof.
  unfold store_vertex. intros H. inv_Ok H.
  apply with_tire_kept in H; [exact H|]. intros t0. now repeat split.
Qed.

Lemma store_triangle_kept which buf it n n' :
  store_triangle which buf it n = Ok n' -> tires_kept n n'.
Proof.
  unfold store_triangle. intros H. inv_Ok H.
  apply with_tire_kept in H; [exact H|]. intros t0. now repeat split.
Qed.

Lemma update_node_proxy_kept which iv n n' :
  update_node_proxy which iv n = Ok n' -> tires_kept n n'.
Proof.
  unfold update_node_proxy. intros H. inv_Ok H.
  repeat match goal with
    | H : with_proxy_body _ _ _ = Ok _ |- _ => apply with_proxy_body_kept in H
    end.
  eauto using tires_kept_trans.
Qed.

Lemma update_face_proxy_kept which it n n' :
  update_face_proxy which it n = Ok n' -> tires_kept n n'.
Proof.
  unfold update_face_proxy. intros H. inv_Ok H.
  repeat match goal with
    | H : with_proxy_body _ _ _ = Ok _ |- _ => apply with_proxy_body_kept in H
    | H : set_shape _ _ _ = Ok _ |- _ => apply set_shape_kept in H
    end.
  eauto 10 using tires_kept_trans.
Qed.

Lemma receive_tire_kept vd td which n n' :
  receive_tire cfg vd td which n = Ok n' -> tires_kept n n'.
Proof.
  unfold receive_tire, UpdateNodeProxies, UpdateFaceProxies. intros H. inv_Ok H.
  apply for_loop_kept in E1; [|intros; eapply store_vertex_kept; eassumption].
  apply for_loop_kept in E2; [|intros; eapply store_triangle_kept; eassumption].
  eapply tires_kept_trans; [exact E1|]. eapply tires_kept_trans; [exact E2|].
  destruct (m_type cfg); inv_Ok H.
  - eapply for_loop_kept; [|exact H]. intros; eapply update_node_proxy_kept; eassumption.
  - eapply for_loop_kept; [|exact H]. intros; eapply update_face_proxy_kept; eassumption.
Qed.

Lemma flat_map_seq_S {A : Type} (f : nat -> list A) (k : nat) :
  flat_map f (seq 0 (Datatypes.S k)) = flat_map f (seq 0 k) ++ f k.
Proof. rewrite seq_S, flat_map_app. simpl. now rewrite app_nil_r. Qed.

(** C1: when [Synchronize] is called with step number 0 and returns, the
    force-collection functions are not called (the vectors to send are
    empty whatever the state of the system), and what it sends is, for each
    tire in order, an empty vector of indices and an empty vector of
    forces. *)
Theorem Synchronize_first_step_sends_nothing (time : Q) (vert_data : nat -> list Q)
    (tri_data : nat -> list Z) (n n' : TerrainNode) :
  Synchronize cfg 0 time vert_data tri_data n = Ok n' ->
  (forall which n1, collect_forces cfg 0 which n1 = Ok ([], [])) /\
  mpi_sent n' =
    mpi_sent n ++
    flat_map (fun which => force_messages cfg 0 which [] [])
      (seq 0 (Z.to_nat (m_num_tires cfg))).
Proof.
  intros H. split; [reflexivity|].
  unfold Synchronize in H. inv_Ok H.
  apply for_loop_kept in E0; [|intros; eapply receive_tire_kept; eassumption].
  destruct E0 as (Hs & _). rewrite <- Hs.
  change (mpi_sent a) with (mpi_sent (with_system CalculateContactForces a)).
  apply (for_loop_inv
           (fun k nk =>
              mpi_sent nk =
                mpi_sent (with_system CalculateContactForces a) ++
                flat_map (fun which => force_messages cfg 0 which [] []) (seq 0 k))
           (send_forces cfg 0) (Z.to_nat (m_num_tires cfg)) 0
           (with_system CalculateContactForces a) n');
    [simpl; now rewrite app_nil_r | | exact H].
  intros k n1 n2 _ H1 H2. unfold send_forces in H2. simpl in H2.
  injection H2 as <-. rewrite flat_map_seq_S. simpl. rewrite H1, <- !app_assoc. reflexivity.
Qed.

Lemma store_vertex_loop_bound (which : nat) (nv : Z) (buf : list Q)
    (n n' : TerrainNode) :
  for_loop (Z.to_nat nv) 0 (store_vertex which nv buf) n = Ok n' ->
  Z.of_nat (length buf) < u32_modulus ->
  nv <= max_elements.
Proof.
  intros H Hbuf. unfold max_elements.
  destruct (Z_le_gt_dec nv 1431655765) as [Hle|Hgt]; [exact Hle|]. exfalso.
  apply (for_loop_body_Ok _ _ _ _ _ (Z.to_nat 1431655765)) in H as (s1 & s2 & Hb);
    [|lia].
  unfold store_vertex in Hb. cbv zeta in Hb.
  rewrite Z2Nat.id in Hb by lia.
  replace (u32 (u32 (3 * 1431655765) + 0)) with 4294967295 in Hb
    by (vm_compute; reflexivity).
  destruct (buf !! Z.to_nat 4294967295) eqn:E1; [|discriminate Hb].
  apply lookup_lt_Some in E1. unfold u32_modulus in Hbuf. lia.
Qed.

Lemma store_triangle_loop_bound (which : nat) (nt : Z) (buf : list Z)
    (n n' : TerrainNode) :
  for_loop (Z.to_nat nt) 0 (store_triangle which buf) n = Ok n' ->
  Z.of_nat (length buf) < u32_modulus ->
  nt <= max_elements.
Proof.
  intros H Hbuf. unfold max_elements.
  destruct (Z_le_gt_dec nt 1431655765) as [Hle|Hgt]; [exact Hle|]. exfalso.
  apply (for_loop_body_Ok _ _ _ _ _ (Z.to_nat 1431655765)) in H as (s1 & s2 & Hb);
    [|lia].
  unfold store_triangle in Hb. cbv zeta in Hb.
  rewrite Z2Nat.id in Hb by lia.
  replace (u32 (3 * 1431655765 + 0)) with 4294967295 in Hb
    by (vm_compute; reflexivity).
  destruct (buf !! Z.to_nat 4294967295) eqn:E1; [|discriminate Hb].
  apply lookup_lt_Some in E1. unfold u32_modulus in Hbuf. lia.
Qed.

Lemma length_take_u32 {A : Type} (x : Z) (l : list A) :
  Z.of_nat (length (take (Z.to_nat (u32 x)) l)) < u32_modulus.
Proof.
  pose proof (u32_range x). pose proof (firstn_le_length (Z.to_nat (u32 x)) l). lia.
Qed.

(** [Synchronize] gets through its receive loop for a tire only when the
    indices into the two buffers do not wrap around. *)
Lemma receive_tire_bounds vd td (which : nat) (n n' : TerrainNode) (t : TireData) :
  receive_tire cfg vd td which n = Ok n' ->
  m_tire_data n !! which = Some t ->
  m_num_vert t <= max_elements /\ m_num_tri t <= max_elements.
Proof.
  unfold receive_tire. intros H Ht. rewrite Ht in H. cbn [rget] in H. cbv zeta in H.
  inv_Ok H. split.
  - eapply store_vertex_loop_bound; [exact E0 | apply length_take_u32].
  - eapply store_triangle_loop_bound; [exact E1 | apply length_take_u32].
Qed.

Lemma contacting_S n t k :
  contacting n t (Datatypes.S k) =
  contacting n t k ++ (if negb (IsZero (proxy_force n t k)) then [k] else []).
Proof. unfold contacting. rewrite seq_S, List.filter_app. reflexivity. Qed.

Lemma contacting_lt n t k j : In j (contacting n t k) -> (j < k)%nat.
Proof.
  unfold contacting. rewrite filter_In, in_seq. lia.
Qed.

Lemma contacting_sorted n t k :
  StronglySorted Z.lt (map Z.of_nat (contacting n t k)).
Proof.
  induction k as [|k IH]; [constructor|].
  rewrite contacting_S, map_app. apply StronglySorted_app_2; [|exact IH|].
  - intros x1 x2 H1 H2. apply list_elem_of_In, in_map_iff in H1 as (j & <- & Hj).
    apply contacting_lt in Hj.
    destruct (negb (IsZero (proxy_force n t k))); simpl in H2.
    + apply list_elem_of_In in H2 as [<-|[]]. lia.
    + now apply elem_of_nil in H2.
  - destruct (negb _); simpl; repeat constructor.
Qed.

Lemma length_contact_forces n t (l : list nat) :
  length (flat_map (fun j => force_components (proxy_force n t j)) l)
  = (3 * length l)%nat.
Proof. induction l as [|j l IH]; simpl; lia. Qed.

Lemma ForcesNodeProxies_spec (which : nat) (n : TerrainNode) (t : TireData) :
  m_tire_data n !! which = Some t ->
  proxies_indexed t (Z.to_nat (m_num_vert t)) ->
  m_num_vert t <= 2 ^ 31 ->
  ForcesNodeProxies which n ([], []) =
  Ok (flat_map (fun j => force_components (proxy_force n t j))
        (contacting n t (Z.to_nat (m_num_vert t))),
      map Z.of_nat (contacting n t (Z.to_nat (m_num_vert t)))).
Proof.
  intros Ht Hidx Hnv. unfold ForcesNodeProxies. rewrite Ht. cbn [rget].
  destruct (for_loop_ok
              (fun k out =>
                 out = (flat_map (fun j => force_components (proxy_force n t j))
                          (contacting n t k),
                        map Z.of_nat (contacting n t k)))
              (force_node_proxy which n) (Z.to_nat (m_num_vert t)) 0 ([], []))
    as (r & Hr & ->); [reflexivity | | exact Hr].
  intros k out Hk ->. unfold force_node_proxy. rewrite Ht. cbn [rget fst snd].
  destruct (Hidx k) as (p & Hp & Hi); [lia|]. rewrite Hp. cbn [rget].
  assert (GetBodyContactForce (m_system n) (m_body p) = proxy_force n t k) as Hf
    by (unfold proxy_force; now rewrite Hp).
  rewrite Hf, contacting_S.
  destruct (negb (IsZero (proxy_force n t k))) eqn:Hz.
  - eexists. split; [reflexivity|].
    rewrite flat_map_app, map_app. simpl.
    rewrite Hi, to_int_small by lia. reflexivity.
  - eexists. split; [reflexivity|]. now rewrite !app_nil_r.
Qed.

Lemma length_contacting n t k : (length (contacting n t k) <= k)%nat.
Proof.
  induction k as [|k IH]; [simpl; lia|].
  rewrite contacting_S, length_app. destruct (negb _); simpl; lia.
Qed.

Lemma reported_ext (n1 n2 : TerrainNode) (which : nat) :
  m_system n1 = m_system n2 -> m_tire_data n1 = m_tire_data n2 ->
  reported_indices n1 which = reported_indices n2 which /\
  reported_forces n1 which = reported_forces n2 which.
Proof.
  intros Hs Ht. unfold reported_indices, reported_forces, contacting, proxy_force.
  now rewrite Hs, Ht.
Qed.

Lemma send_forces_rigid (step_number : Z) (which : nat) (n : TerrainNode)
    (t : TireData) :
  m_type cfg = RIGID -> 0 < step_number ->
  m_tire_data n !! which = Some t ->
  proxies_indexed t (Z.to_nat (m_num_vert t)) ->
  m_num_vert t <= max_elements ->
  send_forces cfg step_number which n =
  Ok (MPI_Send
        (mkMsg (TIRE_NODE_RANK cfg (Z.of_nat which)) step_number
           (MPI_DOUBLE (reported_forces n which)))
        (MPI_Send
           (mkMsg (TIRE_NODE_RANK cfg (Z.of_nat which)) step_number
              (MPI_INT (reported_indices n which)))
           n)).
Proof.
  intros Hty Hstep Ht Hidx Hnv. unfold max_elements in Hnv.
  unfold send_forces, collect_forces.
  rewrite (proj2 (Z.ltb_lt 0 step_number) Hstep), Hty.
  rewrite (ForcesNodeProxies_spec which n t Ht Hidx) by lia.
  unfold reported_indices, reported_forces. rewrite Ht. cbn [fst snd].
  pose proof (length_contacting n t (Z.to_nat (m_num_vert t))) as Hlen.
  rewrite length_map, to_int_small by lia.
  rewrite (take_ge (map _ _)) by (rewrite length_map; lia).
  rewrite (take_ge (flat_map _ _)) by (rewrite length_contact_forces; lia).
  reflexivity.
Qed.

(** C10: on rigid terrain, for a positive step number and proxies that
    carry the index [CreateNodeProxies] gave them, what [Synchronize] sends
    to each tire is the vector of the local vertex indices (positions in
    the tire's own proxy list, between 0 and the number of vertices of the
    tire) of the proxies with a nonzero contact force, in increasing order,
    and a vector of forces with three entries per index sent. *)
Theorem Synchronize_rigid_reports_local_indices (step_number : Z) (time : Q)
    (vert_data : nat -> list Q) (tri_data : nat -> list Z) (n n' : TerrainNode) :
  m_type cfg = RIGID ->
  0 < step_number ->
  (forall which t, m_tire_data n !! which = Some t ->
     proxies_indexed t (Z.to_nat (m_num_vert t))) ->
  Synchronize cfg step_number time vert_data tri_data n = Ok n' ->
  mpi_sent n' =
    mpi_sent n ++
    flat_map
      (fun which =>
         force_messages cfg step_number which (reported_indices n' which)
           (reported_forces n' which))
      (seq 0 (Z.to_nat (m_num_tires cfg))) /\
  forall which, (which < Z.to_nat (m_num_tires cfg))%nat ->
    StronglySorted Z.lt (reported_indices n' which) /\
    length (reported_forces n' which) = (3 * length (reported_indices n' which))%nat /\
    forall i, In i (reported_indices n' which) ->
      exists t j p,
        m_tire_data n' !! which = Some t /\
        i = Z.of_nat j /\ 0 <= i < m_num_vert t /\
        m_proxies t !! j = Some p /\ m_index p = i /\
        IsZero (GetBodyContactForce (m_system n') (m_body p)) = false.
Proof.
  intros Hty Hstep Hidx H. unfold Synchronize in H. inv_Ok H.
  (* the receive loop *)
  assert (tires_kept n a /\
          forall i t, (i < Z.to_nat (m_num_tires cfg))%nat ->
            m_tire_data n !! i = Some t -> m_num_vert t <= max_elements)
    as [Hkept Hbound].
  { apply (for_loop_inv
             (fun k nk =>
                tires_kept n nk /\
                forall i t, (i < k)%nat -> m_tire_data n !! i = Some t ->
                  m_num_vert t <= max_elements)
             (receive_tire cfg vert_data tri_data) (Z.to_nat (m_num_tires cfg)) 0 n a);
      [| | exact E0].
    - split; [apply tires_kept_refl | intros; lia].
    - intros k n1 n2 _ [Hk1 Hb1] Hr. split.
      + eapply tires_kept_trans; [exact Hk1 | eapply receive_tire_kept; exact Hr].
      + intros i t Hi Ht. destruct (decide (i = k)) as [->|Hne]; [|apply (Hb1 i); [lia|exact Ht]].
        destruct Hk1 as (_ & _ & Hk1). destruct (Hk1 k t Ht) as (t' & Ht' & _ & <- & _).
        apply (receive_tire_bounds _ _ _ _ _ _ Hr Ht'). }
  set (n2 := with_system CalculateContactForces a) in *.
  (* the send loop *)
  assert (m_system n' = m_system n2 /\ m_tire_data n' = m_tire_data n2 /\
          mpi_sent n' =
            mpi_sent n2 ++
            flat_map
              (fun which =>
                 force_messages cfg step_number which (reported_indices n2 which)
                   (reported_forces n2 which))
              (seq 0 (Z.to_nat (m_num_tires cfg)))) as (Hs' & Ht' & Hm').
  { apply (for_loop_inv
             (fun k nk =>
                m_system nk = m_system n2 /\ m_tire_data nk = m_tire_data n2 /\
                mpi_sent nk =
                  mpi_sent n2 ++
                  flat_map
                    (fun which =>
                       force_messages cfg step_number which
                         (reported_indices n2 which) (reported_forces n2 which))
                    (seq 0 k))
             (send_forces cfg step_number) (Z.to_nat (m_num_tires cfg)) 0 n2 n');
      [| | exact H].
    - repeat split. simpl. now rewrite app_nil_r.
    - intros k n3 n4 Hk (Hs3 & Ht3 & Hm3) Hsend.
      destruct (m_tire_data n3 !! k) as [t3|] eqn:Ek.
      + destruct Hkept as (_ & Hlen & Hk1).
        destruct (lookup_lt_is_Some_2 (m_tire_data n) k) as [t Ht].
        { rewrite <- Hlen. apply lookup_lt_Some with t3. rewrite Ht3 in Ek. exact Ek. }
        destruct (Hk1 k t Ht) as (ta & Hta & Hpa & Hva & _).
        assert (ta = t3) as -> by (rewrite Ht3 in Ek; unfold n2 in Ek; simpl in Ek; congruence).
        rewrite (send_forces_rigid step_number k n3 t3 Hty Hstep Ek) in Hsend.
        * injection Hsend as <-.
          destruct (reported_ext n3 n2 k Hs3 Ht3) as [-> ->].
          split; [exact Hs3|]. split; [exact Ht3|].
          rewrite flat_map_seq_S. cbn [mpi_sent MPI_Send].
          rewrite Hm3, <- !app_assoc. reflexivity.
        * intros j Hj. rewrite Hva in Hj. destruct (Hidx k t Ht j Hj) as (p & Hp & Hi).
          exists p. now rewrite Hpa.
        * rewrite Hva. apply (Hbound k t); [lia | exact Ht].
      + unfold send_forces, collect_forces in Hsend.
        rewrite (proj2 (Z.ltb_lt 0 step_number) Hstep), Hty in Hsend.
        unfold ForcesNodeProxies in Hsend. rewrite Ek in Hsend. discriminate Hsend. }
  split.
  - destruct Hkept as (Hsent & _). rewrite Hm'. unfold n2 at 1. simpl. rewrite Hsent.
    f_equal. apply flat_map_ext. intros which.
    now destruct (reported_ext n' n2 which Hs' Ht') as [-> ->].
  - intros which Hwhich. unfold reported_indices, reported_forces.
    destruct (m_tire_data n' !! which) as [t'|] eqn:Et'.
    + split; [apply contacting_sorted|]. split; [now rewrite length_contact_forces, length_map|].
      intros i Hi. apply in_map_iff in Hi as (j & <- & Hj).
      pose proof (contacting_lt _ _ _ _ Hj) as Hlt.
      unfold contacting in Hj. apply filter_In in Hj as [_ Hz].
      apply negb_true_iff in Hz.
      destruct Hkept as (_ & Hlen & Hk1).
      destruct (lookup_lt_is_Some_2 (m_tire_data n) which) as [t Ht].
      { rewrite <- Hlen. apply lookup_lt_Some with t'. rewrite Ht' in Et'. exact Et'. }
      destruct (Hk1 which t Ht) as (ta & Hta & Hpa & Hva & _).
      assert (ta = t') as -> by (rewrite Ht' in Et'; unfold n2 in Et'; simpl in Et'; congruence).
      rewrite Hva in Hlt. destruct (Hidx which t Ht j Hlt) as (p & Hp & Hip).
      rewrite <- Hpa in Hp. unfold proxy_force in Hz. rewrite Hp in Hz.
      exists t', j, p. split; [reflexivity|]. split; [reflexivity|].
      split; [rewrite Hva; lia|]. split; [exact Hp|]. split; [|exact Hz].
      rewrite Hip. apply to_int_small.
      pose proof (Hbound which t Hwhich Ht) as Hb. unfold max_elements in Hb. lia.
    + split; [constructor|]. split; [reflexivity|]. intros i [].
Qed.

Lemma accumulate_snoc (l : list ChVector) (f : ChVector) :
  accumulate (l ++ [f]) =
  Some match accumulate l with Some g => Vadd g f | None => f end.
Proof.
  destruct l as [|a l]; [reflexivity|]. simpl. now rewrite fold_left_app.
Qed.

Lemma add_force_lookup (c : Z) (f : ChVector) (my_map : gmap Z ChVector)
    (shares : Z -> list ChVector) :
  (forall v, my_map !! v = accumulate (shares v)) ->
  forall v,
    add_force c f my_map !! v
    = accumulate (shares v ++ (if decide (c = v) then [f] else [])).
Proof.
  intros Hm v. unfold add_force. destruct (decide (c = v)) as [->|Hne].
  - rewrite accumulate_snoc, <- Hm.
    destruct (my_map !! v); now rewrite lookup_insert_eq.
  - rewrite app_nil_r, <- Hm.
    destruct (my_map !! c); now rewrite lookup_insert_ne.
Qed.

Lemma contributions_S n t k v :
  contributions n t (Datatypes.S k) v =
  contributions n t k v ++
  match m_triangles t !! k with
  | Some tri =>
      if IsZero (proxy_force n t k) then []
      else corner_shares tri (third (proxy_force n t k)) v
  | None => []
  end.
Proof.
  unfold contributions. rewrite seq_S, flat_map_app. simpl. now rewrite app_nil_r.
Qed.

Lemma face_force_map_spec (which : nat) (n : TerrainNode) (t : TireData)
    (my_map : gmap Z ChVector) :
  m_tire_data n !! which = Some t ->
  face_force_map which n = Ok my_map ->
  forall v, my_map !! v = accumulate (contributions n t (Z.to_nat (m_num_tri t)) v).
Proof.
  intros Ht H. unfold face_force_map in H. rewrite Ht in H. cbn [rget] in H.
  apply (for_loop_inv
           (fun k (m : gmap Z ChVector) =>
              forall v, m !! v = accumulate (contributions n t k v))
           (force_face_proxy which n) (Z.to_nat (m_num_tri t)) 0 ∅ my_map);
    [intros v; apply lookup_empty | | exact H].
  clear H. intros k m m' _ Hm H v. unfold force_face_proxy in H.
  rewrite Ht in H. cbn [rget] in H.
  destruct (m_triangles t !! k) as [tri|] eqn:Etri; cbn [rget] in H; [|discriminate H].
  destruct (m_proxies t !! k) as [p|] eqn:Ep; cbn [rget] in H; [|discriminate H].
  assert (GetBodyContactForce (m_system n) (m_body p) = proxy_force n t k) as Hf
    by (unfold proxy_force; now rewrite Ep).
  rewrite Hf in H. rewrite contributions_S, Etri.
  destruct (IsZero (proxy_force n t k)).
  - injection H as <-. now rewrite app_nil_r.
  - injection H as <-. unfold corner_shares. rewrite !app_assoc.
    set (F := third (proxy_force n t k)).
    pose (s1 := fun u : Z =>
                  contributions n t k u ++ (if decide (v1 tri = u) then [F] else [])).
    pose (s2 := fun u : Z => s1 u ++ (if decide (v2 tri = u) then [F] else [])).
    apply (add_force_lookup (v3 tri) F _ s2).
    apply (add_force_lookup (v2 tri) F _ s1).
    apply (add_force_lookup (v1 tri) F _ (contributions n t k)). exact Hm.
Qed.

Lemma Veq_fold_left_Vadd (rest : list ChVector) (f : ChVector) :
  Veq (fold_left Vadd rest f) (Vsum (f :: rest)).
Proof.
  revert f. induction rest as [|a rest IH]; intros f.
  - unfold Veq. simpl. repeat split; lra.
  - simpl. destruct (IH (Vadd f a)) as (Hx & Hy & Hz).
    unfold Veq. simpl in *. repeat split; lra.
Qed.

Lemma load_output_spec (my_map : gmap Z ChVector) (out : list Q * list Z) :
  load_output my_map out =
  (fst out ++ flat_map (fun kv => force_components (snd kv)) (map_to_list my_map),
   snd out ++ map fst (map_to_list my_map)).
Proof.
  unfold load_output. generalize (map_to_list my_map) as kvs. revert out.
  intros out kvs. revert out. induction kvs as [|kv kvs IH]; intros [fs is_].
  - simpl. now rewrite !app_nil_r.
  - simpl. rewrite IH. simpl. now rewrite <- !app_assoc.
Qed.

(** C3: when [ForcesFaceProxies] returns, every vertex index is emitted at
    most once; a vertex is emitted exactly when it is a corner of some
    triangle whose proxy has a nonzero force; and the force emitted for it
    is what the map entry accumulated: a third of the force [F] of such a
    triangle for each corner of the triangle that is this vertex, added up
    over the triangles in order, which is the sum of all these shares.  A
    triangle whose proxy has a zero force contributes no share. *)
Theorem ForcesFaceProxies_distributes_thirds (which : nat) (n : TerrainNode)
    (t : TireData) (vert_forces : list Q) (vert_indices : list Z) :
  m_tire_data n !! which = Some t ->
  ForcesFaceProxies which n ([], []) = Ok (vert_forces, vert_indices) ->
  exists emitted : list (Z * ChVector),
    vert_indices = map fst emitted /\
    vert_forces = flat_map (fun kv => force_components (snd kv)) emitted /\
    NoDup vert_indices /\
    forall v,
      (In v vert_indices <->
       contributions n t (Z.to_nat (m_num_tri t)) v <> []) /\
      forall f, In (v, f) emitted ->
        accumulate (contributions n t (Z.to_nat (m_num_tri t)) v) = Some f /\
        Veq f (Vsum (contributions n t (Z.to_nat (m_num_tri t)) v)).
Proof.
  intros Ht H. unfold ForcesFaceProxies in H.
  destruct (face_force_map which n) as [my_map| |] eqn:Hm; try discriminate H.
  rewrite load_output_spec in H. injection H as <- <-.
  pose proof (face_force_map_spec which n t my_map Ht Hm) as Hlook.
  exists (map_to_list my_map). split; [reflexivity|]. split; [reflexivity|].
  split; [change (NoDup ((map_to_list my_map).*1)); apply NoDup_fst_map_to_list|].
  intros v. split.
  - rewrite in_map_iff. split.
    + intros ([u f] & <- & Hin). apply list_elem_of_In, elem_of_map_to_list in Hin.
      simpl. rewrite Hlook in Hin. intros Hnil. now rewrite Hnil in Hin.
    + intros Hne. destruct (my_map !! v) as [f|] eqn:Hv.
      * exists (v, f). split; [reflexivity|].
        now apply list_elem_of_In, elem_of_map_to_list.
      * rewrite Hlook in Hv.
        destruct (contributions n t (Z.to_nat (m_num_tri t)) v); [contradiction|discriminate].
  - intros f Hin. apply list_elem_of_In, elem_of_map_to_list in Hin.
    rewrite Hlook in Hin. split; [exact Hin|].
    destruct (contributions n t (Z.to_nat (m_num_tri t)) v) as [|a rest];
      [discriminate|]. injection Hin as <-. apply Veq_fold_left_Vadd.
Qed.

Lemma with_proxy_body_twice h x g n n1 n2 b :
  bodylist (m_system n) !! h = Some b ->
  n1 = set_system (set_bodylist (<[h := x]> (bodylist (m_system n))) (m_system n)) n ->
  with_proxy_body h g n1 = Ok n2 ->
  n2 = set_system
         (set_bodylist (<[h := g x]> (bodylist (m_system n))) (m_system n)) n.
Proof.
  intros Hb -> H. apply with_proxy_body_Ok in H as (b' & Hb' & ->).
  simpl in Hb'. rewrite list_lookup_insert_eq in Hb' by (now apply lookup_lt_Some in Hb).
  injection Hb' as <-. simpl. now rewrite list_insert_insert_eq.
Qed.

Lemma update_face_proxy_Ok (which it : nat) (n n' : TerrainNode) (t : TireData) :
  m_tire_data n !! which = Some t ->
  update_face_proxy which it n = Ok n' ->
  exists tri sA sB sC proxy body,
    m_triangles t !! it = Some tri /\
    at_int (m_vertex_states t) (v1 tri) = Some sA /\
    at_int (m_vertex_states t) (v2 tri) = Some sB /\
    at_int (m_vertex_states t) (v3 tri) = Some sC /\
    m_proxies t !! it = Some proxy /\
    bodylist (m_system n) !! m_body proxy = Some body /\
    m_tire_data n' = m_tire_data n /\
    mpi_sent n' = mpi_sent n /\
    bodylist (m_system n') =
      <[m_body proxy := updated_face_body sA sB sC body]> (bodylist (m_system n)) /\
    (shape_slot t it 0 < length (triangle_rigid (m_system n)))%nat /\
    (shape_slot t it 1 < length (triangle_rigid (m_system n)))%nat /\
    (shape_slot t it 2 < length (triangle_rigid (m_system n)))%nat /\
    let c := Vdiv (Vadd (Vadd (vs_pos sA) (vs_pos sB)) (vs_pos sC)) 3 in
    triangle_rigid (m_system n') =
      <[shape_slot t it 2 := Vsub (vs_pos sC) c]>
        (<[shape_slot t it 1 := Vsub (vs_pos sB) c]>
           (<[shape_slot t it 0 := Vsub (vs_pos sA) c]>
              (triangle_rigid (m_system n)))).
Proof.
  intros Ht H. unfold update_face_proxy in H. rewrite Ht in H. cbn [rget] in H.
  destruct (m_triangles t !! it) as [tri|] eqn:Etri; cbn [rget] in H; [|discriminate H].
  destruct (at_int (m_vertex_states t) (v1 tri)) as [sA|] eqn:EA;
    cbn [rget] in H; [|discriminate H].
  destruct (at_int (m_vertex_states t) (v2 tri)) as [sB|] eqn:EB;
    cbn [rget] in H; [|discriminate H].
  destruct (at_int (m_vertex_states t) (v3 tri)) as [sC|] eqn:EC;
    cbn [rget] in H; [|discriminate H].
  cbv zeta in H.
  destruct (m_proxies t !! it) as [proxy|] eqn:Ep; cbn [rget] in H; [|discriminate H].
  inv_Ok H.
  apply with_proxy_body_Ok in E0 as (body & Hb & Ha).
  pose proof (with_proxy_body_twice _ _ _ _ _ _ _ Hb Ha E1) as Ha0.
  pose proof (with_proxy_body_twice _ _ _ _ _ _ _ Hb Ha0 E2) as Ha1.
  pose proof (with_proxy_body_twice _ _ _ _ _ _ _ Hb Ha1 E3) as Ha2.
  apply set_shape_Ok in E4 as (H0 & Ha3).
  apply set_shape_Ok in E5 as (H1 & Ha4).
  apply set_shape_Ok in H as (H2 & Ha5).
  exists tri, sA, sB, sC, proxy, body.
  subst. simpl in *. rewrite !length_insert in *.
  repeat split; assumption.
Qed.

Lemma u32_add_3 a b c : u32 (u32 (u32 a + u32 b) + c) = u32 (a + b + c).
Proof.
  unfold u32. rewrite Zplus_mod_idemp_l.
  replace (a mod u32_modulus + b mod u32_modulus + c)
    with (a mod u32_modulus + (b mod u32_modulus + c)) by lia.
  rewrite Zplus_mod_idemp_l.
  replace (a + (b mod u32_modulus + c)) with (b mod u32_modulus + (a + c)) by lia.
  rewrite Zplus_mod_idemp_l. f_equal. lia.
Qed.

Lemma shape_slot_inj (t : TireData) (it it' : nat) (a b : Z) :
  0 <= a < 3 -> 0 <= b < 3 ->
  Z.of_nat it < max_elements -> Z.of_nat it' < max_elements ->
  shape_slot t it a = shape_slot t it' b -> it = it' /\ a = b.
Proof.
  unfold shape_slot, max_elements. intros Ha Hb Hi Hi' H.
  rewrite !u32_add_3 in H.
  pose proof (u32_range (3 * m_start_tri t + 3 * Z.of_nat it + a)) as R1.
  pose proof (u32_range (3 * m_start_tri t + 3 * Z.of_nat it' + b)) as R2.
  apply Z2Nat.inj in H; [|lia|lia].
  unfold u32, u32_modulus in *.
  pose proof (Z.div_mod (3 * m_start_tri t + 3 * Z.of_nat it + a) (2 ^ 32)) as D1.
  pose proof (Z.div_mod (3 * m_start_tri t + 3 * Z.of_nat it' + b) (2 ^ 32)) as D2.
  lia.
Qed.

Lemma UpdateFaceProxies_spec (which : nat) (n n' : TerrainNode) (t : TireData) :
  m_tire_data n !! which = Some t ->
  proxy_handles_distinct t ->
  m_num_tri t <= max_elements ->
  UpdateFaceProxies which n = Ok n' ->
  m_tire_data n' = m_tire_data n /\
  forall it, (it < Z.to_nat (m_num_tri t))%nat -> face_proxy_updated n' t it.
Proof.
  intros Ht Hdist Hnt H. unfold UpdateFaceProxies in H. rewrite Ht in H.
  cbn [rget] in H.
  apply (for_loop_inv
           (fun k nk =>
              m_tire_data nk = m_tire_data n /\
              forall it, (it < k)%nat -> face_proxy_updated nk t it)
           (update_face_proxy which) (Z.to_nat (m_num_tri t)) 0 n n');
    [split; [reflexivity | intros; lia] | | exact H].
  clear H. intros k nk nk' Hk [Htd Hdone] Hstep.
  assert (m_tire_data nk !! which = Some t) as Htk by now rewrite Htd.
  destruct (update_face_proxy_Ok which k nk nk' t Htk Hstep)
    as (tri & sA & sB & sC & proxy & body & Etri & EA & EB & EC & Ep & Hb &
        Htd' & _ & Hbl & H0 & H1 & H2 & Htr).
  cbv zeta in Htr.
  assert (Z.of_nat k < max_elements) as Hkm by lia.
  split; [congruence|]. intros it Hit.
  destruct (decide (it = k)) as [->|Hne].
  - exists tri, sA, sB, sC, proxy, (updated_face_body sA sB sC body).
    repeat split; try assumption.
    + rewrite Hbl. apply list_lookup_insert_eq. now apply lookup_lt_Some in Hb.
    + rewrite Htr.
      rewrite list_lookup_insert_ne
        by (intros Heq; apply shape_slot_inj in Heq; lia).
      rewrite list_lookup_insert_ne
        by (intros Heq; apply shape_slot_inj in Heq; lia).
      now apply list_lookup_insert_eq.
    + rewrite Htr.
      rewrite list_lookup_insert_ne
        by (intros Heq; apply shape_slot_inj in Heq; lia).
      apply list_lookup_insert_eq. now rewrite length_insert.
    + rewrite Htr. apply list_lookup_insert_eq. now rewrite !length_insert.
  - assert (it < k)%nat as Hlt by lia.
    destruct (Hdone it Hlt)
      as (tri' & sA' & sB' & sC' & proxy' & body' & Etri' & EA' & EB' & EC' & Ep' &
          Hb' & Hp' & Hr' & Hv' & Hw' & S0 & S1 & S2).
    assert (Z.of_nat it < max_elements) as Him by lia.
    exists tri', sA', sB', sC', proxy', body'.
    repeat split; try assumption.
    + rewrite Hbl. rewrite list_lookup_insert_ne; [exact Hb'|].
      intros Heq. apply Hne. symmetry. exact (Hdist _ _ _ _ Ep Ep' Heq).
    + rewrite Htr, !list_lookup_insert_ne; [exact S0| | |];
        intros Heq; apply shape_slot_inj in Heq; lia.
    + rewrite Htr, !list_lookup_insert_ne; [exact S1| | |];
        intros Heq; apply shape_slot_inj in Heq; lia.
    + rewrite Htr, !list_lookup_insert_ne; [exact S2| | |];
        intros Heq; apply shape_slot_inj in Heq; lia.
Qed.

Lemma proxy_bodies_distinct_tire (N : nat) (n : TerrainNode) (which : nat)
    (t : TireData) :
  proxy_bodies_distinct N n -> (which < N)%nat ->
  m_tire_data n !! which = Some t -> proxy_handles_distinct t.
Proof.
  intros Hd Hw Ht j j' p p' Hp Hp' Heq.
  now destruct (Hd which which j j' t t p p' Hw Hw Ht Ht Hp Hp' Heq).
Qed.

(** C8: on granular terrain, when [Synchronize] has stored the vertex
    states and the triangles of a tire whose proxies all have their own
    body, and the call of [UpdateFaceProxies] that follows returns, then for
    every triangle of the tire the body of its proxy is at the centroid
    [(pA + pB + pC) / 3] of its three vertices, has the identity
    orientation, the linear velocity [(vA + vB + vC) / 3] and a zero
    angular velocity, and the three corners of its contact shape in the
    triangle array are the vertex positions minus the centroid. *)
Theorem receive_tire_updates_face_proxies (vert_data : nat -> list Q)
    (tri_data : nat -> list Z) (which : nat) (n n' : TerrainNode) (t : TireData) :
  m_type cfg = GRANULAR ->
  m_tire_data n !! which = Some t ->
  proxy_handles_distinct t ->
  receive_tire cfg vert_data tri_data which n = Ok n' ->
  exists n1 t',
    UpdateFaceProxies which n1 = Ok n' /\
    m_tire_data n1 !! which = Some t' /\
    m_tire_data n' !! which = Some t' /\
    m_proxies t' = m_proxies t /\
    m_num_tri t' = m_num_tri t /\
    m_start_tri t' = m_start_tri t /\
    forall it, (it < Z.to_nat (m_num_tri t'))%nat -> face_proxy_updated n' t' it.
Proof.
  intros Hty Ht Hdist H.
  pose proof (receive_tire_bounds _ _ _ _ _ _ H Ht) as [_ Hnt].
  unfold receive_tire in H. rewrite Ht in H. cbn [rget] in H. cbv zeta in H.
  inv_Ok H. rewrite Hty in H.
  apply for_loop_kept in E0; [|intros; eapply store_vertex_kept; eassumption].
  apply for_loop_kept in E1; [|intros; eapply store_triangle_kept; eassumption].
  destruct (tires_kept_trans _ _ _ E0 E1) as (_ & _ & Hk).
  destruct (Hk which t Ht) as (t' & Ht' & Hp & _ & Hn & _ & Hs).
  destruct (UpdateFaceProxies_spec which a0 n' t' Ht') as [Htd Hall];
    [unfold proxy_handles_distinct; rewrite Hp; exact Hdist | congruence | exact H |].
  exists a0, t'. repeat split; try assumption. now rewrite Htd.
Qed.

End SynchronizeProperties.

(** ** Checkpoints *)

Section CheckpointProperties.

Context {E : Engine}.
Variable cfg : Config.

Lemma flat_map_skip_prefix {A B : Type} (f : A -> bool) (g : A -> B) (l : list A)
    (S : nat) :
  (forall i b, l !! i = Some b -> (f b = true <-> (i < S)%nat)) ->
  flat_map (fun b => if f b then [] else [g b]) l = map g (drop S l).
Proof.
  revert S. induction l as [|b l IH]; intros S H; [now destruct S|].
  simpl. destruct S as [|S].
  - destruct (f b) eqn:Hf.
    + apply (H O b) in Hf; [lia | reflexivity].
    + simpl. f_equal. rewrite (IH O); [reflexivity|].
      intros i b' Hi. specialize (H (Datatypes.S i) b' Hi). split; [|lia].
      intros Hb. apply H in Hb. lia.
  - destruct (f b) eqn:Hf.
    + simpl. apply IH. intros i b' Hi. specialize (H (Datatypes.S i) b' Hi).
      rewrite H. lia.
    + assert (f b = true) as Hf' by (apply (H O b); [reflexivity | lia]).
      congruence.
Qed.

Lemma WriteCheckpoint_lines (n : TerrainNode) :
  granular_layout n ->
  ck_lines (WriteCheckpoint n) =
  map (checkpoint_line) (drop (Z.to_nat (m_particles_start_index n))
                           (bodylist (m_system n))).
Proof.
  intros [_ Hlay]. unfold WriteCheckpoint. simpl.
  apply (flat_map_skip_prefix (fun b => identifier b <? m_Id_g n)).
  intros i b Hb. rewrite Z.ltb_lt. now apply Hlay.
Qed.

Lemma with_proxy_body_at h f n b :
  bodylist (m_system n) !! h = Some b ->
  with_proxy_body h f n =
  Ok (set_system (set_bodylist (<[h := f b]> (bodylist (m_system n))) (m_system n)) n).
Proof. intros Hb. unfold with_proxy_body, with_body. now rewrite Hb. Qed.

Lemma with_proxy_body_again h x g n :
  (h < length (bodylist (m_system n)))%nat ->
  with_proxy_body h g
    (set_system (set_bodylist (<[h := x]> (bodylist (m_system n))) (m_system n)) n)
  = Ok (set_system
          (set_bodylist (<[h := g x]> (bodylist (m_system n))) (m_system n)) n).
Proof.
  intros Hh. erewrite with_proxy_body_at
    by (simpl; now apply list_lookup_insert_eq).
  simpl. now rewrite list_insert_insert_eq.
Qed.

Lemma read_body_Ok (file : CheckpointFile) (start ib : nat) (n : TerrainNode)
    (line : CheckpointLine) (body : ChBody) :
  ck_lines file !! (ib - start)%nat = Some line ->
  bodylist (m_system n) !! ib = Some body ->
  identifier body = ck_id line ->
  read_body cfg file start ib n =
  Ok (set_system
        (set_bodylist (<[ib := restore_body line body]> (bodylist (m_system n)))
           (m_system n)) n).
Proof.
  intros Hl Hb Hid. unfold read_body. rewrite Hl, Hb. cbn [rget].
  unfold assert. rewrite Hid, Z.eqb_refl, orb_true_r. cbn [rbind].
  rewrite (with_proxy_body_at _ _ _ _ Hb). cbn [rbind].
  pose proof (lookup_lt_Some _ _ _ Hb) as Hlt.
  rewrite (with_proxy_body_again _ _ _ _ Hlt). cbn [rbind].
  rewrite (with_proxy_body_again _ _ _ _ Hlt). cbn [rbind].
  rewrite (with_proxy_body_again _ _ _ _ Hlt). reflexivity.
Qed.

Lemma read_loop_spec (file : CheckpointFile) (start : nat) (nr : TerrainNode) :
  (forall i br, (start <= i)%nat -> bodylist (m_system nr) !! i = Some br ->
     exists line,
       ck_lines file !! (i - start)%nat = Some line /\ ck_id line = identifier br) ->
  exists bl,
    for_loop (length (bodylist (m_system nr)) - start) start
      (read_body cfg file start) nr
    = Ok (set_system (set_bodylist bl (m_system nr)) nr) /\
    bodies_read file start (start + (length (bodylist (m_system nr)) - start))
      (bodylist (m_system nr)) bl.
Proof.
  intros Hlines.
  destruct (for_loop_ok
              (fun ib n =>
                 exists bl,
                   n = set_system (set_bodylist bl (m_system nr)) nr /\
                   bodies_read file start ib (bodylist (m_system nr)) bl)
              (read_body cfg file start)
              (length (bodylist (m_system nr)) - start) start nr)
    as (r & Hr & bl & -> & Hbl).
  - exists (bodylist (m_system nr)). split.
    + destruct nr as [? ? ? ? ? ? ? sys ? ?]. now destruct sys.
    + split; [reflexivity|]. intros i br Hi. rewrite Hi.
      destruct (decide (start <= i < start)%nat); [lia | reflexivity].
  - intros ib n Hib (bl & -> & Hlen & Hbl).
    destruct (lookup_lt_is_Some_2 (bodylist (m_system nr)) ib) as [br Hbr]; [lia|].
    destruct (Hlines ib br) as (line & Hline & Hid); [lia | exact Hbr |].
    pose proof (Hbl ib br Hbr) as Hcur.
    destruct (decide (start <= ib < ib)%nat) as [?|_]; [lia|].
    eexists. split.
    + apply (read_body_Ok file start ib _ line br Hline); [exact Hcur | now symmetry].
    + exists (<[ib := restore_body line br]> bl). split; [reflexivity|].
      split; [now rewrite length_insert|].
      intros i bi Hi. simpl. destruct (decide (i = ib)) as [->|Hne].
      * rewrite list_lookup_insert_eq by (rewrite Hlen; now apply lookup_lt_Some in Hbr).
        rewrite Hbr in Hi. injection Hi as <-.
        destruct (decide (start <= ib < Datatypes.S ib)%nat); [|lia].
        now rewrite Hline.
      * rewrite list_lookup_insert_ne by congruence. rewrite (Hbl i bi Hi).
        destruct (decide (start <= i < ib)%nat),
                 (decide (start <= i < Datatypes.S ib)%nat); try reflexivity; lia.
  - exists bl. now split.
Qed.

(** C5: take a node [nw] whose bodies are laid out as [Construct] lays
    them out, and a constructed node [nr] with the same bodies by
    identifier and position (in particular [nw] itself).  Reading with
    [Settle] the checkpoint written by [WriteCheckpoint] on [nw] returns,
    and every body of [nw] that qualifies as granular (identifier at least
    [m_Id_g]) is found at the same position of the body list with the
    position, orientation, linear velocity and quaternion rate that were
    written, each scalar as the text of the file gives it back
    ([csv_double]). *)
Theorem WriteCheckpoint_Settle_round_trip (nw nr : TerrainNode) :
  m_type cfg = GRANULAR ->
  m_use_checkpoint cfg = true ->
  granular_layout nw ->
  m_constructed nr = true ->
  same_particles nw nr ->
  exists n',
    Settle cfg (WriteCheckpoint nw) nr = Ok n' /\
    forall i bw,
      bodylist (m_system nw) !! i = Some bw ->
      m_Id_g nw <= identifier bw ->
      exists b', bodylist (m_system n') !! i = Some b' /\ restored_from bw b'.
Proof.
  intros Hty Hck [Hrange Hlay] Hcons (Hstart & Hnum & Hids).
  assert (length (bodylist (m_system nr)) = length (bodylist (m_system nw))) as Hlen
    by (rewrite <- (length_map identifier), Hids; apply length_map).
  assert (forall i br bw, bodylist (m_system nr) !! i = Some br ->
            bodylist (m_system nw) !! i = Some bw -> identifier br = identifier bw)
    as Hsame.
  { intros i br bw Hr Hw.
    assert (map identifier (bodylist (m_system nr)) !! i = Some (identifier br)) as H1
      by (change (map ?f ?l) with (f <$> l); now rewrite list_lookup_fmap, Hr).
    rewrite Hids in H1. change (map ?f ?l) with (f <$> l) in H1.
    rewrite list_lookup_fmap, Hw in H1. now injection H1. }
  set (start := Z.to_nat (m_particles_start_index nw)).
  pose proof (WriteCheckpoint_lines nw (conj Hrange Hlay)) as Hl. fold start in Hl.
  destruct (read_loop_spec (WriteCheckpoint nw) start nr) as (bl & Hloop & Hlenbl & Hbl).
  { intros i br Hi Hr.
    destruct (lookup_lt_is_Some_2 (bodylist (m_system nw)) i) as [bw Hw];
      [rewrite <- Hlen; now apply lookup_lt_Some in Hr|].
    exists (checkpoint_line bw). split; [|simpl; symmetry; now apply (Hsame i)].
    rewrite Hl. change (map ?f ?l) with (f <$> l).
    rewrite list_lookup_fmap, lookup_drop.
    replace (start + (i - start))%nat with i by lia. now rewrite Hw. }
  eexists. split.
  - unfold Settle, assert. rewrite Hty, orb_true_r. cbn [rbind].
    rewrite (Construct_done cfg nr Hcons), Hck.
    change (ck_num_particles (WriteCheckpoint nw)) with (m_num_particles nw).
    rewrite Hnum, Z.eqb_refl. cbn [negb].
    rewrite Hstart, to_int_small by exact Hrange.
    destruct (Z.ltb_spec (m_particles_start_index nw) 0) as [?|_]; [lia|].
    fold start. rewrite Hloop. cbn [rbind]. reflexivity.
  - intros i bw Hw Hq. simpl.
    destruct (lookup_lt_is_Some_2 (bodylist (m_system nr)) i) as [br Hr];
      [rewrite Hlen; now apply lookup_lt_Some in Hw|].
    assert (start <= i)%nat as Hi.
    { destruct (Nat.le_gt_cases start i) as [?|Hlt]; [assumption|].
      apply (Hlay i bw Hw) in Hlt. lia. }
    rewrite (Hbl i br Hr).
    destruct (decide (start <= i < start + (length (bodylist (m_system nr)) - start))%nat)
      as [_|Hn]; [|apply lookup_lt_Some in Hr; lia].
    rewrite Hl. change (map ?f ?l) with (f <$> l).
    rewrite list_lookup_fmap, lookup_drop.
    replace (start + (i - start))%nat with i by lia. rewrite Hw. simpl.
    eexists. split; [reflexivity|].
    unfold restored_from. simpl. repeat split. now apply (Hsame i).
Qed.

Lemma structural_bodies_identifier (b : ChBody) :
  In b (structural_bodies cfg) -> identifier b < 0.
Proof.
  unfold structural_bodies.
  destruct (m_fixed_proxies cfg), (m_type cfg); simpl;
    intros H; repeat (destruct H as [<-|H]; [simpl; lia|]); destruct H.
Qed.

Lemma length_structural_bodies : (length (structural_bodies cfg) <= 3)%nat.
Proof. unfold structural_bodies. destruct (m_fixed_proxies cfg); simpl; lia. Qed.

(** [Construct] leaves the bodies in the layout the checkpoint functions
    rely on. *)
Lemma Construct_granular_layout (n : TerrainNode) :
  m_constructed n = false ->
  (forall b, In b (bodylist (m_system n)) -> identifier b < 100000) ->
  Z.of_nat (length (bodylist (m_system n))) + 3 < 2 ^ 31 ->
  granular_layout (Construct cfg n).
Proof.
  intros Hc Hold Hsmall.
  destruct (Construct_spec cfg n Hc)
    as (_ & Hid & _ & _ & _ & _ & _ & _ & ps & Hbl & Hstart & Hps & _).
  pose proof length_structural_bodies as Hls.
  assert (m_particles_start_index (Construct cfg n)
          = Z.of_nat (length (bodylist (m_system n) ++ structural_bodies cfg))) as Hs.
  { rewrite Hstart. apply u32_small. rewrite length_app. unfold u32_modulus. lia. }
  split; [rewrite Hs, length_app; lia|].
  intros i b Hb. rewrite Hid, Hs, Nat2Z.id. rewrite Hbl in Hb.
  destruct (decide (i < length (bodylist (m_system n) ++ structural_bodies cfg))%nat)
    as [Hlt|Hge].
  - rewrite lookup_app_l in Hb by exact Hlt. split; [intros _; exact Hlt|]. intros _.
    apply list_elem_of_lookup_2, list_elem_of_In, in_app_or in Hb as [Hb|Hb].
    + now apply Hold.
    + apply structural_bodies_identifier in Hb. lia.
  - rewrite lookup_app_r in Hb by lia. apply Hps in Hb. lia.
Qed.

End CheckpointProperties.

(** ** Stepping *)

Section AdvanceSteps.

Context {E : Engine}.
Variable cfg : Config.

Lemma Advance_loop_done (fuel : nat) (step_size t : Q) (s : ChSystemParallel) :
  (step_size <= t)%Q -> Advance_loop cfg fuel step_size t s = Some (s, []).
Proof.
  intros H. apply Qltb_ge in H. destruct fuel; simpl; now rewrite H.
Qed.

(** The steps of the loop from time [t]: [k] steps of the micro step and a
    last step of what is left. *)
Lemma Advance_loop_shape (step_size : Q) :
  (0 < m_step_size cfg)%Q ->
  forall (fuel : nat) (t : Q) (s s' : ChSystemParallel) (hs : list Q),
    (t < step_size)%Q ->
    Advance_loop cfg fuel step_size t s = Some (s', hs) ->
    exists (k : nat) (last : Q),
      hs = replicate k (m_step_size cfg) ++ [last] /\
      (0 < last /\ last <= m_step_size cfg)%Q /\
      (step_size - t == inject_Z (Z.of_nat k) * m_step_size cfg + last)%Q.
Proof.
  intros Hm fuel. induction fuel as [|fuel IH]; intros t s s' hs Ht H.
  - simpl in H. apply Qltb_lt in Ht. rewrite Ht in H. discriminate.
  - simpl in H. pose proof Ht as Hlt. apply Qltb_lt in Hlt. rewrite Hlt in H.
    unfold std_min in H.
    destruct (Qltb (step_size - t) (m_step_size cfg)) eqn:Hc.
    + apply Qltb_lt in Hc.
      rewrite Advance_loop_done in H by lra.
      injection H as <- <-. exists O, (step_size - t)%Q.
      split; [reflexivity|]. split; [lra|].
      change (inject_Z (Z.of_nat 0)) with 0%Q. lra.
    + apply Qltb_ge in Hc.
      destruct (Advance_loop cfg fuel step_size (t + m_step_size cfg)
                  (DoStepDynamics (m_step_size cfg) s)) as [[s1 hs1]|] eqn:Hr;
        [|discriminate].
      injection H as <- <-. simpl.
      destruct (Qlt_le_dec (t + m_step_size cfg) step_size) as [Hn|Hn].
      * destruct (IH _ _ _ _ Hn Hr) as (k & last & -> & Hl & Hsum).
        exists (Datatypes.S k), last. split; [reflexivity|]. split; [exact Hl|].
        rewrite Nat2Z.inj_succ. unfold Z.succ. rewrite inject_Z_plus.
        change (inject_Z 1) with 1%Q. lra.
      * rewrite Advance_loop_done in Hr by exact Hn.
        injection Hr as <- <-. exists O, (m_step_size cfg).
        split; [reflexivity|]. split; [lra|].
        change (inject_Z (Z.of_nat 0)) with 0%Q. lra.
Qed.


(** X2: with a micro step that is not positive, the loop of [Advance]
    never ends on a positive macro step: no number of iterations reaches
    its end. *)
Theorem Advance_needs_positive_step_size (step_size : Q) (n : TerrainNode) :
  (m_step_size cfg <= 0)%Q -> (0 < step_size)%Q ->
  forall fuel, Advance cfg fuel step_size n = None.
Proof.
  intros Hm Hs fuel. unfold Advance.
  assert (forall fuel t s, (t <= 0)%Q -> Advance_loop cfg fuel step_size t s = None)
    as Hloop.
  { clear fuel. induction fuel as [|fuel IH]; intros t s Ht.
    - simpl. assert (Qltb t step_size = true) as -> by (apply Qltb_lt; lra).
      reflexivity.
    - simpl. assert (Qltb t step_size = true) as -> by (apply Qltb_lt; lra).
      rewrite IH; [reflexivity|].
      unfold std_min. destruct (Qltb (step_size - t) (m_step_size cfg)) eqn:Hc.
      + apply Qltb_lt in Hc. lra.
      + lra. }
  rewrite Hloop; [reflexivity | lra].
Qed.

(** X3: over exact rationals (the embedding of [double]), when the loop
    of [Advance] ends, every step but the last is exactly the micro step,
    and the number of steps is the macro step divided by the micro step,
    rounded up.  The count is a statement of exact arithmetic: in IEEE
    doubles the rounding of the running time [t] can leave a last step of
    rounding size, which the embedding does not model. *)
Theorem Advance_full_steps_then_remainder (fuel : nat) (step_size : Q)
    (s s' : ChSystemParallel) (hs : list Q) :
  (0 < m_step_size cfg)%Q -> (0 < step_size)%Q ->
  Advance_loop cfg fuel step_size 0 s = Some (s', hs) ->
  (forall i, (Datatypes.S i < length hs)%nat -> hs !! i = Some (m_step_size cfg)) /\
  Z.of_nat (length hs) = Qceiling (step_size / m_step_size cfg).
Proof.
  intros Hm Hs H.
  destruct (Advance_loop_shape step_size Hm fuel 0 s s' hs Hs H)
    as (k & last & -> & Hl & Hsum).
  split.
  - intros i Hi. rewrite length_app, length_replicate in Hi. simpl in Hi.
    rewrite lookup_app_l by (rewrite length_replicate; lia).
    apply lookup_replicate_2. lia.
  - rewrite length_app, length_replicate. simpl.
    set (m := m_step_size cfg) in *.
    assert (step_size / m == inject_Z (Z.of_nat k) + last / m)%Q as Hq.
    { field_simplify_eq; lra. }
    assert (0 < last / m /\ last / m <= 1)%Q as [Hlo Hhi].
    { split.
      - apply Qlt_shift_div_l; lra.
      - apply Qle_shift_div_r; lra. }
    pose proof (Qle_ceiling (step_size / m)) as Hc1.
    pose proof (Qceiling_lt (step_size / m)) as Hc2.
    unfold Z.sub in Hc2. rewrite inject_Z_plus in Hc2.
    change (inject_Z (-1)) with (-1)%Q in Hc2.
    revert Hq Hlo Hhi Hc1 Hc2.
    generalize (step_size / m)%Q (last / m)%Q. intros x y Hq Hlo Hhi Hc1 Hc2.
    clear Hsum H Hl. change (inject_Z (- (1))) with (-1)%Q in Hc2.
    assert (inject_Z (Z.of_nat k) < inject_Z (Qceiling x))%Q as H1 by lra.
    assert (inject_Z (Qceiling x) < inject_Z (Z.of_nat k + 2))%Q as H2.
    { rewrite inject_Z_plus. change (inject_Z 2) with 2%Q. lra. }
    rewrite <- Zlt_Qlt in H1, H2. lia.
Qed.

End AdvanceSteps.

(** ** Settling *)

Section SettleHeight.

Context {E : Engine}.
Variable cfg : Config.

Lemma find_height_from (bodies : list ChBody) (h0 : Q) :
  let f := fun (h : Q) (body : ChBody) =>
             if (0 <? identifier body) && Qltb h (vz (pos body))
             then vz (pos body) else h in
  (h0 <= fold_left f bodies h0)%Q /\
  (forall b, In b bodies -> 0 < identifier b ->
     (vz (pos b) <= fold_left f bodies h0)%Q) /\
  (fold_left f bodies h0 = h0 \/
   exists b, In b bodies /\ 0 < identifier b /\ fold_left f bodies h0 = vz (pos b)).
Proof.
  intros f. revert h0. induction bodies as [|b bodies IH]; intros h0; simpl.
  - split; [lra|]. split; [intros b []|now left].
  - destruct (IH (f h0 b)) as (Hle & Hall & Hatt).
    assert (h0 <= f h0 b)%Q as Hstep.
    { unfold f. destruct (0 <? identifier b); simpl; [|lra].
      destruct (Qltb h0 (vz (pos b))) eqn:Hc; [|lra]. apply Qltb_lt in Hc. lra. }
    split; [lra|]. split.
    + intros b' [<-|Hin] Hid; [|now apply Hall].
      assert (vz (pos b) <= f h0 b)%Q.
      { unfold f. apply Z.ltb_lt in Hid. rewrite Hid. simpl.
        destruct (Qltb h0 (vz (pos b))) eqn:Hc; [lra|]. apply Qltb_ge in Hc. lra. }
      lra.
    + destruct Hatt as [Heq|(b' & Hin & Hid & Heq)].
      * rewrite Heq. unfold f.
        destruct (0 <? identifier b) eqn:Hid; simpl; [|now left].
        destruct (Qltb h0 (vz (pos b))); [|now left].
        right. exists b. apply Z.ltb_lt in Hid. now repeat split; [left|..].
      * right. exists b'. now repeat split; [right|..].
Qed.

(** X7: when [Settle] returns, the initial height it records is one particle
    radius above the highest body with a positive identifier: no such body
    is higher, the height is at least one radius, and it is either exactly
    one radius (no such body above [z = 0]) or one radius above one of
    these bodies. *)
Theorem Settle_records_top_of_material (file : CheckpointFile) (n n' : TerrainNode) :
  Settle cfg file n = Ok n' ->
  (m_radius_g cfg <= m_init_height n')%Q /\
  (forall b, In b (bodylist (m_system n')) -> 0 < identifier b ->
     (vz (pos b) + m_radius_g cfg <= m_init_height n')%Q) /\
  ((m_init_height n' == m_radius_g cfg)%Q \/
   exists b, In b (bodylist (m_system n')) /\ 0 < identifier b /\
     m_init_height n' = (vz (pos b) + m_radius_g cfg)%Q).
Proof.
  intros H. unfold Settle in H. inv_Ok H. injection H as <-. simpl.
  destruct (find_height_from (bodylist (m_system a0)) 0) as (Hle & Hall & Hatt).
  fold (find_height (bodylist (m_system a0))) in Hle, Hall, Hatt.
  split; [lra|]. split.
  - intros b Hin Hid. specialize (Hall b Hin Hid). lra.
  - destruct Hatt as [Heq|(b & Hin & Hid & Heq)].
    + left. rewrite Heq. lra.
    + right. exists b. repeat split; try assumption. now rewrite Heq.
Qed.

End SettleHeight.

Section CheckpointReading.

Context {E : Engine}.
Variable cfg : Config.

Lemma restore_body_same_properties (line : CheckpointLine) (b : ChBody) :
  same_properties b (restore_body line b).
Proof. now repeat split. Qed.

Lemma same_properties_trans (a b c : ChBody) :
  same_properties a b -> same_properties b c -> same_properties a c.
Proof. unfold same_properties. intuition congruence. Qed.

Lemma read_body_inv (file : CheckpointFile) (start ib : nat) (n n' : TerrainNode) :
  read_body cfg file start ib n = Ok n' ->
  exists line body,
    ck_lines file !! (ib - start)%nat = Some line /\
    bodylist (m_system n) !! ib = Some body /\
    n' = set_system
           (set_bodylist (<[ib := restore_body line body]> (bodylist (m_system n)))
              (m_system n)) n.
Proof.
  intros H. unfold read_body in H.
  destruct (ck_lines file !! (ib - start)%nat) as [line|] eqn:Hl;
    cbn [rget] in H; [|discriminate].
  destruct (bodylist (m_system n) !! ib) as [body|] eqn:Hb;
    cbn [rget] in H; [|discriminate].
  exists line, body. split; [reflexivity|]. split; [reflexivity|].
  unfold assert in H.
  destruct (NDEBUG cfg || (identifier body =? ck_id line)); cbn [rbind] in H;
    [|discriminate].
  rewrite (with_proxy_body_at _ _ _ _ Hb) in H. cbn [rbind] in H.
  pose proof (lookup_lt_Some _ _ _ Hb) as Hlt.
  rewrite (with_proxy_body_again _ _ _ _ Hlt) in H. cbn [rbind] in H.
  rewrite (with_proxy_body_again _ _ _ _ Hlt) in H. cbn [rbind] in H.
  rewrite (with_proxy_body_again _ _ _ _ Hlt) in H. now injection H as <-.
Qed.

(** X8: reading a checkpoint only writes the kinematic state of the bodies
    from [m_particles_start_index] on: when [Settle] returns, the body list
    has the length [Construct] gave it, every body keeps its identifier,
    mass, inertia, fixed and collide flags, material and family, and the
    bodies before the start index are exactly as they were. *)
Theorem Settle_checkpoint_keeps_structure (file : CheckpointFile) (n n' : TerrainNode) :
  m_use_checkpoint cfg = true ->
  Settle cfg file n = Ok n' ->
  length (bodylist (m_system n')) = length (bodylist (m_system (Construct cfg n))) /\
  forall i b, bodylist (m_system (Construct cfg n)) !! i = Some b ->
    exists b',
      bodylist (m_system n') !! i = Some b' /\
      same_properties b b' /\
      (Z.of_nat i < to_int (m_particles_start_index (Construct cfg n)) -> b' = b).
Proof.
  intros Hck H. unfold Settle in H. rewrite Hck in H.
  destruct (assert cfg _ n) as [n0| |] eqn:Ha; cbn [rbind] in H; try discriminate.
  assert (n0 = n) as -> by (unfold assert in Ha; destruct (_ || _); congruence).
  set (nc := Construct cfg n) in *.
  set (start := to_int (m_particles_start_index nc)) in *.
  inv_Ok H. injection H as <-. simpl.
  destruct (negb _); [discriminate|].
  assert (forall i b, bodylist (m_system nc) !! i = Some b ->
            exists b', bodylist (m_system nc) !! i = Some b' /\
              same_properties b b' /\ (Z.of_nat i < start -> b' = b)) as Hrefl.
  { intros i b Hb. exists b. now repeat split. }
  destruct (start <? 0) eqn:Hneg; [injection E0 as <-; now split|].
  apply Z.ltb_ge in Hneg.
  apply (for_loop_inv
           (fun ib n1 =>
              length (bodylist (m_system n1)) = length (bodylist (m_system nc)) /\
              forall i b, bodylist (m_system nc) !! i = Some b ->
                exists b', bodylist (m_system n1) !! i = Some b' /\
                  same_properties b b' /\ (Z.of_nat i < start -> b' = b))
           _ _ _ _ _ (conj eq_refl Hrefl)) in E0; [exact E0|].
  intros ib n1 n2 Hib (Hlen & Hinv) Hrd.
  apply read_body_inv in Hrd as (line & body & _ & Hb & ->). simpl.
  split; [now rewrite length_insert|].
  intros i b Hi. destruct (Hinv i b Hi) as (b' & Hb' & Hsame & Hfix).
  destruct (decide (i = ib)) as [->|Hne].
  - rewrite Hb in Hb'. injection Hb' as ->.
    exists (restore_body line b').
    split; [apply list_lookup_insert_eq; now apply lookup_lt_Some in Hb|].
    split; [|lia].
    eapply same_properties_trans; [exact Hsame | apply restore_body_same_properties].
  - exists b'. rewrite list_lookup_insert_ne by congruence.
    split; [exact Hb'|]. split; [exact Hsame | exact Hfix].
Qed.

End CheckpointReading.

(** ** Checkpoint and particle output *)

Section CheckpointContent.

Context {E : Engine}.
Variable cfg : Config.




(** X6: the particle output and the checkpoint of a node list the same
    bodies in the same order, with the same identifiers, positions and
    linear velocities, and the same particle count in the header. *)
Theorem WriteParticleInformation_lists_checkpoint_bodies (n : TerrainNode) :
  pf_num_particles (WriteParticleInformation cfg n)
    = ck_num_particles (WriteCheckpoint n) /\
  map (fun l => (pl_id l, pl_pos l, pl_pos_dt l))
    (pf_lines (WriteParticleInformation cfg n))
  = map (fun l => (ck_id l, ck_pos l, ck_pos_dt l)) (ck_lines (WriteCheckpoint n)).
Proof.
  split; [reflexivity|].
  unfold WriteParticleInformation, WriteCheckpoint.
  cbn [pf_lines ck_lines].
  induction (bodylist (m_system n)) as [|b l IH]; [reflexivity|].
  simpl. destruct (identifier b <? m_Id_g n); [exact IH|].
  simpl. now rewrite IH.
Qed.

End CheckpointContent.

(** ** The container *)

Section ContainerGeometry.

Context {E : Engine}.
Variable cfg : Config.




End ContainerGeometry.

(** ** The handshake *)

Section InitializeMore.

Context {E : Engine}.
Variable cfg : Config.









(** X9: [Initialize] on a node that was not constructed returns, and all it
    sends is one message to the vehicle node, with tag 0, that holds the
    recorded height of the terrain and the half-length [m_hdimX + 2 m_hlenX];
    the handshakes with the tires send nothing. *)
Theorem Initialize_sends_initial_dimensions (surf_props : nat -> Z * Z)
    (mat_props : nat -> list Q) (n : TerrainNode) :
  m_constructed n = false ->
  (Z.to_nat (m_num_tires cfg) <= length (m_tire_data n))%nat ->
  exists n',
    Initialize cfg surf_props mat_props n = Ok n' /\
    mpi_sent n' =
      mpi_sent n ++
      [mkMsg (VEHICLE_NODE_RANK cfg) 0
         (MPI_DOUBLE [m_init_height n; (m_hdimX cfg + 2 * m_hlenX cfg)%Q])].
Proof.
  intros Hc Hlen.
  destruct (Initialize_spec cfg surf_props mat_props n (or_introl Hc) Hlen)
    as (n0 & n' & HI & _ & _ & _ & Hms & Hh).
  exists n'. split; [exact HI|].
  destruct Hh as (_ & _ & _ & _ & _ & _ & ->). exact Hms.
Qed.

(** X11: after [Initialize] on a node that was not constructed and whose
    tires had no proxy, every tire has the counts it sent, vertex and
    triangle tables of these sizes, and the contact material made from the
    eight floats it sent; the body of each of its proxies has this
    material, the proxy mass of the terrain type, the [m_fixed_proxies]
    flag, collision enabled and collision family 1, and is still at the
    origin, at rest. *)
Theorem Initialize_makes_proxy_bodies (surf_props : nat -> Z * Z)
    (mat_props : nat -> list Q) (n : TerrainNode) :
  m_constructed n = false ->
  (Z.to_nat (m_num_tires cfg) <= length (m_tire_data n))%nat ->
  (forall i t0, m_tire_data n !! i = Some t0 -> m_proxies t0 = []) ->
  exists n',
    Initialize cfg surf_props mat_props n = Ok n' /\
    forall i, (i < Z.to_nat (m_num_tires cfg))%nat ->
      exists t,
        m_tire_data n' !! i = Some t /\
        m_num_vert t = fst (surf_props i) /\
        m_num_tri t = snd (surf_props i) /\
        length (m_vertex_states t) = Z.to_nat (m_num_vert t) /\
        length (m_triangles t) = Z.to_nat (m_num_tri t) /\
        m_material_tire t = Some (tire_material cfg (mat_props i)) /\
        forall j p, m_proxies t !! j = Some p ->
          exists b,
            bodylist (m_system n') !! m_body p = Some b /\
            material b = Some (tire_material cfg (mat_props i)) /\
            mass b = match m_type cfg with
                     | RIGID => m_mass_pN cfg
                     | GRANULAR => m_mass_pF cfg
                     end /\
            body_fixed b = m_fixed_proxies cfg /\
            collide b = true /\ family b = Some 1 /\
            pos b = VNULL /\ pos_dt b = VNULL.
Proof.
  intros Hc Hlen Hfresh.
  destruct (Initialize_spec cfg surf_props mat_props n (or_introl Hc) Hlen)
    as (n0 & n' & HI & Htd0 & _ & _ & _ & Hh).
  rewrite <- Htd0 in Hlen, Hfresh.
  exists n'. split; [exact HI|]. intros i Hi.
  destruct (handshaken_proxies cfg _ _ _ _ _ i Hh Hfresh Hlen Hi)
    as (t & Ht & Hnv & Hnt & _ & _ & Hmat & Hlv & Hlt & _ & Hp & Hb).
  exists t. repeat (split; [assumption|]).
  intros j p Hj. rewrite Hp in Hj.
  assert (j < proxy_count cfg surf_props i)%nat as Hlj
    by (apply lookup_lt_Some in Hj; now rewrite length_new_proxies in Hj).
  rewrite new_proxies_lookup in Hj by exact Hlj. injection Hj as <-.
  eexists. split; [apply (Hb j Hlj)|].
  unfold proxy_body, node_proxy_body, face_proxy_body.
  destruct (m_type cfg); simpl; now rewrite Hmat.
Qed.

End InitializeMore.

(** ** Force collection *)

Section ForceConservation.

Context {E : Engine}.

Lemma Veq_refl a : Veq a a.
Proof. unfold Veq. repeat split; reflexivity. Qed.

Lemma Veq_sym a b : Veq a b -> Veq b a.
Proof. unfold Veq. intros (? & ? & ?). repeat split; now symmetry. Qed.

Lemma Veq_trans a b c : Veq a b -> Veq b c -> Veq a c.
Proof.
  unfold Veq. intros (H1 & H2 & H3) (H4 & H5 & H6).
  split; [now rewrite H1|]. split; [now rewrite H2 | now rewrite H3].
Qed.

Lemma Vadd_Veq a a' b b' : Veq a a' -> Veq b b' -> Veq (Vadd a b) (Vadd a' b').
Proof.
  unfold Veq, Vadd. cbn [vx vy vz]. intros (H1 & H2 & H3) (H4 & H5 & H6).
  split; [now rewrite H1, H4|]. split; [now rewrite H2, H5 | now rewrite H3, H6].
Qed.

Lemma Vsum_Permutation (l l' : list ChVector) :
  l ≡ₚ l' -> Veq (Vsum l) (Vsum l').
Proof.
  induction 1 as [|x l l' _ IH|x y l|l l' l'' _ IH1 _ IH2].
  - apply Veq_refl.
  - simpl. apply Vadd_Veq; [apply Veq_refl | exact IH].
  - unfold Veq. simpl. split; [ring|]. split; ring.
  - eapply Veq_trans; eassumption.
Qed.

Lemma total_force_insert (v : Z) (f : ChVector) (m : gmap Z ChVector) :
  m !! v = None -> Veq (total_force (<[v := f]> m)) (Vadd f (total_force m)).
Proof.
  intros Hn. unfold total_force.
  change (Vadd f (Vsum (map snd (map_to_list m))))
    with (Vsum (map snd ((v, f) :: map_to_list m))).
  apply Vsum_Permutation.
  change (map snd ?l) with (snd <$> l).
  now rewrite (map_to_list_insert m v f Hn).
Qed.

Lemma total_force_add_force (v : Z) (f : ChVector) (m : gmap Z ChVector) :
  Veq (total_force (add_force v f m)) (Vadd (total_force m) f).
Proof.
  unfold add_force. destruct (m !! v) as [f0|] eqn:Hv.
  - rewrite <- insert_delete_eq.
    eapply Veq_trans; [apply total_force_insert, lookup_delete_eq|].
    rewrite <- (insert_delete_id m v f0 Hv) at 2.
    eapply Veq_trans;
      [|apply Vadd_Veq; [apply Veq_sym, total_force_insert, lookup_delete_eq
                        | apply Veq_refl]].
    unfold Veq, Vadd. cbn [vx vy vz]. split; [ring|]. split; ring.
  - eapply Veq_trans; [now apply total_force_insert|].
    unfold Veq, Vadd. cbn [vx vy vz]. split; [ring|]. split; ring.
Qed.

Lemma Vsum_snoc (l : list ChVector) (f : ChVector) :
  Veq (Vsum (l ++ [f])) (Vadd (Vsum l) f).
Proof.
  induction l as [|a l IH]; simpl.
  - unfold Veq, Vadd, VNULL. cbn [vx vy vz]. split; [ring|]. split; ring.
  - eapply Veq_trans; [apply Vadd_Veq; [apply Veq_refl | exact IH]|].
    unfold Veq, Vadd. cbn [vx vy vz]. split; [ring|]. split; ring.
Qed.

(** X15: [ForcesFaceProxies] conserves the force: the forces it emits for the
    vertices add up to the sum of the contact forces of the triangle
    proxies that have a nonzero force. *)
Theorem ForcesFaceProxies_conserves_force (which : nat) (n : TerrainNode)
    (t : TireData) (vert_forces : list Q) (vert_indices : list Z) :
  m_tire_data n !! which = Some t ->
  ForcesFaceProxies which n ([], []) = Ok (vert_forces, vert_indices) ->
  exists emitted : list (Z * ChVector),
    vert_indices = map fst emitted /\
    vert_forces = flat_map (fun kv => force_components (snd kv)) emitted /\
    Veq (Vsum (map snd emitted))
        (Vsum (map (proxy_force n t) (contacting n t (Z.to_nat (m_num_tri t))))).
Proof.
  intros Ht H. unfold ForcesFaceProxies in H.
  destruct (face_force_map which n) as [my_map| |] eqn:Hm; try discriminate H.
  rewrite load_output_spec in H. injection H as <- <-.
  exists (map_to_list my_map). split; [reflexivity|]. split; [reflexivity|].
  change (Veq (total_force my_map)
            (Vsum (map (proxy_force n t) (contacting n t (Z.to_nat (m_num_tri t)))))).
  unfold face_force_map in Hm. rewrite Ht in Hm. cbn [rget] in Hm.
  apply (for_loop_inv
           (fun k (m : gmap Z ChVector) =>
              Veq (total_force m) (Vsum (map (proxy_force n t) (contacting n t k))))
           (force_face_proxy which n) (Z.to_nat (m_num_tri t)) 0 ∅ my_map);
    [unfold total_force; rewrite map_to_list_empty; apply Veq_refl | | exact Hm].
  clear Hm. intros k m m' _ Hinv H. unfold force_face_proxy in H.
  rewrite Ht in H. cbn [rget] in H.
  destruct (m_triangles t !! k) as [tri|] eqn:Etri; cbn [rget] in H; [|discriminate H].
  destruct (m_proxies t !! k) as [p|] eqn:Ep; cbn [rget] in H; [|discriminate H].
  assert (GetBodyContactForce (m_system n) (m_body p) = proxy_force n t k) as Hf
    by (unfold proxy_force; now rewrite Ep).
  rewrite Hf in H. rewrite contacting_S.
  destruct (IsZero (proxy_force n t k)); injection H as <-; simpl.
  - now rewrite app_nil_r.
  - rewrite map_app. simpl.
    eapply Veq_trans; [apply total_force_add_force|].
    eapply Veq_trans;
      [apply Vadd_Veq; [apply total_force_add_force | apply Veq_refl]|].
    eapply Veq_trans;
      [apply Vadd_Veq;
         [apply Vadd_Veq; [apply total_force_add_force | apply Veq_refl]
         | apply Veq_refl]|].
    eapply Veq_trans; [|apply Veq_sym, Vsum_snoc].
    destruct Hinv as (Hx & Hy & Hz).
    unfold Veq, Vadd. cbn [vx vy vz]. rewrite Hx, Hy, Hz.
    split; [field|]. split; field.
Qed.

End ForceConservation.

(** ** Mesh states *)

Section MeshStates.

Context {E : Engine}.
Variable cfg : Config.

Lemma with_proxy_body_tire_data h f n n' :
  with_proxy_body h f n = Ok n' -> m_tire_data n' = m_tire_data n.
Proof. intros H. now apply with_proxy_body_Ok in H as (b & _ & ->). Qed.

Lemma set_shape_tire_data i x n n' :
  set_shape i x n = Ok n' -> m_tire_data n' = m_tire_data n.
Proof. intros H. now apply set_shape_Ok in H as (_ & ->). Qed.

Lemma update_node_proxy_Ok (which iv : nat) (n n' : TerrainNode) (t : TireData) :
  m_tire_data n !! which = Some t ->
  update_node_proxy which iv n = Ok n' ->
  exists state proxy body,
    m_vertex_states t !! iv = Some state /\
    m_proxies t !! iv = Some proxy /\
    bodylist (m_system n) !! m_body proxy = Some body /\
    m_tire_data n' = m_tire_data n /\
    bodylist (m_system n') =
      <[m_body proxy := updated_node_body state body]> (bodylist (m_system n)).
Proof.
  intros Ht H. unfold update_node_proxy in H. rewrite Ht in H. cbn [rget] in H.
  destruct (m_proxies t !! iv) as [proxy|] eqn:Ep; cbn [rget] in H; [|discriminate H].
  destruct (m_vertex_states t !! iv) as [state|] eqn:Es; cbn [rget] in H;
    [|discriminate H].
  inv_Ok H.
  apply with_proxy_body_Ok in E0 as (body & Hb & Ha).
  pose proof (with_proxy_body_twice _ _ _ _ _ _ _ Hb Ha E1) as Ha0.
  pose proof (with_proxy_body_twice _ _ _ _ _ _ _ Hb Ha0 E2) as Ha1.
  pose proof (with_proxy_body_twice _ _ _ _ _ _ _ Hb Ha1 H) as Ha2.
  exists state, proxy, body. subst. now repeat split.
Qed.

Lemma UpdateNodeProxies_spec (which : nat) (n n' : TerrainNode) (t : TireData) :
  m_tire_data n !! which = Some t ->
  proxy_handles_distinct t ->
  UpdateNodeProxies which n = Ok n' ->
  m_tire_data n' = m_tire_data n /\
  forall iv, (iv < Z.to_nat (m_num_vert t))%nat -> node_proxy_updated n' t iv.
Proof.
  intros Ht Hdist H. unfold UpdateNodeProxies in H. rewrite Ht in H. cbn [rget] in H.
  apply (for_loop_inv
           (fun k nk =>
              m_tire_data nk = m_tire_data n /\
              forall iv, (iv < k)%nat -> node_proxy_updated nk t iv)
           (update_node_proxy which) (Z.to_nat (m_num_vert t)) 0 n n');
    [split; [reflexivity | intros; lia] | | exact H].
  clear H. intros k nk nk' Hk [Htd Hdone] Hstep.
  assert (m_tire_data nk !! which = Some t) as Htk by now rewrite Htd.
  destruct (update_node_proxy_Ok which k nk nk' t Htk Hstep)
    as (state & proxy & body & Es & Ep & Hb & Htd' & Hbl).
  split; [congruence|]. intros iv Hiv.
  destruct (decide (iv = k)) as [->|Hne].
  - exists state, proxy, (updated_node_body state body).
    repeat split; try assumption.
    rewrite Hbl. apply list_lookup_insert_eq. now apply lookup_lt_Some in Hb.
  - destruct (Hdone iv) as (state' & proxy' & body' & Es' & Ep' & Hb' & Hrest); [lia|].
    exists state', proxy', body'. repeat split; try assumption; try apply Hrest.
    rewrite Hbl, list_lookup_insert_ne; [exact Hb'|].
    intros Heq. apply Hne. symmetry. exact (Hdist _ _ _ _ Ep Ep' Heq).
Qed.

(** X13: on rigid terrain, when [Synchronize] has stored the vertex states of
    a tire whose proxies all have their own body and the call of
    [UpdateNodeProxies] that follows returns, the body of the proxy of
    every vertex is at the position of the vertex with the velocity of the
    vertex, the identity orientation and a zero quaternion rate. *)
Theorem receive_tire_updates_node_proxies (vert_data : nat -> list Q)
    (tri_data : nat -> list Z) (which : nat) (n n' : TerrainNode) (t : TireData) :
  m_type cfg = RIGID ->
  m_tire_data n !! which = Some t ->
  proxy_handles_distinct t ->
  receive_tire cfg vert_data tri_data which n = Ok n' ->
  exists t',
    m_tire_data n' !! which = Some t' /\
    m_proxies t' = m_proxies t /\
    m_num_vert t' = m_num_vert t /\
    forall iv, (iv < Z.to_nat (m_num_vert t'))%nat -> node_proxy_updated n' t' iv.
Proof.
  intros Hty Ht Hdist H.
  unfold receive_tire in H. rewrite Ht in H. cbn [rget] in H. cbv zeta in H.
  inv_Ok H. rewrite Hty in H.
  apply for_loop_kept in E0; [|intros; eapply store_vertex_kept; eassumption].
  apply for_loop_kept in E1; [|intros; eapply store_triangle_kept; eassumption].
  destruct (tires_kept_trans _ _ _ E0 E1) as (_ & _ & Hk).
  destruct (Hk which t Ht) as (t' & Ht' & Hp & Hn & _).
  destruct (UpdateNodeProxies_spec which a0 n' t' Ht') as [Htd Hall];
    [unfold proxy_handles_distinct; rewrite Hp; exact Hdist | exact H |].
  exists t'. split; [now rewrite Htd|]. now repeat split.
Qed.

Lemma update_node_proxy_tire_data which iv n n' :
  update_node_proxy which iv n = Ok n' -> m_tire_data n' = m_tire_data n.
Proof.
  unfold update_node_proxy. intros H. inv_Ok H.
  repeat match goal with
    | H : with_proxy_body _ _ _ = Ok _ |- _ => apply with_proxy_body_tire_data in H
    end.
  congruence.
Qed.

Lemma update_face_proxy_tire_data which it n n' :
  update_face_proxy which it n = Ok n' -> m_tire_data n' = m_tire_data n.
Proof.
  unfold update_face_proxy. intros H. inv_Ok H.
  repeat match goal with
    | H : with_proxy_body _ _ _ = Ok _ |- _ => apply with_proxy_body_tire_data in H
    | H : set_shape _ _ _ = Ok _ |- _ => apply set_shape_tire_data in H
    end.
  congruence.
Qed.

Lemma for_loop_tire_data (body : nat -> TerrainNode -> result TerrainNode) k start n n' :
  (forall i n1 n2, body i n1 = Ok n2 -> m_tire_data n2 = m_tire_data n1) ->
  for_loop k start body n = Ok n' -> m_tire_data n' = m_tire_data n.
Proof.
  intros Hb H.
  apply (for_loop_inv (fun _ n1 => m_tire_data n1 = m_tire_data n) body k start n n');
    [reflexivity | | exact H].
  intros i n1 n2 _ H1 H2. rewrite <- H1. now apply (Hb i).
Qed.

Lemma store_vertex_inv (which : nat) (nv : Z) (buf : list Q) (iv : nat)
    (n n' : TerrainNode) (t : TireData) :
  m_tire_data n !! which = Some t ->
  0 <= nv -> Z.of_nat iv < nv -> 6 * nv < u32_modulus ->
  store_vertex which nv buf iv n = Ok n' ->
  exists s,
    decoded_vertex buf (Z.to_nat nv) iv s /\
    (iv < length (m_vertex_states t))%nat /\
    m_tire_data n' =
      <[which := set_vertex_states (<[iv := s]> (m_vertex_states t)) t]> (m_tire_data n).
Proof.
  intros Ht Hnv Hiv Hsmall H. unfold store_vertex in H. cbv zeta in H.
  rewrite Ht in H.
  unfold u32_modulus in Hsmall.
  rewrite (u32_small (3 * Z.of_nat iv)) in H by (unfold u32_modulus; lia).
  rewrite (u32_small (3 * nv)) in H by (unfold u32_modulus; lia).
  rewrite (u32_small (3 * Z.of_nat iv + 3 * nv)) in H by (unfold u32_modulus; lia).
  rewrite !u32_small in H by (unfold u32_modulus; lia).
  inv_Ok H.
  unfold list_set in E6.
  destruct (decide (iv < length (m_vertex_states t))%nat) as [Hlt|];
    [|discriminate E6].
  injection E6 as <-.
  apply with_tire_Ok in H as (t1 & Ht1 & ->). rewrite Ht in Ht1. injection Ht1 as <-.
  eexists. split; [|split; [exact Hlt | reflexivity]].
  unfold decoded_vertex. cbn [vs_pos vs_vel vx vy vz].
  repeat split;
    match goal with
    | H : buf !! ?i = Some ?x |- buf !! ?j = Some ?x =>
        replace j with i by lia; exact H
    end.
Qed.

Lemma store_triangle_inv (which : nat) (buf : list Z) (it : nat)
    (n n' : TerrainNode) (t : TireData) :
  m_tire_data n !! which = Some t ->
  Z.of_nat it < max_elements ->
  store_triangle which buf it n = Ok n' ->
  exists tri,
    decoded_triangle buf it tri /\
    (it < length (m_triangles t))%nat /\
    m_tire_data n' =
      <[which := set_triangles (<[it := tri]> (m_triangles t)) t]> (m_tire_data n).
Proof.
  intros Ht Hit H. unfold store_triangle in H. cbv zeta in H.
  rewrite Ht in H.
  unfold max_elements in Hit.
  rewrite !u32_small in H by (unfold u32_modulus; lia).
  inv_Ok H.
  unfold list_set in E3.
  destruct (decide (it < length (m_triangles t))%nat) as [Hlt|];
    [|discriminate E3].
  injection E3 as <-.
  apply with_tire_Ok in H as (t1 & Ht1 & ->). rewrite Ht in Ht1. injection Ht1 as <-.
  eexists. split; [|split; [exact Hlt | reflexivity]].
  unfold decoded_triangle. cbn [v1 v2 v3].
  repeat split;
    match goal with
    | H : buf !! ?i = Some ?x |- buf !! ?j = Some ?x =>
        replace j with i by lia; exact H
    end.
Qed.

Lemma decoded_vertex_take (k : nat) (buf : list Q) nv iv s :
  decoded_vertex (take k buf) nv iv s -> decoded_vertex buf nv iv s.
Proof.
  unfold decoded_vertex. rewrite !lookup_take_Some. tauto.
Qed.

Lemma decoded_triangle_take (k : nat) (buf : list Z) it tri :
  decoded_triangle (take k buf) it tri -> decoded_triangle buf it tri.
Proof.
  unfold decoded_triangle. rewrite !lookup_take_Some. tauto.
Qed.

(** X12: when the loop of [Synchronize] gets through a tire whose six
    scalars per vertex fit an [unsigned int] count, the tables of the tire
    hold the mesh as the messages give it: vertex [iv] has the position at
    entries [3 iv .. 3 iv + 2] and the velocity at entries
    [3 num_vert + 3 iv ..] of the vertex message, and triangle [it] has the
    three indices at entries [3 it .. 3 it + 2] of the connectivity
    message. *)
Theorem receive_tire_stores_mesh (vert_data : nat -> list Q)
    (tri_data : nat -> list Z) (which : nat) (n n' : TerrainNode) (t : TireData) :
  m_tire_data n !! which = Some t ->
  6 * m_num_vert t < u32_modulus ->
  receive_tire cfg vert_data tri_data which n = Ok n' ->
  exists t',
    m_tire_data n' !! which = Some t' /\
    (forall iv, (iv < Z.to_nat (m_num_vert t))%nat ->
       exists s,
         m_vertex_states t' !! iv = Some s /\
         decoded_vertex (vert_data which) (Z.to_nat (m_num_vert t)) iv s) /\
    (forall it, (it < Z.to_nat (m_num_tri t))%nat ->
       exists tri,
         m_triangles t' !! it = Some tri /\
         decoded_triangle (tri_data which) it tri).
Proof.
  intros Ht Hsmall H.
  pose proof (receive_tire_bounds cfg _ _ _ _ _ _ H Ht) as [_ Hnt].
  unfold receive_tire in H. rewrite Ht in H. cbn [rget] in H. cbv zeta in H.
  inv_Ok H.
  set (vbuf := take _ (vert_data which)) in E0.
  set (tbuf := take _ (tri_data which)) in E1.
  (* the vertex states *)
  assert (exists t1,
            m_tire_data a !! which = Some t1 /\
            forall iv, (iv < Z.to_nat (m_num_vert t))%nat ->
              exists s, m_vertex_states t1 !! iv = Some s /\
                decoded_vertex vbuf (Z.to_nat (m_num_vert t)) iv s)
    as (t1 & Ht1 & Hv).
  { apply (for_loop_inv
             (fun k nk =>
                exists tk,
                  m_tire_data nk !! which = Some tk /\
                  forall iv, (iv < k)%nat ->
                    exists s, m_vertex_states tk !! iv = Some s /\
                      decoded_vertex vbuf (Z.to_nat (m_num_vert t)) iv s)
             (store_vertex which (m_num_vert t) vbuf)
             (Z.to_nat (m_num_vert t)) 0 n a);
      [exists t; split; [exact Ht | intros; lia] | | exact E0].
    intros k nk nk' Hk (tk & Htk & Hdone) Hstep.
    destruct (store_vertex_inv which (m_num_vert t) vbuf k nk nk' tk Htk)
      as (s & Hdec & Hlt & Htd); [lia | lia | exact Hsmall | exact Hstep |].
    eexists. split.
    { rewrite Htd. apply list_lookup_insert_eq. now apply lookup_lt_Some in Htk. }
    intros iv Hiv. cbn [set_vertex_states m_vertex_states].
    destruct (decide (iv = k)) as [->|Hne].
    - exists s. split; [now apply list_lookup_insert_eq | exact Hdec].
    - rewrite list_lookup_insert_ne by congruence. apply Hdone. lia. }
  (* the triangles *)
  assert (exists t2,
            m_tire_data a0 !! which = Some t2 /\
            m_vertex_states t2 = m_vertex_states t1 /\
            forall it, (it < Z.to_nat (m_num_tri t))%nat ->
              exists tri, m_triangles t2 !! it = Some tri /\
                decoded_triangle tbuf it tri)
    as (t2 & Ht2 & Hs2 & Htri).
  { apply (for_loop_inv
             (fun k nk =>
                exists tk,
                  m_tire_data nk !! which = Some tk /\
                  m_vertex_states tk = m_vertex_states t1 /\
                  forall it, (it < k)%nat ->
                    exists tri, m_triangles tk !! it = Some tri /\
                      decoded_triangle tbuf it tri)
             (store_triangle which tbuf)
             (Z.to_nat (m_num_tri t)) 0 a a0);
      [exists t1; split; [exact Ht1 | split; [reflexivity | intros; lia]] | | exact E1].
    intros k nk nk' Hk (tk & Htk & Hsk & Hdone) Hstep.
    destruct (store_triangle_inv which tbuf k nk nk' tk Htk)
      as (tri & Hdec & Hlt & Htd); [lia | exact Hstep |].
    eexists. split.
    { rewrite Htd. apply list_lookup_insert_eq. now apply lookup_lt_Some in Htk. }
    split; [exact Hsk|].
    intros it Hit. cbn [set_triangles m_triangles].
    destruct (decide (it = k)) as [->|Hne].
    - exists tri. split; [now apply list_lookup_insert_eq | exact Hdec].
    - rewrite list_lookup_insert_ne by congruence. apply Hdone. lia. }
  (* the proxies *)
  assert (m_tire_data n' = m_tire_data a0) as Htd.
  { destruct (m_type cfg).
    - unfold UpdateNodeProxies in H. inv_Ok H.
      eapply for_loop_tire_data; [|exact H].
      intros; eapply update_node_proxy_tire_data; eassumption.
    - unfold UpdateFaceProxies in H. inv_Ok H.
      eapply for_loop_tire_data; [|exact H].
      intros; eapply update_face_proxy_tire_data; eassumption. }
  exists t2. rewrite Htd. split; [exact Ht2|]. split.
  - intros iv Hiv. destruct (Hv iv Hiv) as (s & Hs & Hdec).
    exists s. rewrite Hs2. split; [exact Hs|]. eapply decoded_vertex_take, Hdec.
  - intros it Hit. destruct (Htri it Hit) as (tri & Hl & Hdec).
    exists tri. split; [exact Hl|]. eapply decoded_triangle_take, Hdec.
Qed.

(** X14: [Synchronize] changes no table of the handshake: when it returns,
    every tire has the proxies, the vertex and triangle counts and the
    start offsets it had before the call. *)
Theorem Synchronize_keeps_tire_tables (step_number : Z) (time : Q)
    (vert_data : nat -> list Q) (tri_data : nat -> list Z) (n n' : TerrainNode) :
  Synchronize cfg step_number time vert_data tri_data n = Ok n' ->
  length (m_tire_data n') = length (m_tire_data n) /\
  forall i t, m_tire_data n !! i = Some t ->
    exists t',
      m_tire_data n' !! i = Some t' /\
      m_proxies t' = m_proxies t /\
      m_num_vert t' = m_num_vert t /\ m_num_tri t' = m_num_tri t /\
      m_start_vert t' = m_start_vert t /\ m_start_tri t' = m_start_tri t.
Proof.
  intros H. unfold Synchronize in H. inv_Ok H.
  apply for_loop_kept in E0; [|intros; eapply receive_tire_kept; eassumption].
  destruct E0 as (_ & Hlen & Hk).
  assert (m_tire_data n' = m_tire_data a) as ->; [|now split].
  change (m_tire_data a) with (m_tire_data (with_system CalculateContactForces a)).
  eapply for_loop_tire_data; [|exact H].
  intros i n1 n2 Hs. unfold send_forces in Hs.
  destruct (collect_forces cfg step_number i n1); try discriminate.
  now injection Hs as <-.
Qed.

End MeshStates.

(** ** Barycentric coordinates *)

Section Barycentric.



End Barycentric.

Lemma Initialize_start_offsets_witness :
  counts_fit sample_surf_props 2 /\
  exists n',
    Initialize (E := sample_engine) (sample_config GRANULAR 2 false)
      sample_surf_props sample_mat_props
      (TerrainNode_new (sample_config GRANULAR 2 false) empty_system) = Ok n' /\
    offset_table (fun start count => u32 (start + count)) sample_surf_props 2 n' /\
    (counts_fit sample_surf_props 2 -> offset_table Z.add sample_surf_props 2 n').
Proof.
  split.
  - unfold counts_fit, u32_modulus. simpl. split; [intros _; lia | lia].
  - apply (Initialize_start_offsets (E := sample_engine)
             (sample_config GRANULAR 2 false) sample_surf_props sample_mat_props
             (TerrainNode_new (sample_config GRANULAR 2 false) empty_system));
      [left; reflexivity | simpl; lia].
Defined.

(** C2 as stated fails when the counts wrap around: with triangle counts
    2^32 - 1, 2 and 1, tire 1 starts at 2^32 - 1 and has 2 triangles, yet
    tire 2 starts at 1, inside the range of tire 0. *)
Lemma Initialize_start_offsets_wrap :
  exists n' t0 t1 t2,
    Initialize (E := sample_engine) (sample_config RIGID 3 false)
      wrapping_surf_props sample_mat_props
      (TerrainNode_new (sample_config RIGID 3 false) empty_system) = Ok n' /\
    m_tire_data n' !! 0%nat = Some t0 /\
    m_tire_data n' !! 1%nat = Some t1 /\
    m_tire_data n' !! 2%nat = Some t2 /\
    m_start_tri t1 = 2 ^ 32 - 1 /\ m_num_tri t1 = 2 /\ m_start_tri t2 = 1 /\
    m_start_tri t2 <> m_start_tri t1 + m_num_tri t1 /\
    m_start_tri t0 <= m_start_tri t2 < m_start_tri t0 + m_num_tri t0.
Proof.
  destruct (Initialize_spec (E := sample_engine) (sample_config RIGID 3 false)
              wrapping_surf_props sample_mat_props
              (TerrainNode_new (sample_config RIGID 3 false) empty_system))
    as (n0 & n' & HI & Htd0 & _ & _ & _ & Hh); [left; reflexivity | simpl; lia |].
  assert (3 <= length (m_tire_data n0))%nat as Hlen by (rewrite Htd0; simpl; lia).
  change (Z.to_nat (m_num_tires (sample_config RIGID 3 false))) with 3%nat in Hh.
  destruct (handshaken_offsets _ _ _ _ _ _ 0 Hh Hlen) as (t0 & Ht0 & _ & Hr0 & _ & Hs0);
    [lia|].
  destruct (handshaken_offsets _ _ _ _ _ _ 1 Hh Hlen) as (t1 & Ht1 & _ & Hr1 & _ & Hs1);
    [lia|].
  destruct (handshaken_offsets _ _ _ _ _ _ 2 Hh Hlen) as (t2 & Ht2 & _ & Hr2 & _ & Hs2);
    [lia|].
  exists n', t0, t1, t2. rewrite Hr0, Hs0, Hr1, Hs1, Hs2.
  repeat split; try assumption; vm_compute; congruence.
Qed.

Lemma Initialize_one_proxy_per_element_witness :
  exists n',
    Initialize (E := sample_engine) (sample_config GRANULAR 2 false)
      sample_surf_props sample_mat_props
      (TerrainNode_new (sample_config GRANULAR 2 false) empty_system) = Ok n' /\
    one_proxy_per_element (sample_config GRANULAR 2 false)
      (fun id g => id = to_int (u32 g) /\ (0 <= g < 2 ^ 31 -> id = g)) 2 n' /\
    proxy_bodies_distinct 2 n'.
Proof.
  apply (Initialize_one_proxy_per_element (E := sample_engine)
           (sample_config GRANULAR 2 false) sample_surf_props sample_mat_props
           (TerrainNode_new (sample_config GRANULAR 2 false) empty_system)).
  - left. reflexivity.
  - simpl. lia.
  - intros i t0 Ht0. simpl in Ht0.
    destruct i as [|[|i]]; simpl in Ht0; [| |discriminate];
      injection Ht0 as <-; reflexivity.
Defined.

(** C9: the code does not give every proxy body the global index of its
    element as identifier, as the claim and the comments of
    [CreateNodeProxies] and [CreateFaceProxies] say.  For one tire with
    2^31 + 1 vertices on rigid terrain, [Initialize] returns and the proxy
    body of vertex 2^31 (start offset 0) has the identifier -2^31, not
    2^31: [SetIdentifier] takes an [int] and is passed the [unsigned int]
    [m_start_vert + iv]. *)
Lemma Initialize_identifier_wraps :
  exists n' t p b,
    Initialize (E := sample_engine) (sample_config RIGID 1 false)
      huge_surf_props sample_mat_props
      (TerrainNode_new (sample_config RIGID 1 false) empty_system) = Ok n' /\
    m_tire_data n' !! 0%nat = Some t /\
    m_start_vert t = 0 /\
    m_proxies t !! Z.to_nat (2 ^ 31) = Some p /\
    bodylist (m_system n') !! m_body p = Some b /\
    identifier b = - 2 ^ 31 /\
    identifier b <> m_start_vert t + 2 ^ 31.
Proof.
  destruct (Initialize_spec (E := sample_engine) (sample_config RIGID 1 false)
              huge_surf_props sample_mat_props
              (TerrainNode_new (sample_config RIGID 1 false) empty_system))
    as (n0 & n' & HI & Htd0 & _ & _ & _ & Hh); [left; reflexivity | simpl; lia |].
  change (Z.to_nat (m_num_tires (sample_config RIGID 1 false))) with 1%nat in Hh.
  destruct (handshaken_proxies (sample_config RIGID 1 false) huge_surf_props
              sample_mat_props n0 n' 1 0 Hh)
    as (t & Ht & Hnv & _ & Hsv & _ & _ & _ & _ & _ & Hp & Hb).
  - rewrite Htd0. intros [|i] t0 Ht0; simpl in Ht0; [|discriminate].
    now injection Ht0 as <-.
  - rewrite Htd0. simpl. lia.
  - lia.
  - assert (proxy_count (sample_config RIGID 1 false) huge_surf_props 0
            = Z.to_nat (2 ^ 31 + 1)) as Hc by reflexivity.
    rewrite Hc in Hp, Hb.
    assert (Z.to_nat (2 ^ 31) < Z.to_nat (2 ^ 31 + 1))%nat as Hj by lia.
    exists n', t. eexists. eexists.
    split; [exact HI|]. split; [exact Ht|].
    split; [rewrite Hsv; reflexivity|].
    split; [rewrite Hp; apply (new_proxies_lookup _ _ _ Hj)|].
    split; [apply (Hb _ Hj)|].
    rewrite identifier_proxy_body. unfold elements_start.
    change (m_type (sample_config RIGID 1 false)) with RIGID. cbv iota.
    rewrite Hsv, Z2Nat.id by lia.
    split; vm_compute; congruence.
Qed.

Lemma Synchronize_first_step_sends_nothing_witness :
  exists n',
    Synchronize (E := sample_engine) (sample_config GRANULAR 2 false) 0 0
      sample_vert_data sample_tri_data (initialized_node GRANULAR) = Ok n' /\
    mpi_sent n' =
      mpi_sent (initialized_node GRANULAR) ++
      [mkMsg 2 0 (MPI_INT []); mkMsg 2 0 (MPI_DOUBLE []);
       mkMsg 3 0 (MPI_INT []); mkMsg 3 0 (MPI_DOUBLE [])].
Proof.
  eexists. split; [vm_compute; reflexivity|].
  apply (Synchronize_first_step_sends_nothing (E := sample_engine)
           (sample_config GRANULAR 2 false) 0 sample_vert_data sample_tri_data
           (initialized_node GRANULAR)).
  vm_compute. reflexivity.
Defined.

Lemma Synchronize_rigid_reports_local_indices_witness :
  exists n',
    Synchronize (E := sample_engine) (sample_config RIGID 2 false) 1 0
      sample_vert_data sample_tri_data (initialized_node RIGID) = Ok n' /\
    reported_indices (E := sample_engine) n' 0 = [0; 3] /\
    mpi_sent n' =
      mpi_sent (initialized_node RIGID) ++
      flat_map
        (fun which =>
           force_messages (sample_config RIGID 2 false) 1 which
             (reported_indices (E := sample_engine) n' which)
             (reported_forces (E := sample_engine) n' which))
        (seq 0 2).
Proof.
  eexists. split; [vm_compute; reflexivity|]. split; [vm_compute; reflexivity|].
  apply (Synchronize_rigid_reports_local_indices (E := sample_engine)
           (sample_config RIGID 2 false) 1 0 sample_vert_data sample_tri_data
           (initialized_node RIGID)).
  - reflexivity.
  - lia.
  - intros which t Ht j Hj.
    destruct which as [|[|which]]; vm_compute in Ht; [| |discriminate Ht];
      injection Ht as <-;
      (destruct j as [|[|[|[|j]]]]; [| | | |vm_compute in Hj; lia]);
      eexists; split; reflexivity.
  - vm_compute. reflexivity.
Defined.

Lemma ForcesFaceProxies_distributes_thirds_witness :
  exists t vert_forces,
    m_tire_data (synchronized_node GRANULAR) !! 0%nat = Some t /\
    ForcesFaceProxies (E := sample_engine) 0 (synchronized_node GRANULAR) ([], [])
      = Ok (vert_forces, [3; 2; 1; 0]) /\
    exists emitted : list (Z * ChVector),
      [3; 2; 1; 0] = map fst emitted /\
      vert_forces = flat_map (fun kv => force_components (snd kv)) emitted /\
      NoDup [3; 2; 1; 0] /\
      forall v,
        (In v [3; 2; 1; 0] <->
         contributions (E := sample_engine) (synchronized_node GRANULAR) t
           (Z.to_nat (m_num_tri t)) v <> []) /\
        forall f, In (v, f) emitted ->
          accumulate
            (contributions (E := sample_engine) (synchronized_node GRANULAR) t
               (Z.to_nat (m_num_tri t)) v) = Some f /\
          Veq f
            (Vsum
               (contributions (E := sample_engine) (synchronized_node GRANULAR) t
                  (Z.to_nat (m_num_tri t)) v)).
Proof.
  eexists. eexists. split; [vm_compute; reflexivity|].
  split; [vm_compute; reflexivity|].
  apply (ForcesFaceProxies_distributes_thirds (E := sample_engine) 0
           (synchronized_node GRANULAR)); vm_compute; reflexivity.
Defined.

(** One triangle alone: each of its three vertices gets a third of the
    force; a vertex shared by two triangles gets the sum of a third of
    each force. *)
Example contributions_of_shared_vertex :
  exists t,
    m_tire_data (synchronized_node GRANULAR) !! 0%nat = Some t /\
    contributions (E := sample_engine) (synchronized_node GRANULAR) t 2 0
      = [third (mkV 0 0 (- (- 3 # 300)))] /\
    contributions (E := sample_engine) (synchronized_node GRANULAR) t 2 1
      = [third (mkV 0 0 (- (- 3 # 300))); third (mkV 0 0 (- (- 1 # 30)))].
Proof. eexists. split; [vm_compute; reflexivity|]. split; vm_compute; reflexivity. Qed.

Lemma receive_tire_updates_face_proxies_witness :
  exists n' t,
    m_tire_data (initialized_node GRANULAR) !! 0%nat = Some t /\
    receive_tire (sample_config GRANULAR 2 false)
      sample_vert_data sample_tri_data 0 (initialized_node GRANULAR) = Ok n' /\
    exists n1 t',
      UpdateFaceProxies 0 n1 = Ok n' /\
      m_tire_data n1 !! 0%nat = Some t' /\
      m_tire_data n' !! 0%nat = Some t' /\
      m_proxies t' = m_proxies t /\
      m_num_tri t' = m_num_tri t /\
      m_start_tri t' = m_start_tri t /\
      forall it, (it < Z.to_nat (m_num_tri t'))%nat -> face_proxy_updated n' t' it.
Proof.
  eexists. eexists. split; [vm_compute; reflexivity|].
  split; [vm_compute; reflexivity|].
  apply (receive_tire_updates_face_proxies
           (sample_config GRANULAR 2 false) sample_vert_data sample_tri_data 0
           (initialized_node GRANULAR)).
  - reflexivity.
  - vm_compute. reflexivity.
  - intros j j' p p' Hp Hp' Heq.
    destruct j as [|[|j]]; destruct j' as [|[|j']]; simpl in Hp, Hp';
      try discriminate Hp; try discriminate Hp'; try reflexivity;
      injection Hp as <-; injection Hp' as <-; simpl in Heq; discriminate Heq.
  - vm_compute. reflexivity.
Defined.

(** The first triangle of the sample: vertices (0, 0, -3/100), (1, 0, 0)
    and (0, 1, 0), with velocities (1, 0, 0), (1, 0, 0) and (1, 0, 3). *)
Example face_proxy_of_first_triangle :
  exists body,
    bodylist (m_system (synchronized_node GRANULAR)) !! 6%nat = Some body /\
    Veq (pos body) (mkV (1 # 3) (1 # 3) (- 1 # 100)) /\
    rot body = QUNIT /\
    Veq (pos_dt body) (mkV 1 0 1) /\
    wvel_loc body = VNULL.
Proof.
  eexists. split; [vm_compute; reflexivity|].
  repeat split; reflexivity.
Qed.

Lemma WriteCheckpoint_Settle_round_trip_witness :
  exists n',
    Settle (E := sample_engine) (sample_config GRANULAR 1 true)
      (WriteCheckpoint (E := sample_engine) settled_node) constructed_node = Ok n' /\
    forall i bw,
      bodylist (m_system settled_node) !! i = Some bw ->
      m_Id_g settled_node <= identifier bw ->
      exists b',
        bodylist (m_system n') !! i = Some b' /\
        restored_from (E := sample_engine) bw b'.
Proof.
  apply (WriteCheckpoint_Settle_round_trip (E := sample_engine)
           (sample_config GRANULAR 1 true) settled_node constructed_node).
  - reflexivity.
  - reflexivity.
  - split; [vm_compute; split; [discriminate | reflexivity]|].
    intros i b Hb.
    change (m_Id_g settled_node) with 100000.
    change (Z.to_nat (m_particles_start_index settled_node)) with 2%nat.
    vm_compute in Hb.
    do 6 (destruct i as [|i]; [injection Hb as <-; simpl; lia|]).
    discriminate Hb.
  - reflexivity.
  - repeat split; vm_compute; reflexivity.
Defined.

(** The moved particle comes back as written. *)
Example restored_particle :
  exists n' b',
    Settle (E := sample_engine) (sample_config GRANULAR 1 true)
      (WriteCheckpoint (E := sample_engine) settled_node) constructed_node = Ok n' /\
    bodylist (m_system n') !! 3%nat = Some b' /\
    identifier b' = 100001 /\
    pos b' = mkV 1 2 (1 # 100) /\
    pos_dt b' = mkV 0 0 (- 1 # 4) /\
    rot_dt b' = mkQ 0 (1 # 2) 0 0.
Proof.
  eexists. eexists. split; [vm_compute; reflexivity|].
  split; [vm_compute; reflexivity|]. repeat split.
Qed.


Lemma Advance_needs_positive_step_size_witness :
  Advance (E := sample_engine) zero_step_config 1000 1
    (TerrainNode_new zero_step_config empty_system) = None.
Proof.
  apply (Advance_needs_positive_step_size (E := sample_engine) zero_step_config 1
           (TerrainNode_new zero_step_config empty_system)).
  - vm_compute. discriminate.
  - reflexivity.
Defined.

Lemma Advance_full_steps_then_remainder_witness :
  exists s' hs,
    Advance_loop (E := sample_engine) (sample_config RIGID 1 false) 4 1 0 empty_system
      = Some (s', hs) /\
    (forall i, (Datatypes.S i < length hs)%nat -> hs !! i = Some (3 # 10)%Q) /\
    Z.of_nat (length hs) = 4.
Proof.
  eexists. eexists. split; [vm_compute; reflexivity|].
  eapply (Advance_full_steps_then_remainder (E := sample_engine)
            (sample_config RIGID 1 false) 4 1 empty_system).
  - reflexivity.
  - reflexivity.
  - vm_compute. reflexivity.
Defined.



Lemma Settle_records_top_of_material_witness :
  exists n',
    Settle (E := sample_engine) (sample_config GRANULAR 1 true)
      (WriteCheckpoint (E := sample_engine) settled_node) constructed_node = Ok n' /\
    (1 # 100 <= m_init_height n')%Q /\
    (forall b, In b (bodylist (m_system n')) -> 0 < identifier b ->
       (vz (pos b) + (1 # 100) <= m_init_height n')%Q) /\
    ((m_init_height n' == 1 # 100)%Q \/
     exists b, In b (bodylist (m_system n')) /\ 0 < identifier b /\
       m_init_height n' = (vz (pos b) + (1 # 100))%Q).
Proof.
  eexists. split; [vm_compute; reflexivity|].
  apply (Settle_records_top_of_material (E := sample_engine)
           (sample_config GRANULAR 1 true)
           (WriteCheckpoint (E := sample_engine) settled_node) constructed_node).
  vm_compute. reflexivity.
Defined.

Lemma Settle_checkpoint_keeps_structure_witness :
  exists n',
    Settle (E := sample_engine) (sample_config GRANULAR 1 true)
      (WriteCheckpoint (E := sample_engine) settled_node) constructed_node = Ok n' /\
    length (bodylist (m_system n'))
      = length (bodylist (m_system
                  (Construct (E := sample_engine) (sample_config GRANULAR 1 true)
                     constructed_node))) /\
    forall i b,
      bodylist (m_system
        (Construct (E := sample_engine) (sample_config GRANULAR 1 true)
           constructed_node)) !! i = Some b ->
      exists b',
        bodylist (m_system n') !! i = Some b' /\
        same_properties b b' /\
        (Z.of_nat i
           < to_int (m_particles_start_index
                       (Construct (E := sample_engine)
                          (sample_config GRANULAR 1 true) constructed_node))
         -> b' = b).
Proof.
  eexists. split; [vm_compute; reflexivity|].
  apply (Settle_checkpoint_keeps_structure (E := sample_engine)
           (sample_config GRANULAR 1 true)
           (WriteCheckpoint (E := sample_engine) settled_node) constructed_node).
  - reflexivity.
  - vm_compute. reflexivity.
Defined.

Lemma Initialize_sends_initial_dimensions_witness :
  exists n',
    Initialize (E := sample_engine) (sample_config RIGID 2 false)
      sample_surf_props sample_mat_props
      (TerrainNode_new (sample_config RIGID 2 false) empty_system) = Ok n' /\
    mpi_sent n' = [] ++ [mkMsg 0 0 (MPI_DOUBLE [0%Q; (1 + 2 * 0)%Q])].
Proof.
  apply (Initialize_sends_initial_dimensions (E := sample_engine)
           (sample_config RIGID 2 false) sample_surf_props sample_mat_props
           (TerrainNode_new (sample_config RIGID 2 false) empty_system)).
  - reflexivity.
  - vm_compute. lia.
Defined.


Lemma Initialize_makes_proxy_bodies_witness :
  exists n',
    Initialize (E := sample_engine) (sample_config GRANULAR 2 false)
      sample_surf_props sample_mat_props
      (TerrainNode_new (sample_config GRANULAR 2 false) empty_system) = Ok n' /\
    forall i, (i < 2)%nat ->
      exists t,
        m_tire_data n' !! i = Some t /\
        m_num_vert t = 4 /\
        m_num_tri t = 2 /\
        length (m_vertex_states t) = Z.to_nat (m_num_vert t) /\
        length (m_triangles t) = Z.to_nat (m_num_tri t) /\
        m_material_tire t
          = Some (tire_material (sample_config GRANULAR 2 false) (sample_mat_props i)) /\
        forall j p, m_proxies t !! j = Some p ->
          exists b,
            bodylist (m_system n') !! m_body p = Some b /\
            material b
              = Some (tire_material (sample_config GRANULAR 2 false)
                        (sample_mat_props i)) /\
            mass b = 1%Q /\
            body_fixed b = false /\
            collide b = true /\ family b = Some 1 /\
            pos b = VNULL /\ pos_dt b = VNULL.
Proof.
  apply (Initialize_makes_proxy_bodies (E := sample_engine)
           (sample_config GRANULAR 2 false) sample_surf_props sample_mat_props
           (TerrainNode_new (sample_config GRANULAR 2 false) empty_system)).
  - reflexivity.
  - vm_compute. lia.
  - intros i t0 Ht0. destruct i as [|[|i]]; vm_compute in Ht0;
      [injection Ht0 as <-; reflexivity | injection Ht0 as <-; reflexivity
      | discriminate Ht0].
Defined.

Lemma receive_tire_stores_mesh_witness :
  exists n' t,
    m_tire_data (initialized_node GRANULAR) !! 0%nat = Some t /\
    receive_tire (sample_config GRANULAR 2 false)
      sample_vert_data sample_tri_data 0 (initialized_node GRANULAR) = Ok n' /\
    exists t',
      m_tire_data n' !! 0%nat = Some t' /\
      (forall iv, (iv < Z.to_nat (m_num_vert t))%nat ->
         exists s,
           m_vertex_states t' !! iv = Some s /\
           decoded_vertex (sample_vert_data 0) (Z.to_nat (m_num_vert t)) iv s) /\
      (forall it, (it < Z.to_nat (m_num_tri t))%nat ->
         exists tri,
           m_triangles t' !! it = Some tri /\
           decoded_triangle (sample_tri_data 0) it tri).
Proof.
  eexists. eexists. split; [vm_compute; reflexivity|].
  split; [vm_compute; reflexivity|].
  apply (receive_tire_stores_mesh (sample_config GRANULAR 2 false)
           sample_vert_data sample_tri_data 0 (initialized_node GRANULAR)).
  - vm_compute. reflexivity.
  - vm_compute. reflexivity.
  - vm_compute. reflexivity.
Defined.

(** The second vertex of the sample message: position (1, 0, 0), velocity
    (1, 0, 0); its second triangle: vertices 1, 2 and 3. *)
Example decoded_sample_mesh :
  decoded_vertex (sample_vert_data 0) 4 1 (mkVS (mkV 1 0 0) (mkV 1 0 0)) /\
  decoded_triangle (sample_tri_data 0) 1 (mkTri 1 2 3).
Proof. repeat split. Qed.

Lemma receive_tire_updates_node_proxies_witness :
  exists n' t,
    m_tire_data (initialized_node RIGID) !! 0%nat = Some t /\
    receive_tire (sample_config RIGID 2 false)
      sample_vert_data sample_tri_data 0 (initialized_node RIGID) = Ok n' /\
    exists t',
      m_tire_data n' !! 0%nat = Some t' /\
      m_proxies t' = m_proxies t /\
      m_num_vert t' = m_num_vert t /\
      forall iv, (iv < Z.to_nat (m_num_vert t'))%nat -> node_proxy_updated n' t' iv.
Proof.
  eexists. eexists. split; [vm_compute; reflexivity|].
  split; [vm_compute; reflexivity|].
  apply (receive_tire_updates_node_proxies
           (sample_config RIGID 2 false) sample_vert_data sample_tri_data 0
           (initialized_node RIGID)).
  - reflexivity.
  - vm_compute. reflexivity.
  - intros j j' p p' Hp Hp' Heq.
    destruct j as [|[|[|[|j]]]]; destruct j' as [|[|[|[|j']]]]; simpl in Hp, Hp';
      try discriminate Hp; try discriminate Hp'; try reflexivity;
      injection Hp as <-; injection Hp' as <-; simpl in Heq; discriminate Heq.
  - vm_compute. reflexivity.
Defined.

Lemma Synchronize_keeps_tire_tables_witness :
  exists n',
    Synchronize (E := sample_engine) (sample_config RIGID 2 false) 1 0
      sample_vert_data sample_tri_data (initialized_node RIGID) = Ok n' /\
    length (m_tire_data n') = length (m_tire_data (initialized_node RIGID)) /\
    forall i t, m_tire_data (initialized_node RIGID) !! i = Some t ->
      exists t',
        m_tire_data n' !! i = Some t' /\
        m_proxies t' = m_proxies t /\
        m_num_vert t' = m_num_vert t /\ m_num_tri t' = m_num_tri t /\
        m_start_vert t' = m_start_vert t /\ m_start_tri t' = m_start_tri t.
Proof.
  eexists. split; [vm_compute; reflexivity|].
  apply (Synchronize_keeps_tire_tables (E := sample_engine)
           (sample_config RIGID 2 false) 1 0 sample_vert_data sample_tri_data
           (initialized_node RIGID)).
  vm_compute. reflexivity.
Defined.

Lemma ForcesFaceProxies_conserves_force_witness :
  exists t vert_forces vert_indices,
    m_tire_data (synchronized_node GRANULAR) !! 0%nat = Some t /\
    ForcesFaceProxies (E := sample_engine) 0 (synchronized_node GRANULAR) ([], [])
      = Ok (vert_forces, vert_indices) /\
    exists emitted : list (Z * ChVector),
      vert_indices = map fst emitted /\
      vert_forces = flat_map (fun kv => force_components (snd kv)) emitted /\
      Veq (Vsum (map snd emitted))
          (Vsum (map (proxy_force (E := sample_engine) (synchronized_node GRANULAR) t)
                   (contacting (E := sample_engine) (synchronized_node GRANULAR) t
                      (Z.to_nat (m_num_tri t))))).
Proof.
  eexists. eexists. eexists. split; [vm_compute; reflexivity|].
  split; [vm_compute; reflexivity|].
  apply (ForcesFaceProxies_conserves_force (E := sample_engine) 0
           (synchronized_node GRANULAR)); vm_compute; reflexivity.
Defined.


